(** * Dating API: likes, matches and match-scoped messaging

    A shallow embedding of the request handlers of [main.py] (the FastAPI
    application "Dating App API") over an explicit model of the MongoDB
    collections they use, followed by the properties of the like/match
    pipeline and of the conversation guard.

    Conventions.
    - A collection is the list of its documents in insertion order;
      [find_one] returns the first document that satisfies the filter.
    - Every reading of [datetime.utcnow()] and every [_id] assigned by
      [insert_one] is supplied by the environment of the request ([Env]).
    - A handler is a function from the database to an outcome and the
      database it leaves behind.  An outcome is a value, an [HTTPException]
      or an exception that no handler catches. *)

From Stdlib Require Import List String Ascii ZArith NArith Bool Lia.
From Stdlib Require Import Sorting.Sorted Sorting.Permutation.
From Stdlib Require Strings.Byte.
Import ListNotations.

Local Open Scope string_scope.
Local Open Scope Z_scope.
Local Open Scope list_scope.

(** ** bson.ObjectId

    An [ObjectId] is a 12-byte value.  [ObjectId(s)] accepts a string of
    exactly 24 hexadecimal digits (either case); [str(oid)] renders the 24
    lower-case digits.  A string of another length, or with a character
    in it that is neither a digit nor a blank, raises [InvalidId].

    One kind of string is left to the side: 24 characters with blanks
    standing between pairs of digits.  [bytes.fromhex] skips the blanks,
    so bson lets such a string through as a value of fewer than 12 bytes,
    which is the [_id] of no document; here it is turned down like any
    other string that is not 24 digits.  What is stated below about
    [InvalidId] is stated for the strings of [surely_invalid], which both
    turn down. *)
Module Bson.

Fixpoint bytes_n (n : nat) : Type :=
  match n with
  | O => unit
  | S n => (Byte.byte * bytes_n n)%type
  end.

Definition ObjectIdT : Type := bytes_n 12.

Definition hex_digit (n : N) : ascii :=
  match n with
  | 0%N => "0" | 1%N => "1" | 2%N => "2" | 3%N => "3"
  | 4%N => "4" | 5%N => "5" | 6%N => "6" | 7%N => "7"
  | 8%N => "8" | 9%N => "9" | 10%N => "a" | 11%N => "b"
  | 12%N => "c" | 13%N => "d" | 14%N => "e" | _ => "f"
  end%char.

Definition hex_value (c : ascii) : option N :=
  let n := N_of_ascii c in
  if ((48 <=? n) && (n <=? 57))%N then Some (n - 48)%N
  else if ((97 <=? n) && (n <=? 102))%N then Some (n - 87)%N
  else if ((65 <=? n) && (n <=? 70))%N then Some (n - 55)%N
  else None.

Definition byte_of_hex (hi lo : ascii) : option Byte.byte :=
  match hex_value hi, hex_value lo with
  | Some h, Some l => Byte.of_N (16 * h + l)
  | _, _ => None
  end.

Fixpoint hex_of (n : nat) : bytes_n n -> string :=
  match n with
  | O => fun _ => EmptyString
  | S n => fun bs =>
      let v := Byte.to_N (fst bs) in
      String (hex_digit (v / 16)) (String (hex_digit (v mod 16)) (hex_of n (snd bs)))
  end.

Fixpoint parse_hex (n : nat) (s : string) : option (bytes_n n) :=
  match n with
  | O => match s with EmptyString => Some tt | _ => None end
  | S n =>
      match s with
      | String hi (String lo rest) =>
          match byte_of_hex hi lo, parse_hex n rest with
          | Some b, Some bs => Some (b, bs)
          | _, _ => None
          end
      | _ => None
      end
  end.

Fixpoint bytes_eqb (n : nat) : bytes_n n -> bytes_n n -> bool :=
  match n with
  | O => fun _ _ => true
  | S n => fun x y => Byte.eqb (fst x) (fst y) && bytes_eqb n (snd x) (snd y)
  end.

(** [ObjectId(s)]: [None] stands for [bson.errors.InvalidId]. *)
Definition ObjectId (s : string) : option ObjectIdT := parse_hex 12 s.

(** [str(oid)]. *)
Definition str (o : ObjectIdT) : string := hex_of 12 o.

Definition eqb (x y : ObjectIdT) : bool := bytes_eqb 12 x y.

End Bson.

Import Bson.

Arguments Bson.str : simpl never.
Arguments Bson.ObjectId : simpl never.
Arguments Bson.eqb : simpl never.

(** ** Documents

    One record per collection, with the fields of [schemas.py] and the
    [_id] the store assigns.  [datetime] values are counted in
    microseconds.  The store keeps a datetime to the millisecond; the
    value of a stored field stands for the reading as the store keeps
    it. *)

Definition datetime : Type := Z.

(** [location] is a free-form dict that no handler reads or writes. *)
Definition dict : Type := list (string * string).

Module User.
Record t : Type := mk {
  _id : ObjectIdT;
  email : string;
  password_hash : string;
  full_name : option string;
  gender : option string;
  birthday : option string;
  photos : list string;
  bio : option string;
  interests : list string;
  location : option dict;
  show_me : option string;
  age_range : list Z;
  distance_km : Z;
  verified : bool;
  created_at : option datetime;
  updated_at : option datetime
}.
End User.

Module Like.
Record t : Type := mk {
  _id : ObjectIdT;
  liker_id : string;
  liked_id : string;
  created_at : datetime
}.
End Like.

Module Match.
Record t : Type := mk {
  _id : ObjectIdT;
  user_a : string;
  user_b : string;
  created_at : datetime
}.
End Match.

Module Message.
Record t : Type := mk {
  _id : ObjectIdT;
  match_id : string;
  sender_id : string;
  text : string;
  created_at : datetime
}.
End Message.

(** The four collections [db["user"]], [db["like"]], [db["match"]] and
    [db["message"]]. *)
Record Database : Type := mkDatabase {
  coll_user : list User.t;
  coll_like : list Like.t;
  coll_match : list Match.t;
  coll_message : list Message.t
}.

(** The readings of [datetime.utcnow()] and the identifiers handed out by
    [insert_one] during one request, in the order the handler asks for
    them.  Nothing is assumed of the readings: the clock is the wall clock
    and may stand still or step back between two of them. *)
Record Env : Type := mkEnv {
  utcnow : nat -> datetime;
  new_id : nat -> ObjectIdT
}.

(** ** Outcomes *)

Inductive Exception : Type :=
| HTTPException (status_code : Z) (detail : string)
| InvalidId        (* bson.errors.InvalidId, raised by [ObjectId(...)] *)
| AttributeError.  (* [None.get(...)] inside [user_entity] *)

Inductive Result (A : Type) : Type :=
| Ok (a : A)
| Raise (e : Exception).
Arguments Ok {A} a.
Arguments Raise {A} e.

(** The error kinds of the specification, as the handlers report them. *)
Definition NotFound (detail : string) : Exception := HTTPException 404 detail.
Definition Forbidden (detail : string) : Exception := HTTPException 403 detail.
Definition Unauthorized (detail : string) : Exception := HTTPException 401 detail.

Definition is_InvalidInput (e : Exception) : bool :=
  match e with
  | HTTPException c _ => (c =? 400) || (c =? 422)
  | _ => false
  end.

(** ** The handler monad: database state and exceptions *)

Definition M (A : Type) : Type := Database -> Result A * Database.

Definition ret {A} (a : A) : M A := fun db => (Ok a, db).

Definition raise {A} (e : Exception) : M A := fun db => (Raise e, db).

Definition bind {A B} (c : M A) (k : A -> M B) : M B :=
  fun db =>
    match c db with
    | (Ok a, db') => k a db'
    | (Raise e, db') => (Raise e, db')
    end.

Declare Scope handler_scope.
Delimit Scope handler_scope with handler.
Notation "x <- c ;; k" := (bind c (fun x => k))
  (at level 61, c at next level, right associativity) : handler_scope.
Notation "c ;;; k" := (bind c (fun _ => k))
  (at level 61, right associativity) : handler_scope.
Local Open Scope handler_scope.

(** ** Store operations *)

Definition find_one {A} (filter : A -> bool) (coll : list A) : option A :=
  List.find filter coll.

Definition find {A} (filter : A -> bool) (coll : list A) : list A :=
  List.filter filter coll.

Definition insert_one {A} (doc : A) (coll : list A) : list A := coll ++ [doc].

Arguments find_one : simpl never.
Arguments find : simpl never.
Arguments insert_one : simpl never.

(** [update_one(filter, {"$set": ...})]: the first document that satisfies
    the filter is rewritten in place; the others are left alone. *)
Fixpoint update_one {A} (filter : A -> bool) (set : A -> A) (coll : list A) : list A :=
  match coll with
  | [] => []
  | d :: rest => if filter d then set d :: rest else d :: update_one filter set rest
  end.

(** [cursor.sort(key, direction)].  The store promises the order of the
    keys and nothing about documents with equal keys; the function here
    has to put them in some order and keeps the one the cursor yields.
    The statements about the order of a listing are made for any sorted
    rearrangement, not for this one alone. *)
Fixpoint insert_sorted {A} (le : A -> A -> bool) (x : A) (l : list A) : list A :=
  match l with
  | [] => [x]
  | y :: l' => if le x y then x :: y :: l' else y :: insert_sorted le x l'
  end.

Fixpoint sort {A} (le : A -> A -> bool) (l : list A) : list A :=
  match l with
  | [] => []
  | x :: l' => insert_sorted le x (sort le l')
  end.

Definition ascending {A} (key : A -> datetime) (x y : A) : bool := key x <=? key y.
Definition descending {A} (key : A -> datetime) (x y : A) : bool := key y <=? key x.

Definition le_prop {A} (le : A -> A -> bool) (x y : A) : Prop := le x y = true.

(** The filter [{"_id": oid}]. *)
Definition user_with_id (oid : ObjectIdT) (d : User.t) : bool := Bson.eqb (User._id d) oid.
Definition match_with_id (oid : ObjectIdT) (m : Match.t) : bool := Bson.eqb (Match._id m) oid.

(** The database after [db["like"].insert_one(d)], and likewise for the
    other collections. *)
Definition add_like (d : Like.t) (db : Database) : Database :=
  mkDatabase (coll_user db) (insert_one d (coll_like db)) (coll_match db) (coll_message db).

Definition add_match (m : Match.t) (db : Database) : Database :=
  mkDatabase (coll_user db) (coll_like db) (insert_one m (coll_match db)) (coll_message db).

Definition add_message (m : Message.t) (db : Database) : Database :=
  mkDatabase (coll_user db) (coll_like db) (coll_match db) (insert_one m (coll_message db)).

Definition db_user_find_one (filter : User.t -> bool) : M (option User.t) :=
  fun db => (Ok (find_one filter (coll_user db)), db).

Definition db_like_find_one (filter : Like.t -> bool) : M (option Like.t) :=
  fun db => (Ok (find_one filter (coll_like db)), db).

Definition db_match_find_one (filter : Match.t -> bool) : M (option Match.t) :=
  fun db => (Ok (find_one filter (coll_match db)), db).

Definition db_match_find (filter : Match.t -> bool) : M (list Match.t) :=
  fun db => (Ok (find filter (coll_match db)), db).

Definition db_message_find (filter : Message.t -> bool) : M (list Message.t) :=
  fun db => (Ok (find filter (coll_message db)), db).

Definition db_user_find (filter : User.t -> bool) : M (list User.t) :=
  fun db => (Ok (find filter (coll_user db)), db).

Definition db_like_insert_one (doc : Like.t) : M unit :=
  fun db => (Ok tt, add_like doc db).

Definition db_match_insert_one (doc : Match.t) : M unit :=
  fun db => (Ok tt, add_match doc db).

Definition db_message_insert_one (doc : Message.t) : M unit :=
  fun db => (Ok tt, add_message doc db).

Definition db_user_update_one (filter : User.t -> bool) (set : User.t -> User.t) : M unit :=
  fun db => (Ok tt, mkDatabase (update_one filter set (coll_user db)) (coll_like db)
                               (coll_match db) (coll_message db)).

(** [ObjectId(s)] inside a handler. *)
Definition to_ObjectId (s : string) : M ObjectIdT :=
  match ObjectId s with
  | Some oid => ret oid
  | None => raise InvalidId
  end.

(** ** Request and response models *)

Record UserPublic : Type := mkUserPublic {
  pub_id : string;
  pub_email : string;
  pub_full_name : option string;
  pub_photos : list string;
  pub_bio : option string;
  pub_gender : option string;
  pub_show_me : option string;
  pub_age_range : list Z;
  pub_distance_km : Z;
  pub_interests : list string;
  pub_verified : bool
}.

Module ProfileUpdate.
Record t : Type := mk {
  photos : option (list string);
  bio : option string;
  gender : option string;
  show_me : option string;
  age_range : option (list Z);
  distance_km : option Z;
  interests : option (list string)
}.
End ProfileUpdate.

Record LikePayload : Type := mkLikePayload { target_user_id : string }.

Module MessagePayload.
Record t : Type := mk { match_id : string; text : string }.
End MessagePayload.

(** [{"ok": True, "match": ...}] *)
Record LikeResponse : Type := mkLikeResponse { like_ok : bool; like_match : bool }.

(** One element of the [items] of [/matches]. *)
Record MatchItem : Type := mkMatchItem {
  item_id : string;
  item_other : option UserPublic;
  item_created_at : datetime
}.

(** One element of the [items] of [/messages/{match_id}]. *)
Record MessageItem : Type := mkMessageItem {
  msg_id : string;
  msg_sender_id : string;
  msg_text : string;
  msg_created_at : datetime
}.

(** [{"ok": True}] *)
Record SendResponse : Type := mkSendResponse { send_ok : bool }.

(** ** Helpers of [main.py] *)

(** [get_user_by_id].  The process-wide [db] handle is taken to be
    configured: with [db is None] no request passes [get_current_user]. *)
Definition get_user_by_id (user_id : string) : M (option User.t) :=
  oid <- to_ObjectId user_id ;;
  db_user_find_one (user_with_id oid).

Definition user_entity (doc : User.t) : UserPublic :=
  {| pub_id := str (User._id doc);
     pub_email := User.email doc;
     pub_full_name := User.full_name doc;
     pub_photos := User.photos doc;
     pub_bio := User.bio doc;
     pub_gender := User.gender doc;
     pub_show_me := User.show_me doc;
     pub_age_range := User.age_range doc;
     pub_distance_km := User.distance_km doc;
     pub_interests := User.interests doc;
     pub_verified := User.verified doc |}.

Definition credentials_exception : Exception :=
  Unauthorized "Could not validate credentials".

(** [get_current_user], from the [sub] claim of the decoded token
    ([None]: the token does not decode or carries no [sub]). *)
Definition get_current_user (sub : option string) : M User.t :=
  match sub with
  | None => raise credentials_exception
  | Some user_id =>
      user <- get_user_by_id user_id ;;
      match user with
      | None => raise credentials_exception
      | Some u => ret u
      end
  end.

(** Truth value of [match_created], which is [None] or [True]. *)
Definition py_bool (v : option bool) : bool :=
  match v with Some b => b | None => false end.

(** ** Handlers *)

(** The [$set] document of [update_me]: the fields of the payload that
    are not [None], and [updated_at].  The store holds integers of up to
    64 bits; with a larger one in the payload the driver raises before
    anything is written, a case left out here: what is stated of the
    values written is stated for payloads whose integers fit
    ([storable]). *)
Definition apply_updates (payload : ProfileUpdate.t) (now : datetime) (d : User.t) : User.t :=
  {| User._id := User._id d;
     User.email := User.email d;
     User.password_hash := User.password_hash d;
     User.full_name := User.full_name d;
     User.gender :=
       match ProfileUpdate.gender payload with Some v => Some v | None => User.gender d end;
     User.birthday := User.birthday d;
     User.photos :=
       match ProfileUpdate.photos payload with Some v => v | None => User.photos d end;
     User.bio :=
       match ProfileUpdate.bio payload with Some v => Some v | None => User.bio d end;
     User.interests :=
       match ProfileUpdate.interests payload with Some v => v | None => User.interests d end;
     User.location := User.location d;
     User.show_me :=
       match ProfileUpdate.show_me payload with Some v => Some v | None => User.show_me d end;
     User.age_range :=
       match ProfileUpdate.age_range payload with Some v => v | None => User.age_range d end;
     User.distance_km :=
       match ProfileUpdate.distance_km payload with Some v => v | None => User.distance_km d end;
     User.verified := User.verified d;
     User.created_at := User.created_at d;
     User.updated_at := Some now |}.

(** [PUT /me] *)
Definition update_me (payload : ProfileUpdate.t) (user : User.t) (env : Env) : M UserPublic :=
  let by_id := user_with_id (User._id user) in
  db_user_update_one by_id (apply_updates payload (utcnow env 0)) ;;;
  fresh <- db_user_find_one by_id ;;
  match fresh with
  | Some doc => ret (user_entity doc)
  | None => raise AttributeError
  end.

Definition option_string_eqb (x : option string) (s : string) : bool :=
  match x with Some v => String.eqb v s | None => false end.

(** [GET /discover] *)
Definition discover (user : User.t) : M (list UserPublic) :=
  let query :=
    match User.show_me user with
    | Some pref =>
        if String.eqb pref "male" || String.eqb pref "female"
        then fun d => option_string_eqb (User.gender d) pref
        else fun _ => true
    | None => fun _ => true
    end in
  docs <- db_user_find query ;;
  ret (List.map user_entity
         (List.filter (fun d => negb (String.eqb (str (User._id d)) (str (User._id user))))
            (List.firstn 50 docs))).

(** The filter of the reverse-direction lookup in [like]. *)
Definition is_like (liker liked : string) (d : Like.t) : bool :=
  String.eqb (Like.liker_id d) liker && String.eqb (Like.liked_id d) liked.

(** The [$or] filter of the existing-match lookup in [like]. *)
Definition is_match_between (x y : string) (m : Match.t) : bool :=
  (String.eqb (Match.user_a m) x && String.eqb (Match.user_b m) y)
  || (String.eqb (Match.user_a m) y && String.eqb (Match.user_b m) x).

(** The document [like_doc] of [like]. *)
Definition like_doc (payload : LikePayload) (user : User.t) (env : Env) : Like.t :=
  {| Like._id := new_id env 0;
     Like.liker_id := str (User._id user);
     Like.liked_id := target_user_id payload;
     Like.created_at := utcnow env 0 |}.

(** The document [match_doc] of [like]. *)
Definition match_doc (payload : LikePayload) (user : User.t) (env : Env) : Match.t :=
  {| Match._id := new_id env 1;
     Match.user_a := str (User._id user);
     Match.user_b := target_user_id payload;
     Match.created_at := utcnow env 1 |}.

(** [POST /like] *)
Definition like (payload : LikePayload) (user : User.t) (env : Env) : M LikeResponse :=
  target <- get_user_by_id (target_user_id payload) ;;
  match target with
  | None => raise (NotFound "User not found")
  | Some _ =>
      db_like_insert_one (like_doc payload user env) ;;;
      mutual <- db_like_find_one (is_like (target_user_id payload) (str (User._id user))) ;;
      match_created <-
        match mutual with
        | Some _ =>
            existing_match <-
              db_match_find_one
                (is_match_between (str (User._id user)) (target_user_id payload)) ;;
            match existing_match with
            | None =>
                db_match_insert_one (match_doc payload user env) ;;;
                ret (Some true)
            | Some _ => ret None
            end
        | None => ret None
        end ;;
      ret {| like_ok := true; like_match := py_bool match_created |}
  end.

(** The [$or] filter of [matches]. *)
Definition involves (uid : string) (m : Match.t) : bool :=
  String.eqb (Match.user_a m) uid || String.eqb (Match.user_b m) uid.

Definition other_id_of (uid : string) (m : Match.t) : string :=
  if String.eqb (Match.user_a m) uid then Match.user_b m else Match.user_a m.

(** The body of the [for m in cur] loop of [matches]. *)
Definition match_item (uid : string) (m : Match.t) : M MatchItem :=
  other <- get_user_by_id (other_id_of uid m) ;;
  ret {| item_id := str (Match._id m);
         item_other := option_map user_entity other;
         item_created_at := Match.created_at m |}.

(** What [match_item] finds for [m], as a function of the store: the
    user [get_user_by_id(other_id)] returns, and the entry appended to
    [results]. *)
Definition counterpart (db : Database) (uid : string) (m : Match.t) : option User.t :=
  match ObjectId (other_id_of uid m) with
  | Some oid => find_one (user_with_id oid) (coll_user db)
  | None => None
  end.

Definition match_entry (db : Database) (uid : string) (m : Match.t) : MatchItem :=
  {| item_id := str (Match._id m);
     item_other := option_map user_entity (counterpart db uid m);
     item_created_at := Match.created_at m |}.

Fixpoint for_each {A B} (body : A -> M B) (cur : list A) : M (list B) :=
  match cur with
  | [] => ret []
  | x :: rest =>
      y <- body x ;;
      ys <- for_each body rest ;;
      ret (y :: ys)
  end.

(** [GET /matches] *)
Definition matches (user : User.t) : M (list MatchItem) :=
  found <- db_match_find (involves (str (User._id user))) ;;
  let cur := sort (descending Match.created_at) found in
  for_each (match_item (str (User._id user))) cur.

(** The membership test [str(user["_id"]) not in (match["user_a"],
    match["user_b"])], negated. *)
Definition is_participant (uid : string) (m : Match.t) : bool :=
  String.eqb uid (Match.user_a m) || String.eqb uid (Match.user_b m).

(** The document [msg] of [send_message]. *)
Definition msg (payload : MessagePayload.t) (user : User.t) (env : Env) : Message.t :=
  {| Message._id := new_id env 0;
     Message.match_id := MessagePayload.match_id payload;
     Message.sender_id := str (User._id user);
     Message.text := MessagePayload.text payload;
     Message.created_at := utcnow env 0 |}.

(** [POST /messages] *)
Definition send_message (payload : MessagePayload.t) (user : User.t) (env : Env)
  : M SendResponse :=
  oid <- to_ObjectId (MessagePayload.match_id payload) ;;
  found <- db_match_find_one (match_with_id oid) ;;
  match found with
  | None => raise (NotFound "Match not found")
  | Some m =>
      if negb (is_participant (str (User._id user)) m)
      then raise (Forbidden "Not part of this match")
      else
        db_message_insert_one (msg payload user env) ;;;
        ret {| send_ok := true |}
  end.

Definition message_item (m : Message.t) : MessageItem :=
  {| msg_id := str (Message._id m);
     msg_sender_id := Message.sender_id m;
     msg_text := Message.text m;
     msg_created_at := Message.created_at m |}.

(** The filter [{"match_id": match_id}]. *)
Definition in_match (match_id : string) (d : Message.t) : bool :=
  String.eqb (Message.match_id d) match_id.

(** [GET /messages/{match_id}] *)
Definition get_messages (match_id : string) (user : User.t) : M (list MessageItem) :=
  oid <- to_ObjectId match_id ;;
  found <- db_match_find_one (match_with_id oid) ;;
  match found with
  | None => raise (NotFound "Match not found")
  | Some m =>
      if negb (is_participant (str (User._id user)) m)
      then raise (Forbidden "Not part of this match")
      else
        cur <- db_message_find (in_match match_id) ;;
        ret (List.map message_item (sort (ascending Message.created_at) cur))
  end.

(** ** What the store holds, in the words of the specification *)

(** [user_id] resolves to the stored user [target]. *)
Definition resolves_user (db : Database) (user_id : string) (target : User.t) : Prop :=
  get_user_by_id user_id db = (Ok (Some target), db).

(** The ledger holds a like from [liker] to [liked]. *)
Definition likes (db : Database) (liker liked : string) : Prop :=
  exists d, In d (coll_like db) /\ Like.liker_id d = liker /\ Like.liked_id d = liked.

(** [m] is a Match of the unordered pair [{x, y}]. *)
Definition pairs (x y : string) (m : Match.t) : Prop :=
  (Match.user_a m = x /\ Match.user_b m = y) \/ (Match.user_a m = y /\ Match.user_b m = x).

(** The store holds a Match of the unordered pair [{x, y}]. *)
Definition matched (db : Database) (x y : string) : Prop :=
  exists m, In m (coll_match db) /\ pairs x y m.

(** [uid] is one of the two users of [m]. *)
Definition participant (uid : string) (m : Match.t) : Prop :=
  uid = Match.user_a m \/ uid = Match.user_b m.

(** [o] is the participant of [m] other than [uid]: the one named in
    the field that [uid] is not in. *)
Definition other_participant (uid : string) (m : Match.t) (o : string) : Prop :=
  (Match.user_a m = uid /\ o = Match.user_b m) \/
  (Match.user_b m = uid /\ o = Match.user_a m).

(** [p] is the public view of the user document [d]: its identifier as a
    string and its profile, without the password hash. *)
Definition public_view_of (d : User.t) (p : UserPublic) : Prop :=
  pub_id p = str (User._id d) /\
  pub_email p = User.email d /\
  pub_full_name p = User.full_name d /\
  pub_photos p = User.photos d /\
  pub_bio p = User.bio d /\
  pub_gender p = User.gender d /\
  pub_show_me p = User.show_me d /\
  pub_age_range p = User.age_range d /\
  pub_distance_km p = User.distance_km d /\
  pub_interests p = User.interests d /\
  pub_verified p = User.verified d.

(** No stored user has the identifier that [o] spells. *)
Definition resolves_to_nobody (db : Database) (o : string) : Prop :=
  forall d, In d (coll_user db) -> ObjectId o <> Some (User._id d).

(** [match_id] resolves to the stored Match [m]. *)
Definition resolves_match (db : Database) (match_id : string) (m : Match.t) : Prop :=
  exists oid, ObjectId match_id = Some oid /\
              find_one (match_with_id oid) (coll_match db) = Some m.

(** [match_id] is an identifier that no stored Match carries. *)
Definition unknown_match (db : Database) (match_id : string) : Prop :=
  exists oid, ObjectId match_id = Some oid /\
              find_one (match_with_id oid) (coll_match db) = None.

(** Both participants of every stored Match are identifiers. *)
Definition participants_are_ids (db : Database) : Prop :=
  Forall (fun m => ObjectId (Match.user_a m) <> None /\ ObjectId (Match.user_b m) <> None)
    (coll_match db).

(** The sender of the stored message [d] is a participant of the Match
    that [d] refers to. *)
Definition sender_is_participant (db : Database) (d : Message.t) : Prop :=
  exists m, resolves_match db (Message.match_id d) m /\ participant (Message.sender_id d) m.

Definition messages_from_participants (db : Database) : Prop :=
  Forall (sender_is_participant db) (coll_message db).

(** The requests of the application that reach the store on behalf of a
    user, and the database each leaves behind.  A request whose token does
    not authenticate stops in [get_current_user]. *)
Inductive Request : Type :=
| PutMe (payload : ProfileUpdate.t)
| GetDiscover
| PostLike (payload : LikePayload)
| GetMatches
| PostMessages (payload : MessagePayload.t)
| GetMessages (match_id : string).

Definition serve (sub : option string) (req : Request) (env : Env) (db : Database)
  : Database :=
  match get_current_user sub db with
  | (Ok user, db1) =>
      match req with
      | PutMe payload => snd (update_me payload user env db1)
      | GetDiscover => snd (discover user db1)
      | PostLike payload => snd (like payload user env db1)
      | GetMatches => snd (matches user db1)
      | PostMessages payload => snd (send_message payload user env db1)
      | GetMessages match_id => snd (get_messages match_id user db1)
      end
  | (Raise _, db1) => db1
  end.

(** A sequence of requests, served one after the other. *)
Fixpoint serve_all (reqs : list (option string * Request * Env)) (db : Database)
  : Database :=
  match reqs with
  | [] => db
  | (sub, req, env) :: rest => serve_all rest (serve sub req env db)
  end.

(** ** [like], one store operation at a time

    Two requests served by two workers of the application share the store
    and nothing else; each call to the store is one step, and the steps of
    the two requests may alternate in any way.  [LikeState] is the point
    the handler has reached; [like_step] runs the handler up to and
    including its next call to the store. *)
Inductive LikeState : Type :=
| AtGetUser                          (* [get_user_by_id(payload.target_user_id)] *)
| AtInsertLike                       (* [db["like"].insert_one(like_doc)] *)
| AtFindMutual                       (* [db["like"].find_one(...)] *)
| AtFindExisting                     (* [db["match"].find_one(...)] *)
| AtInsertMatch                      (* [db["match"].insert_one(match_doc)] *)
| Returned (r : Result LikeResponse).

Definition like_step (payload : LikePayload) (user : User.t) (env : Env)
  (at_ : LikeState) (db : Database) : LikeState * Database :=
  match at_ with
  | AtGetUser =>
      match get_user_by_id (target_user_id payload) db with
      | (Ok (Some _), db') => (AtInsertLike, db')
      | (Ok None, db') => (Returned (Raise (NotFound "User not found")), db')
      | (Raise e, db') => (Returned (Raise e), db')
      end
  | AtInsertLike =>
      (AtFindMutual, snd (db_like_insert_one (like_doc payload user env) db))
  | AtFindMutual =>
      match find_one (is_like (target_user_id payload) (str (User._id user))) (coll_like db) with
      | Some _ => (AtFindExisting, db)
      | None => (Returned (Ok {| like_ok := true; like_match := py_bool None |}), db)
      end
  | AtFindExisting =>
      match find_one (is_match_between (str (User._id user)) (target_user_id payload))
              (coll_match db) with
      | None => (AtInsertMatch, db)
      | Some _ => (Returned (Ok {| like_ok := true; like_match := py_bool None |}), db)
      end
  | AtInsertMatch =>
      (Returned (Ok {| like_ok := true; like_match := py_bool (Some true) |}),
       snd (db_match_insert_one (match_doc payload user env) db))
  | Returned r => (Returned r, db)
  end.

Fixpoint like_steps (n : nat) (payload : LikePayload) (user : User.t) (env : Env)
  (at_ : LikeState) (db : Database) : LikeState * Database :=
  match n with
  | O => (at_, db)
  | S n =>
      let (at', db') := like_step payload user env at_ db in
      like_steps n payload user env at' db'
  end.

(** A [like] request in flight. *)
Record LikeRequest : Type := mkLikeRequest {
  req_payload : LikePayload;
  req_user : User.t;
  req_env : Env;
  req_at : LikeState
}.

Definition start (payload : LikePayload) (user : User.t) (env : Env) : LikeRequest :=
  mkLikeRequest payload user env AtGetUser.

Definition advance (r : LikeRequest) (db : Database) : LikeRequest * Database :=
  let (at', db') := like_step (req_payload r) (req_user r) (req_env r) (req_at r) db in
  (mkLikeRequest (req_payload r) (req_user r) (req_env r) at', db').

(** Two requests under a schedule: [true] lets the first take its next
    step, [false] the second. *)
Fixpoint interleave (schedule : list bool) (r1 r2 : LikeRequest) (db : Database)
  : LikeRequest * LikeRequest * Database :=
  match schedule with
  | [] => (r1, r2, db)
  | true :: rest => let (r1', db') := advance r1 db in interleave rest r1' r2 db'
  | false :: rest => let (r2', db') := advance r2 db in interleave rest r1 r2' db'
  end.

(** All schedules with [n] steps of the first request and [k] of the
    second. *)
Fixpoint schedules (n k : nat) : list (list bool) :=
  match n with
  | O => [List.repeat false k]
  | S n' =>
      (fix inner (k : nat) : list (list bool) :=
         match k with
         | O => [List.repeat true (S n')]
         | S k' => List.map (cons true) (schedules n' (S k'))
                   ++ List.map (cons false) (inner k')
         end) k
  end.

(** The request has stored its like. *)
Definition past_insert (at_ : LikeState) : Prop :=
  match at_ with
  | AtFindMutual | AtFindExisting | AtInsertMatch | Returned (Ok _) => True
  | _ => False
  end.

(** The request has answered without raising. *)
Definition returned_ok (at_ : LikeState) : Prop :=
  match at_ with
  | Returned (Ok _) => True
  | _ => False
  end.

(** What holds at every point of two opposite likes in flight, the first
    by [a] on [b] and the second by [b] on [a]. *)
Definition opposite_likes_inv (a b : string) (r1 r2 : LikeRequest) (db : Database) : Prop :=
  (past_insert (req_at r1) -> likes db a b) /\
  (past_insert (req_at r2) -> likes db b a) /\
  (returned_ok (req_at r1) -> returned_ok (req_at r2) -> matched db a b).

(** The number of stored Match records of the unordered pair [{x, y}]. *)
Definition count_matches (x y : string) (db : Database) : nat :=
  List.length (List.filter (is_match_between x y) (coll_match db)).

(** What [update_me] may change in a user document [d], giving [d']:
    nothing in the document of another user; in the document of [user],
    [updated_at] and the fields of the payload that are not [None]. *)
Definition update_frame (payload : ProfileUpdate.t) (user : User.t) (d d' : User.t) : Prop :=
  (User._id d <> User._id user -> d' = d) /\
  User._id d' = User._id d /\
  User.email d' = User.email d /\
  User.password_hash d' = User.password_hash d /\
  User.created_at d' = User.created_at d /\
  User.verified d' = User.verified d /\
  User.full_name d' = User.full_name d /\
  User.birthday d' = User.birthday d /\
  User.location d' = User.location d /\
  (ProfileUpdate.photos payload = None -> User.photos d' = User.photos d) /\
  (ProfileUpdate.bio payload = None -> User.bio d' = User.bio d) /\
  (ProfileUpdate.gender payload = None -> User.gender d' = User.gender d) /\
  (ProfileUpdate.show_me payload = None -> User.show_me d' = User.show_me d) /\
  (ProfileUpdate.age_range payload = None -> User.age_range d' = User.age_range d) /\
  (ProfileUpdate.distance_km payload = None -> User.distance_km d' = User.distance_km d) /\
  (ProfileUpdate.interests payload = None -> User.interests d' = User.interests d).

(** ** A small world for the examples: three registered users *)
Module Scenario.

Definition oid (last : Byte.byte) : ObjectIdT :=
  let z := Byte.x00 in
  (z, (z, (z, (z, (z, (z, (z, (z, (z, (z, (z, (last, tt)))))))))))).

Definition person (last : Byte.byte) (mail : string) : User.t :=
  {| User._id := oid last;
     User.email := mail;
     User.password_hash := "$2b$12$hash";
     User.full_name := None;
     User.gender := None;
     User.birthday := None;
     User.photos := [];
     User.bio := None;
     User.interests := [];
     User.location := None;
     User.show_me := Some "everyone";
     User.age_range := [18; 35];
     User.distance_km := 50;
     User.verified := false;
     User.created_at := Some 1;
     User.updated_at := Some 1 |}.

Definition alice : User.t := person Byte.x0a "alice@example.com".
Definition bob : User.t := person Byte.x0b "bob@example.com".
Definition carol : User.t := person Byte.x0c "carol@example.com".

Definition alice_id : string := "00000000000000000000000a".
Definition bob_id : string := "00000000000000000000000b".
Definition carol_id : string := "00000000000000000000000c".

Definition users_only : Database :=
  {| coll_user := [alice; bob; carol];
     coll_like := [];
     coll_match := [];
     coll_message := [] |}.

(** The environment of the [k]-th request: it reads the clock at
    [10 k] and [10 k + 1] and is handed the identifiers [16 k], [16 k + 1]. *)
Definition env (k : nat) : Env :=
  {| utcnow := fun i => Z.of_nat (10 * k + i);
     new_id := fun i =>
       match Byte.of_nat (16 * k + i) with
       | Some b => oid b
       | None => oid Byte.xff
       end |}.

(** Alice likes Bob. *)
Definition one_like : Database :=
  snd (like {| target_user_id := bob_id |} alice (env 1) users_only).

(** ... and Bob likes Alice back: the two are matched. *)
Definition matched_db : Database :=
  snd (like {| target_user_id := alice_id |} bob (env 2) one_like).

(** The [_id] of the Match of Alice and Bob in [matched_db]. *)
Definition match_ab_id : string := "000000000000000000000021".

(** Carol and Alice like each other too. *)
Definition two_matches : Database :=
  snd (like {| target_user_id := carol_id |} alice (env 4)
         (snd (like {| target_user_id := alice_id |} carol (env 3) matched_db))).

(** The same store once the account of Bob is gone. *)
Definition bob_gone : Database :=
  {| coll_user := [alice; carol];
     coll_like := coll_like two_matches;
     coll_match := coll_match two_matches;
     coll_message := coll_message two_matches |}.


End Scenario.

(** ** Accounts: registration, login and tokens

    The password hashing of [passlib] and the token codec of [jose] are
    services the application calls; they are taken as they come, one
    record each.  [hash] draws its salt from the environment. *)

Record CryptContext : Type := mkCryptContext {
  pwd_hash : string -> string -> string;   (* salt, password *)
  pwd_verify : string -> string -> bool    (* password, stored hash *)
}.

(** The claims a token carries: [{"sub": ..., "exp": ...}]. *)
Record Claims : Type := mkClaims {
  sub : option string;
  exp : option datetime
}.

(** [jwt.encode(claims, key)] and [jwt.decode(token, key)], the latter at
    the time of the call; [None] stands for [JWTError]. *)
Record Jwt : Type := mkJwt {
  jwt_encode : Claims -> string -> string;
  jwt_decode : string -> string -> datetime -> option Claims
}.

(** [verify(p, hash(p))] holds. *)
Definition hash_verifies (pwd_context : CryptContext) : Prop :=
  forall salt password,
    pwd_verify pwd_context password (pwd_hash pwd_context salt password) = true.

(** A token decodes, under the key it was signed with and up to its
    expiry, to claims with the subject it was given. *)
Definition decodes_own_tokens (jwt : Jwt) : Prop :=
  forall (s key : string) (e now : datetime),
    now <= e ->
    exists c, jwt_decode jwt (jwt_encode jwt {| sub := Some s; exp := Some e |} key) key now
              = Some c /\ sub c = Some s.

Definition ACCESS_TOKEN_EXPIRE_MINUTES : Z := 60 * 24 * 14.

(** [timedelta(minutes=m)], in microseconds. *)
Definition minutes (m : Z) : Z := m * 60 * 1000000.

Record Token : Type := mkToken { access_token : string; token_type : string }.

Module UserCreate.
Record t : Type := mk {
  email : string;
  password : string;
  full_name : option string
}.
End UserCreate.

Module LoginPayload.
Record t : Type := mk { email : string; password : string }.
End LoginPayload.

(** The process-wide handle [db]: [None] when no database is configured. *)
Definition Handle : Type := option Database.

Definition verify_password (pwd_context : CryptContext) (plain_password hashed_password : string)
  : bool :=
  pwd_verify pwd_context plain_password hashed_password.

Definition get_password_hash (pwd_context : CryptContext) (salt password : string) : string :=
  pwd_hash pwd_context salt password.

(** [create_access_token]: [expires_delta or timedelta(minutes=...)] takes
    the default for [None] and for a zero delta alike. *)
Definition create_access_token (jwt : Jwt) (SECRET_KEY : string) (data : Claims)
  (expires_delta : option Z) (now : datetime) : string :=
  let delta :=
    match expires_delta with
    | Some d => if d =? 0 then minutes ACCESS_TOKEN_EXPIRE_MINUTES else d
    | None => minutes ACCESS_TOKEN_EXPIRE_MINUTES
    end in
  let expire := now + delta in
  let to_encode := {| sub := sub data; exp := Some expire |} in
  jwt_encode jwt to_encode SECRET_KEY.

(** The filter [{"email": email}]. *)
Definition with_email (email : string) (d : User.t) : bool := String.eqb (User.email d) email.

Definition get_user_by_email (email : string) (h : Handle) : option User.t :=
  match h with
  | None => None
  | Some db => find_one (with_email email) (coll_user db)
  end.

(** [get_user_by_id] with its first test, [db is None], which comes
    before [ObjectId(user_id)]. *)
Definition get_user_by_id_on (user_id : string) (h : Handle) : Result (option User.t) :=
  match h with
  | None => Ok None
  | Some db => fst (get_user_by_id user_id db)
  end.

(** The [try] block of [get_current_user]: the subject of the token, if
    the token decodes and has one. *)
Definition token_sub (jwt : Jwt) (SECRET_KEY token : string) (now : datetime) : option string :=
  match jwt_decode jwt token SECRET_KEY now with
  | Some payload => sub payload
  | None => None
  end.

(** [get_current_user], from the token, on a handle that may be
    unconfigured. *)
Definition get_current_user_on (jwt : Jwt) (SECRET_KEY token : string) (now : datetime)
  (h : Handle) : Result User.t :=
  match token_sub jwt SECRET_KEY token now with
  | None => Raise credentials_exception
  | Some user_id =>
      match get_user_by_id_on user_id h with
      | Ok (Some u) => Ok u
      | Ok None => Raise credentials_exception
      | Raise e => Raise e
      end
  end.

(** The document [user_doc] of [register]: [User(...).model_dump()] with
    the defaults of [schemas.User], then the two timestamps. *)
Definition user_doc (pwd_context : CryptContext) (user : UserCreate.t) (salt : string)
  (env : Env) : User.t :=
  {| User._id := new_id env 0;
     User.email := UserCreate.email user;
     User.password_hash := get_password_hash pwd_context salt (UserCreate.password user);
     User.full_name := UserCreate.full_name user;
     User.gender := None;
     User.birthday := None;
     User.photos := [];
     User.bio := None;
     User.interests := [];
     User.location := None;
     User.show_me := Some "everyone";
     User.age_range := [18; 35];
     User.distance_km := 50;
     User.verified := false;
     User.created_at := Some (utcnow env 0);
     User.updated_at := Some (utcnow env 1) |}.

Definition add_user (d : User.t) (db : Database) : Database :=
  mkDatabase (insert_one d (coll_user db)) (coll_like db) (coll_match db) (coll_message db).

(** [POST /auth/register] *)
Definition register (pwd_context : CryptContext) (user : UserCreate.t) (salt : string)
  (env : Env) (h : Handle) : Result UserPublic * Handle :=
  match h with
  | None => (Raise (HTTPException 500 "Database not configured"), None)
  | Some db =>
      match get_user_by_email (UserCreate.email user) h with
      | Some _ => (Raise (HTTPException 400 "Email already registered"), Some db)
      | None =>
          let db' := add_user (user_doc pwd_context user salt env) db in
          match find_one (user_with_id (new_id env 0)) (coll_user db') with
          | Some created => (Ok (user_entity created), Some db')
          | None => (Raise AttributeError, Some db')
          end
      end
  end.

(** [POST /auth/login]; it reads the store and writes nothing. *)
Definition login (pwd_context : CryptContext) (jwt : Jwt) (SECRET_KEY : string)
  (payload : LoginPayload.t) (now : datetime) (h : Handle) : Result Token :=
  match get_user_by_email (LoginPayload.email payload) h with
  | None => Raise (HTTPException 400 "Incorrect email or password")
  | Some user =>
      if negb (verify_password pwd_context (LoginPayload.password payload)
                 (User.password_hash user))
      then Raise (HTTPException 400 "Incorrect email or password")
      else
        let access_token :=
          create_access_token jwt SECRET_KEY
            {| sub := Some (str (User._id user)); exp := None |} None now in
        Ok {| access_token := access_token; token_type := "bearer" |}
  end.

(** [GET /me] *)
Definition me (user : User.t) : UserPublic := user_entity user.

(** Every request of the application that can write: registration, and
    the requests made under a token. *)
Inductive PublicRequest : Type :=
| PostRegister (user : UserCreate.t) (salt : string)
| WithSub (sub : option string) (req : Request).

Definition serve_public (pwd_context : CryptContext) (r : PublicRequest) (env : Env)
  (db : Database) : Database :=
  match r with
  | PostRegister user salt =>
      match snd (register pwd_context user salt env (Some db)) with
      | Some db' => db'
      | None => db
      end
  | WithSub sub req => serve sub req env db
  end.

Fixpoint serve_public_all (pwd_context : CryptContext)
  (reqs : list (PublicRequest * Env)) (db : Database) : Database :=
  match reqs with
  | [] => db
  | (r, env) :: rest => serve_public_all pwd_context rest (serve_public pwd_context r env db)
  end.

(** No two stored users share an email. *)
Definition unique_emails (db : Database) : Prop :=
  NoDup (List.map User.email (coll_user db)).

(** No two stored users share an [_id]. *)
Definition unique_user_ids (db : Database) : Prop :=
  NoDup (List.map User._id (coll_user db)).

(** The store never hands out the [_id] of a stored user again. *)
Definition fresh_user_id (oid : ObjectIdT) (db : Database) : Prop :=
  Forall (fun d => User._id d <> oid) (coll_user db).

(** No stored Match repeats an unordered pair. *)
Definition unique_matches (db : Database) : Prop :=
  forall x y, (count_matches x y db <= 1)%nat.

(** [l] grows into [l'] at its end only. *)
Definition extends {A} (l l' : list A) : Prop := exists more, l' = l ++ more.

(** Every liker in the ledger is written as [str] writes an identifier. *)
Definition likers_as_written (db : Database) : Prop :=
  Forall (fun d => exists oid, Like.liker_id d = str oid) (coll_like db).

(** The blanks that [bytes.fromhex] skips. *)
Definition is_ascii_whitespace (c : ascii) : bool :=
  let n := N_of_ascii c in
  ((9 <=? n) && (n <=? 13))%N || (n =? 32)%N.

Fixpoint chars (s : string) : list ascii :=
  match s with
  | EmptyString => []
  | String c rest => c :: chars rest
  end.

(** A string that is no identifier whichever way it is read: it is not 24
    characters long, or one of its characters is neither a hexadecimal
    digit nor a blank. *)
Definition surely_invalid (s : string) : Prop :=
  String.length s <> 24%nat \/
  exists c, In c (chars s) /\ hex_value c = None /\ is_ascii_whitespace c = false.

(** An integer the store can hold: eight bytes, signed. *)
Definition fits_int64 (v : Z) : Prop := - 2 ^ 63 <= v < 2 ^ 63.

(** The integers of the payload are ones the store can hold. *)
Definition storable (payload : ProfileUpdate.t) : Prop :=
  (forall v, ProfileUpdate.distance_km payload = Some v -> fits_int64 v) /\
  (forall l, ProfileUpdate.age_range payload = Some l -> Forall fits_int64 l).

(** ** Services and stores for the examples *)
Module Accounts.

(** A context that keeps the password as it is, and a codec whose token
    is the subject: enough to run the handlers. *)
Definition plain_context : CryptContext :=
  {| pwd_hash := fun _ password => password;
     pwd_verify := fun password hashed => String.eqb password hashed |}.

Definition plain_jwt : Jwt :=
  {| jwt_encode := fun claims _ => match sub claims with Some s => s | None => "" end;
     jwt_decode := fun token _ _ => Some {| sub := Some token; exp := None |} |}.

Definition dave : UserCreate.t :=
  {| UserCreate.email := "dave@example.com";
     UserCreate.password := "correct horse";
     UserCreate.full_name := Some "Dave" |}.

Definition dave_id : string := "000000000000000000000070".

(** The store of [Scenario.users_only] once Dave has registered. *)
Definition with_dave : Database :=
  add_user (user_doc plain_context dave "salt" (Scenario.env 7)) Scenario.users_only.

(** A store in which Alice and Bob are matched under an identifier that
    has a letter in it. *)
Definition match_2a : Match.t :=
  {| Match._id := Scenario.oid Byte.x2a;
     Match.user_a := Scenario.bob_id;
     Match.user_b := Scenario.alice_id;
     Match.created_at := 21 |}.

Definition lettered : Database :=
  {| coll_user := coll_user Scenario.users_only;
     coll_like := coll_like Scenario.matched_db;
     coll_match := [match_2a];
     coll_message := [] |}.

(** Fifty-one users, stored in the order of their identifiers
    [...00] to [...32]. *)
Definition crowd : Database :=
  {| coll_user :=
       List.map (fun n => match Byte.of_nat n with
                          | Some b => Scenario.person b "someone@example.com"
                          | None => Scenario.person Byte.xff "someone@example.com"
                          end) (List.seq 0 51);
     coll_like := [];
     coll_match := [];
     coll_message := [] |}.

End Accounts.
(** * Properties *)

(** ** bson.ObjectId *)

Lemma byte_of_hex_digits (b : Byte.byte) :
  byte_of_hex (hex_digit (Byte.to_N b / 16)) (hex_digit (Byte.to_N b mod 16)) = Some b.
Proof. destruct b; reflexivity. Qed.

Lemma parse_hex_of (n : nat) (bs : bytes_n n) : parse_hex n (hex_of n bs) = Some bs.
Proof.
  induction n as [|n IH].
  - now destruct bs.
  - destruct bs as [b bs']. cbn [hex_of parse_hex fst snd].
    now rewrite byte_of_hex_digits, IH.
Qed.

Lemma bytes_eqb_eq (n : nat) (x y : bytes_n n) : bytes_eqb n x y = true <-> x = y.
Proof.
  induction n as [|n IH].
  - destruct x, y. now split.
  - destruct x as [a x'], y as [b y']; cbn [bytes_eqb fst snd].
    rewrite andb_true_iff, IH. split.
    + intros [Hb ->]. now rewrite (Byte.byte_dec_bl _ _ Hb).
    + intros [= -> ->]. split; [apply Byte.byte_dec_lb|]; reflexivity.
Qed.

(** [ObjectId(str(oid)) == oid]. *)
Lemma ObjectId_str (o : ObjectIdT) : ObjectId (str o) = Some o.
Proof. apply parse_hex_of. Qed.

Lemma str_inj (x y : ObjectIdT) : str x = str y -> x = y.
Proof.
  intros H. generalize (ObjectId_str x). rewrite H, ObjectId_str. congruence.
Qed.

Lemma oid_eqb_eq (x y : ObjectIdT) : eqb x y = true <-> x = y.
Proof. apply bytes_eqb_eq. Qed.

Lemma oid_eqb_refl (x : ObjectIdT) : eqb x x = true.
Proof. now apply oid_eqb_eq. Qed.

Lemma oid_eqb_neq (x y : ObjectIdT) : eqb x y = false <-> x <> y.
Proof.
  rewrite <- oid_eqb_eq. destruct (eqb x y); split; congruence.
Qed.

(** ** The store operations *)

Section Sort.

Context {A : Type} (le : A -> A -> bool).

Hypothesis le_total : forall x y, le x y = true \/ le y x = true.
Hypothesis le_trans : forall x y z, le x y = true -> le y z = true -> le x z = true.

Lemma insert_sorted_Permutation (x : A) (l : list A) :
  Permutation (insert_sorted le x l) (x :: l).
Proof.
  induction l as [|y l IH]; cbn [insert_sorted].
  - apply Permutation_refl.
  - destruct (le x y).
    + apply Permutation_refl.
    + apply perm_trans with (y :: x :: l).
      * now apply perm_skip.
      * apply perm_swap.
Qed.

Lemma sort_Permutation (l : list A) : Permutation (sort le l) l.
Proof.
  induction l as [|x l IH]; cbn [sort].
  - apply perm_nil.
  - apply perm_trans with (x :: sort le l).
    + apply insert_sorted_Permutation.
    + now apply perm_skip.
Qed.

Lemma insert_sorted_Forall (P : A -> Prop) (x : A) (l : list A) :
  P x -> Forall P l -> Forall P (insert_sorted le x l).
Proof.
  intros Hx Hl. induction Hl as [|y l Hy Hl IH]; cbn [insert_sorted].
  - now constructor.
  - destruct (le x y); repeat constructor; assumption.
Qed.

Lemma insert_sorted_StronglySorted (x : A) (l : list A) :
  StronglySorted (le_prop le) l -> StronglySorted (le_prop le) (insert_sorted le x l).
Proof.
  induction 1 as [|y l Hl IH Hy]; cbn [insert_sorted].
  - repeat constructor.
  - destruct (le x y) eqn:Hxy.
    + constructor.
      * now constructor.
      * constructor; [exact Hxy|].
        eapply Forall_impl; [|exact Hy]. intros z Hz. now apply le_trans with y.
    + constructor; [exact IH|].
      apply insert_sorted_Forall; [|exact Hy].
      destruct (le_total x y) as [H|H]; [congruence|exact H].
Qed.

Lemma sort_StronglySorted (l : list A) : StronglySorted (le_prop le) (sort le l).
Proof.
  induction l as [|x l IH]; cbn [sort].
  - constructor.
  - now apply insert_sorted_StronglySorted.
Qed.

End Sort.

Lemma ascending_total {A} (key : A -> datetime) (x y : A) :
  ascending key x y = true \/ ascending key y x = true.
Proof. unfold ascending. lia. Qed.

Lemma ascending_trans {A} (key : A -> datetime) (x y z : A) :
  ascending key x y = true -> ascending key y z = true -> ascending key x z = true.
Proof. unfold ascending. lia. Qed.

Lemma descending_total {A} (key : A -> datetime) (x y : A) :
  descending key x y = true \/ descending key y x = true.
Proof. unfold descending. lia. Qed.

Lemma descending_trans {A} (key : A -> datetime) (x y z : A) :
  descending key x y = true -> descending key y z = true -> descending key x z = true.
Proof. unfold descending. lia. Qed.

Lemma sort_ascending {A} (key : A -> datetime) (l : list A) :
  StronglySorted (fun x y => key x <= key y) (sort (ascending key) l).
Proof.
  assert (Hs := sort_StronglySorted (ascending key)
                  (ascending_total key) (ascending_trans key) l).
  induction Hs as [|x s Hl IH Hx]; constructor.
  - exact IH.
  - eapply Forall_impl; [|exact Hx]. unfold le_prop, ascending. intros y Hy. lia.
Qed.

Lemma sort_descending {A} (key : A -> datetime) (l : list A) :
  StronglySorted (fun x y => key x >= key y) (sort (descending key) l).
Proof.
  assert (Hs := sort_StronglySorted (descending key)
                  (descending_total key) (descending_trans key) l).
  induction Hs as [|x s Hl IH Hx]; constructor.
  - exact IH.
  - eapply Forall_impl; [|exact Hx]. unfold le_prop, descending. intros y Hy. lia.
Qed.

Lemma find_one_app {A} (filter : A -> bool) (l1 l2 : list A) :
  find_one filter (l1 ++ l2) =
  match find_one filter l1 with Some d => Some d | None => find_one filter l2 end.
Proof.
  unfold find_one. induction l1 as [|x l1 IH]; cbn [List.find app].
  - reflexivity.
  - now destruct (filter x).
Qed.

Lemma find_one_Some {A} (filter : A -> bool) (l : list A) (d : A) :
  find_one filter l = Some d -> In d l /\ filter d = true.
Proof. apply List.find_some. Qed.

Lemma find_one_None {A} (filter : A -> bool) (l : list A) :
  find_one filter l = None <-> (forall d, In d l -> filter d = false).
Proof.
  split.
  - apply List.find_none.
  - unfold find_one. induction l as [|x l IH]; cbn [List.find]; intros H.
    + reflexivity.
    + rewrite (H x (or_introl eq_refl)). apply IH. intros d Hd. apply H. now right.
Qed.

Lemma find_app {A} (filter : A -> bool) (l1 l2 : list A) :
  find filter (l1 ++ l2) = find filter l1 ++ find filter l2.
Proof. apply List.filter_app. Qed.

(** ** The handlers, case by case *)

Lemma get_user_by_id_eq (user_id : string) (db : Database) :
  get_user_by_id user_id db =
  match ObjectId user_id with
  | Some oid => (Ok (find_one (user_with_id oid) (coll_user db)), db)
  | None => (Raise InvalidId, db)
  end.
Proof.
  unfold get_user_by_id, to_ObjectId, bind.
  destruct (ObjectId user_id); reflexivity.
Qed.

(** The whole of [like] as one case analysis on what the store holds. *)
Lemma like_eq (payload : LikePayload) (user : User.t) (env : Env) (db : Database) :
  let a := str (User._id user) in
  let t := target_user_id payload in
  like payload user env db =
  match ObjectId t with
  | None => (Raise InvalidId, db)
  | Some oid =>
      match find_one (user_with_id oid) (coll_user db) with
      | None => (Raise (NotFound "User not found"), db)
      | Some _ =>
          let db1 := add_like (like_doc payload user env) db in
          match find_one (is_like t a) (coll_like db1) with
          | None => (Ok {| like_ok := true; like_match := false |}, db1)
          | Some _ =>
              match find_one (is_match_between a t) (coll_match db) with
              | Some _ => (Ok {| like_ok := true; like_match := false |}, db1)
              | None =>
                  (Ok {| like_ok := true; like_match := true |},
                   add_match (match_doc payload user env) db1)
              end
          end
      end
  end.
Proof.
  cbv zeta. unfold like. unfold bind at 1. rewrite get_user_by_id_eq.
  destruct (ObjectId (target_user_id payload)) as [oid|]; [|reflexivity].
  destruct (find_one (user_with_id oid) (coll_user db)); [|reflexivity].
  unfold bind, db_like_insert_one, db_like_find_one, db_match_find_one,
    db_match_insert_one, ret; cbn.
  destruct (find_one (is_like (target_user_id payload) (str (User._id user)))
              (insert_one (like_doc payload user env) (coll_like db))); [|reflexivity].
  cbn.
  destruct (find_one (is_match_between (str (User._id user)) (target_user_id payload))
              (coll_match db)); reflexivity.
Qed.

(** The guard the two message handlers share, as one case analysis. *)
Lemma send_message_eq (payload : MessagePayload.t) (user : User.t) (env : Env)
  (db : Database) :
  send_message payload user env db =
  match ObjectId (MessagePayload.match_id payload) with
  | None => (Raise InvalidId, db)
  | Some oid =>
      match find_one (match_with_id oid) (coll_match db) with
      | None => (Raise (NotFound "Match not found"), db)
      | Some m =>
          if is_participant (str (User._id user)) m
          then (Ok {| send_ok := true |}, add_message (msg payload user env) db)
          else (Raise (Forbidden "Not part of this match"), db)
      end
  end.
Proof.
  unfold send_message, to_ObjectId, bind.
  destruct (ObjectId (MessagePayload.match_id payload)) as [oid|]; [|reflexivity].
  unfold ret, db_match_find_one; cbn.
  destruct (find_one (match_with_id oid) (coll_match db)) as [m|]; [|reflexivity].
  destruct (is_participant (str (User._id user)) m); reflexivity.
Qed.

Lemma get_messages_eq (match_id : string) (user : User.t) (db : Database) :
  get_messages match_id user db =
  match ObjectId match_id with
  | None => (Raise InvalidId, db)
  | Some oid =>
      match find_one (match_with_id oid) (coll_match db) with
      | None => (Raise (NotFound "Match not found"), db)
      | Some m =>
          if is_participant (str (User._id user)) m
          then (Ok (List.map message_item
                      (sort (ascending Message.created_at)
                         (find (in_match match_id) (coll_message db)))), db)
          else (Raise (Forbidden "Not part of this match"), db)
      end
  end.
Proof.
  unfold get_messages, to_ObjectId, bind.
  destruct (ObjectId match_id) as [oid|]; [|reflexivity].
  unfold ret, db_match_find_one; cbn.
  destruct (find_one (match_with_id oid) (coll_match db)) as [m|]; [|reflexivity].
  destruct (is_participant (str (User._id user)) m); reflexivity.
Qed.

Lemma is_like_true (liker liked : string) (d : Like.t) :
  is_like liker liked d = true <-> Like.liker_id d = liker /\ Like.liked_id d = liked.
Proof. unfold is_like. now rewrite andb_true_iff, !String.eqb_eq. Qed.

Lemma is_match_between_true (x y : string) (m : Match.t) :
  is_match_between x y m = true <-> pairs x y m.
Proof.
  unfold is_match_between, pairs.
  now rewrite orb_true_iff, !andb_true_iff, !String.eqb_eq.
Qed.

Lemma likes_find_one (db : Database) (liker liked : string) :
  likes db liker liked <-> exists d, find_one (is_like liker liked) (coll_like db) = Some d.
Proof.
  split.
  - intros (d & Hin & Hd).
    destruct (find_one (is_like liker liked) (coll_like db)) as [d'|] eqn:E; [eauto|].
    rewrite find_one_None in E. specialize (E d Hin).
    apply is_like_true in Hd. congruence.
  - intros (d & Hd). apply find_one_Some in Hd as [Hin Hd].
    exists d. split; [exact Hin|]. now apply is_like_true.
Qed.

Lemma not_likes_find_one (db : Database) (liker liked : string) :
  ~ likes db liker liked <-> find_one (is_like liker liked) (coll_like db) = None.
Proof.
  rewrite likes_find_one.
  destruct (find_one (is_like liker liked) (coll_like db)) as [d|].
  - split; [intros H; exfalso; eauto|discriminate].
  - split; [reflexivity|intros _ [d H]; discriminate].
Qed.

Lemma matched_find_one (db : Database) (x y : string) :
  matched db x y <-> exists m, find_one (is_match_between x y) (coll_match db) = Some m.
Proof.
  split.
  - intros (m & Hin & Hm).
    destruct (find_one (is_match_between x y) (coll_match db)) as [m'|] eqn:E; [eauto|].
    rewrite find_one_None in E. specialize (E m Hin).
    apply is_match_between_true in Hm. congruence.
  - intros (m & Hm). apply find_one_Some in Hm as [Hin Hm].
    exists m. split; [exact Hin|]. now apply is_match_between_true.
Qed.

Lemma resolves_user_inv (db : Database) (user_id : string) (target : User.t) :
  resolves_user db user_id target ->
  ObjectId user_id = Some (User._id target) /\
  find_one (user_with_id (User._id target)) (coll_user db) = Some target.
Proof.
  unfold resolves_user. rewrite get_user_by_id_eq.
  destruct (ObjectId user_id) as [oid|]; [|discriminate].
  intros [= H]. pose proof (find_one_Some _ _ _ H) as [_ Hid].
  apply oid_eqb_eq in Hid. subst oid. now split.
Qed.

(** ** The like handler *)

(** A like of somebody else's identifier is not its own reverse like. *)
Lemma target_differs (db : Database) (payload : LikePayload) (user target : User.t) :
  resolves_user db (target_user_id payload) target ->
  User._id target <> User._id user ->
  target_user_id payload <> str (User._id user).
Proof.
  intros Ht Hne Heq. apply resolves_user_inv in Ht as [Hoid _].
  rewrite Heq, ObjectId_str in Hoid. congruence.
Qed.

(** C5. For distinct existing users A and B with no like from B to A in
    the ledger, [like] as A on B answers [match: false] and leaves the
    Match collection as it was, so that no Match of the pair is created;
    the like is recorded all the same: the ledger gains one record, with A
    as liker, B as liked and the reading of the clock, and holds a like
    from A to B afterwards. *)
Theorem like_without_reverse_like
  (db : Database) (payload : LikePayload) (user target : User.t) (env : Env) :
  resolves_user db (target_user_id payload) target ->
  User._id target <> User._id user ->
  ~ likes db (target_user_id payload) (str (User._id user)) ->
  exists db',
    like payload user env db = (Ok {| like_ok := true; like_match := false |}, db') /\
    coll_match db' = coll_match db /\
    coll_like db' =
      coll_like db ++
      [ {| Like._id := new_id env 0;
           Like.liker_id := str (User._id user);
           Like.liked_id := target_user_id payload;
           Like.created_at := utcnow env 0 |} ] /\
    likes db' (str (User._id user)) (target_user_id payload).
Proof.
  intros Ht Hne Hno.
  pose proof (target_differs _ _ _ _ Ht Hne) as Hdiff.
  apply resolves_user_inv in Ht as [Hoid Hfind].
  apply not_likes_find_one in Hno.
  exists (add_like (like_doc payload user env) db).
  pose proof (like_eq payload user env db) as E. cbv zeta in E.
  rewrite Hoid, Hfind in E.
  assert (Hnone : find_one (is_like (target_user_id payload) (str (User._id user)))
                    (coll_like (add_like (like_doc payload user env) db)) = None).
  { cbn [add_like coll_like]. unfold insert_one. rewrite find_one_app, Hno.
    unfold find_one, like_doc, is_like; cbn.
    destruct (String.eqb_spec (str (User._id user)) (target_user_id payload)) as [H|H].
    - now rewrite H in Hdiff.
    - reflexivity. }
  rewrite Hnone in E. rewrite E.
  split; [reflexivity|]. split; [reflexivity|]. split; [reflexivity|].
  exists (like_doc payload user env). split; [|now split].
  cbn. unfold insert_one. apply in_or_app. right. now left.
Qed.

(** [like_without_reverse_like] at Alice liking Bob for the first time. *)
Lemma like_without_reverse_like_witness :
  exists db',
    like {| target_user_id := Scenario.bob_id |} Scenario.alice (Scenario.env 1)
      Scenario.users_only
    = (Ok {| like_ok := true; like_match := false |}, db') /\
    coll_match db' = [] /\
    coll_like db' =
      [ {| Like._id := Scenario.oid Byte.x10;
           Like.liker_id := Scenario.alice_id;
           Like.liked_id := Scenario.bob_id;
           Like.created_at := 10 |} ] /\
    likes db' Scenario.alice_id Scenario.bob_id.
Proof.
  apply (like_without_reverse_like Scenario.users_only
           {| target_user_id := Scenario.bob_id |} Scenario.alice Scenario.bob
           (Scenario.env 1)).
  - reflexivity.
  - intros H. discriminate H.
  - intros (d & Hin & _). exact Hin.
Defined.

(** C1, as amended.  For existing users A and B such that the store holds
    a Match of [{A, B}] and a like from B to A, [like] as A on B appends
    A's like, creates no Match record and answers [ok: true] with
    [match: false]: the flag reports only a Match created by this very
    call. *)
Theorem like_existing_match
  (db : Database) (payload : LikePayload) (user target : User.t) (env : Env) :
  resolves_user db (target_user_id payload) target ->
  User._id target <> User._id user ->
  matched db (str (User._id user)) (target_user_id payload) ->
  likes db (target_user_id payload) (str (User._id user)) ->
  exists db',
    like payload user env db = (Ok {| like_ok := true; like_match := false |}, db') /\
    coll_match db' = coll_match db /\
    coll_like db' =
      coll_like db ++
      [ {| Like._id := new_id env 0;
           Like.liker_id := str (User._id user);
           Like.liked_id := target_user_id payload;
           Like.created_at := utcnow env 0 |} ].
Proof.
  intros Ht _ Hm Hl.
  apply resolves_user_inv in Ht as [Hoid Hfind].
  apply matched_find_one in Hm as [m Hm].
  exists (add_like (like_doc payload user env) db).
  pose proof (like_eq payload user env db) as E. cbv zeta in E.
  rewrite Hoid, Hfind, Hm in E. rewrite E.
  destruct (find_one _ (coll_like (add_like (like_doc payload user env) db)));
    repeat split.
Qed.

(** [like_existing_match] at Alice liking Bob again once they are matched. *)
Lemma like_existing_match_witness :
  exists db',
    like {| target_user_id := Scenario.bob_id |} Scenario.alice (Scenario.env 3)
      Scenario.matched_db
    = (Ok {| like_ok := true; like_match := false |}, db') /\
    coll_match db' = coll_match Scenario.matched_db /\
    coll_like db' =
      coll_like Scenario.matched_db ++
      [ {| Like._id := Scenario.oid Byte.x30;
           Like.liker_id := Scenario.alice_id;
           Like.liked_id := Scenario.bob_id;
           Like.created_at := 30 |} ].
Proof.
  apply (like_existing_match Scenario.matched_db
           {| target_user_id := Scenario.bob_id |} Scenario.alice Scenario.bob
           (Scenario.env 3)).
  - reflexivity.
  - intros H. discriminate H.
  - eexists. split; [left; reflexivity|]. right. split; reflexivity.
  - eexists. split; [right; left; reflexivity|]. split; reflexivity.
Defined.

(** C1 as first stated does not hold: Alice and Bob are matched, Bob's like
    of Alice is in the ledger, and [like] as Alice on Bob answers
    [match: false], with no Match in the response. *)
Lemma like_existing_match_reports_false :
  resolves_user Scenario.matched_db Scenario.bob_id Scenario.bob /\
  User._id Scenario.bob <> User._id Scenario.alice /\
  matched Scenario.matched_db (str (User._id Scenario.alice)) Scenario.bob_id /\
  likes Scenario.matched_db Scenario.bob_id (str (User._id Scenario.alice)) /\
  fst (like {| target_user_id := Scenario.bob_id |} Scenario.alice
         (Scenario.env 3) Scenario.matched_db)
  = Ok {| like_ok := true; like_match := false |}.
Proof.
  split; [reflexivity|]. split; [intros H; discriminate H|].
  split; [eexists; split; [left; reflexivity|]; right; split; reflexivity|].
  split; [eexists; split; [right; left; reflexivity|]; split; reflexivity|].
  reflexivity.
Qed.

(** A like of one's own identifier is found again by the reverse-direction
    lookup, so that, unless the store already holds a Match of [{A, A}],
    [like] matches the user with themself. *)
Lemma like_self (db : Database) (payload : LikePayload) (user : User.t) (env : Env) :
  target_user_id payload = str (User._id user) ->
  find_one (user_with_id (User._id user)) (coll_user db) <> None ->
  ~ matched db (str (User._id user)) (str (User._id user)) ->
  like payload user env db =
  (Ok {| like_ok := true; like_match := true |},
   add_match (match_doc payload user env) (add_like (like_doc payload user env) db)).
Proof.
  intros Hself Hstored Hnot.
  pose proof (like_eq payload user env db) as E. cbv zeta in E.
  rewrite Hself, ObjectId_str in E.
  destruct (find_one (user_with_id (User._id user)) (coll_user db)); [|congruence].
  assert (Hmut : exists d, find_one (is_like (str (User._id user)) (str (User._id user)))
                   (coll_like (add_like (like_doc payload user env) db)) = Some d).
  { apply likes_find_one. exists (like_doc payload user env). split.
    - cbn [add_like coll_like]. unfold insert_one. apply in_or_app. right. now left.
    - split; [reflexivity|exact Hself]. }
  destruct Hmut as [d Hmut]. rewrite Hmut in E.
  destruct (find_one (is_match_between (str (User._id user)) (str (User._id user)))
              (coll_match db)) as [m|] eqn:Em.
  - exfalso. apply Hnot. apply matched_find_one. eauto.
  - exact E.
Qed.

(** C2 (the handler departs from it).  Alice, alone with her own identifier
    as the target: [like] raises nothing, stores the like of Alice by Alice,
    takes it for the reverse like and stores a Match of Alice with Alice. *)
Theorem self_like_creates_self_match :
  like {| target_user_id := Scenario.alice_id |} Scenario.alice (Scenario.env 1)
    Scenario.users_only
  = (Ok {| like_ok := true; like_match := true |},
     {| coll_user := [Scenario.alice; Scenario.bob; Scenario.carol];
        coll_like := [ {| Like._id := Scenario.oid Byte.x10;
                          Like.liker_id := Scenario.alice_id;
                          Like.liked_id := Scenario.alice_id;
                          Like.created_at := 10 |} ];
        coll_match := [ {| Match._id := Scenario.oid Byte.x11;
                           Match.user_a := Scenario.alice_id;
                           Match.user_b := Scenario.alice_id;
                           Match.created_at := 11 |} ];
        coll_message := [] |}).
Proof. reflexivity. Qed.

(** The discovery feed, for its part, never offers the user to themself. *)
Lemma discover_excludes_self (user : User.t) (db : Database) :
  exists items,
    discover user db = (Ok items, db) /\
    Forall (fun p => pub_id p <> str (User._id user)) items.
Proof.
  unfold discover, bind, db_user_find, ret.
  eexists. split; [reflexivity|].
  apply Forall_forall. intros p Hp.
  apply in_map_iff in Hp as (d & <- & Hd).
  apply filter_In in Hd as [_ Hd].
  apply negb_true_iff, String.eqb_neq in Hd. exact Hd.
Qed.

(** Whatever the request, [like] does not fail with [InvalidInput]: what
    it raises is [NotFound], or [InvalidId] on a target that is not an
    identifier. *)
Lemma like_never_invalid_input (payload : LikePayload) (user : User.t) (env : Env)
  (db : Database) (e : Exception) :
  fst (like payload user env db) = Raise e -> is_InvalidInput e = false.
Proof.
  pose proof (like_eq payload user env db) as E. cbv zeta in E. rewrite E. clear E.
  destruct (ObjectId (target_user_id payload)) as [oid|]; [|now intros [= <-]].
  destruct (find_one (user_with_id oid) (coll_user db)); [|now intros [= <-]].
  destruct (find_one _ (coll_like _)); [|discriminate].
  destruct (find_one _ (coll_match db)); discriminate.
Qed.

(** ** The conversation guard and the message log *)

Lemma is_participant_true (uid : string) (m : Match.t) :
  is_participant uid m = true <-> participant uid m.
Proof. unfold is_participant, participant. now rewrite orb_true_iff, !String.eqb_eq. Qed.

Lemma is_participant_false (uid : string) (m : Match.t) :
  is_participant uid m = false <-> ~ participant uid m.
Proof.
  rewrite <- is_participant_true. destruct (is_participant uid m); split; congruence.
Qed.

(** A string that is not an identifier stops both handlers before any
    lookup, with [InvalidId]. *)
Lemma malformed_match_id (db : Database) (payload : MessagePayload.t) (user : User.t)
  (env : Env) :
  ObjectId (MessagePayload.match_id payload) = None ->
  send_message payload user env db = (Raise InvalidId, db) /\
  get_messages (MessagePayload.match_id payload) user db = (Raise InvalidId, db).
Proof.
  intros H. rewrite send_message_eq, get_messages_eq, H. now split.
Qed.

(** C4. For a match identifier [match_id] and an acting user: when no
    stored Match carries the identifier, [send_message] and [get_messages]
    fail with [NotFound] (404); when it resolves to a Match of which the
    user is neither [user_a] nor [user_b], both fail with [Forbidden] (403).
    In either case the database is left as it was, so no message is stored,
    and the outcome is the exception alone, so no message is returned. *)
Theorem conversation_guard
  (db : Database) (payload : MessagePayload.t) (user : User.t) (env : Env) :
  (unknown_match db (MessagePayload.match_id payload) ->
   send_message payload user env db = (Raise (NotFound "Match not found"), db) /\
   get_messages (MessagePayload.match_id payload) user db
   = (Raise (NotFound "Match not found"), db))
  /\
  (forall m,
     resolves_match db (MessagePayload.match_id payload) m ->
     ~ participant (str (User._id user)) m ->
     send_message payload user env db = (Raise (Forbidden "Not part of this match"), db) /\
     get_messages (MessagePayload.match_id payload) user db
     = (Raise (Forbidden "Not part of this match"), db)).
Proof.
  split.
  - intros (oid & Hoid & Hnone).
    rewrite send_message_eq, get_messages_eq, Hoid, Hnone. now split.
  - intros m (oid & Hoid & Hm) Hnot.
    apply is_participant_false in Hnot.
    rewrite send_message_eq, get_messages_eq, Hoid, Hm, Hnot. now split.
Qed.

(** [conversation_guard] at an identifier that no Match carries, and at
    Carol addressing the conversation of Alice and Bob. *)
Lemma conversation_guard_witness :
  let unknown := {| MessagePayload.match_id := Scenario.carol_id;
                    MessagePayload.text := "hi" |} in
  let theirs := {| MessagePayload.match_id := Scenario.match_ab_id;
                   MessagePayload.text := "hi" |} in
  (send_message unknown Scenario.alice (Scenario.env 3) Scenario.matched_db
   = (Raise (NotFound "Match not found"), Scenario.matched_db) /\
   get_messages Scenario.carol_id Scenario.alice Scenario.matched_db
   = (Raise (NotFound "Match not found"), Scenario.matched_db))
  /\
  (send_message theirs Scenario.carol (Scenario.env 3) Scenario.matched_db
   = (Raise (Forbidden "Not part of this match"), Scenario.matched_db) /\
   get_messages Scenario.match_ab_id Scenario.carol Scenario.matched_db
   = (Raise (Forbidden "Not part of this match"), Scenario.matched_db)).
Proof.
  intros unknown theirs. split.
  - apply (proj1 (conversation_guard Scenario.matched_db unknown Scenario.alice
                    (Scenario.env 3))).
    eexists. split; reflexivity.
  - apply (proj2 (conversation_guard Scenario.matched_db theirs Scenario.carol
                    (Scenario.env 3))
             {| Match._id := Scenario.oid Byte.x21;
                Match.user_a := Scenario.bob_id;
                Match.user_b := Scenario.alice_id;
                Match.created_at := 21 |}).
    + eexists. split; reflexivity.
    + intros [H|H]; discriminate H.
Defined.

(** C6, as amended.  For every stored Match and participant sender,
    [send_message] answers [ok: true] and appends one Message record that
    carries the text of the payload, empty or not, the sender, the match
    identifier as given and the current reading of the clock; the text is
    never a reason to fail. *)
Theorem send_message_stores_any_text
  (db : Database) (payload : MessagePayload.t) (user : User.t) (env : Env) (m : Match.t) :
  resolves_match db (MessagePayload.match_id payload) m ->
  participant (str (User._id user)) m ->
  exists db',
    send_message payload user env db = (Ok {| send_ok := true |}, db') /\
    coll_message db' =
      coll_message db ++
      [ {| Message._id := new_id env 0;
           Message.match_id := MessagePayload.match_id payload;
           Message.sender_id := str (User._id user);
           Message.text := MessagePayload.text payload;
           Message.created_at := utcnow env 0 |} ] /\
    coll_user db' = coll_user db /\
    coll_like db' = coll_like db /\
    coll_match db' = coll_match db.
Proof.
  intros (oid & Hoid & Hm) Hp. apply is_participant_true in Hp.
  exists (add_message (msg payload user env) db).
  rewrite send_message_eq, Hoid, Hm, Hp. repeat split.
Qed.

(** [send_message_stores_any_text] at Alice writing "hi" to Bob. *)
Lemma send_message_stores_any_text_witness :
  exists db',
    send_message {| MessagePayload.match_id := Scenario.match_ab_id;
                    MessagePayload.text := "hi" |}
      Scenario.alice (Scenario.env 3) Scenario.matched_db
    = (Ok {| send_ok := true |}, db') /\
    coll_message db' =
      coll_message Scenario.matched_db ++
      [ {| Message._id := Scenario.oid Byte.x30;
           Message.match_id := Scenario.match_ab_id;
           Message.sender_id := Scenario.alice_id;
           Message.text := "hi";
           Message.created_at := 30 |} ] /\
    coll_user db' = coll_user Scenario.matched_db /\
    coll_like db' = coll_like Scenario.matched_db /\
    coll_match db' = coll_match Scenario.matched_db.
Proof.
  apply (send_message_stores_any_text Scenario.matched_db
           {| MessagePayload.match_id := Scenario.match_ab_id;
              MessagePayload.text := "hi" |}
           Scenario.alice (Scenario.env 3)
           {| Match._id := Scenario.oid Byte.x21;
              Match.user_a := Scenario.bob_id;
              Match.user_b := Scenario.alice_id;
              Match.created_at := 21 |}).
  - eexists. split; reflexivity.
  - right. reflexivity.
Defined.

(** C6 as first stated does not hold: Alice, a participant, posts the
    empty text; the handler answers [ok: true] and the empty message is in
    the log. *)
Lemma send_message_accepts_empty_text :
  send_message {| MessagePayload.match_id := Scenario.match_ab_id;
                  MessagePayload.text := "" |}
    Scenario.alice (Scenario.env 3) Scenario.matched_db
  = (Ok {| send_ok := true |},
     {| coll_user := coll_user Scenario.matched_db;
        coll_like := coll_like Scenario.matched_db;
        coll_match := coll_match Scenario.matched_db;
        coll_message :=
          [ {| Message._id := Scenario.oid Byte.x30;
               Message.match_id := Scenario.match_ab_id;
               Message.sender_id := Scenario.alice_id;
               Message.text := "";
               Message.created_at := 30 |} ] |}).
Proof. reflexivity. Qed.

(** Whatever the request, [send_message] does not fail with
    [InvalidInput]. *)
Lemma send_message_never_invalid_input (payload : MessagePayload.t) (user : User.t)
  (env : Env) (db : Database) (e : Exception) :
  fst (send_message payload user env db) = Raise e -> is_InvalidInput e = false.
Proof.
  rewrite send_message_eq.
  destruct (ObjectId (MessagePayload.match_id payload)) as [oid|]; [|now intros [= <-]].
  destruct (find_one (match_with_id oid) (coll_match db)) as [m|]; [|now intros [= <-]].
  destruct (is_participant (str (User._id user)) m); [discriminate|now intros [= <-]].
Qed.

(** What a participant gets from [get_messages]. *)
Lemma get_messages_participant (db : Database) (match_id : string) (user : User.t)
  (m : Match.t) :
  resolves_match db match_id m ->
  participant (str (User._id user)) m ->
  get_messages match_id user db =
  (Ok (List.map message_item
         (sort (ascending Message.created_at) (find (in_match match_id) (coll_message db)))),
   db).
Proof.
  intros (oid & Hoid & Hm) Hp. apply is_participant_true in Hp.
  now rewrite get_messages_eq, Hoid, Hm, Hp.
Qed.

Lemma in_match_true (match_id : string) (d : Message.t) :
  in_match match_id d = true <-> Message.match_id d = match_id.
Proof. unfold in_match. apply String.eqb_eq. Qed.

Lemma StronglySorted_app_inv {A} (R : A -> A -> Prop) (l1 l2 : list A) :
  StronglySorted R (l1 ++ l2) ->
  StronglySorted R l1 /\ StronglySorted R l2 /\
  (forall x y, In x l1 -> In y l2 -> R x y).
Proof.
  induction l1 as [|a l1 IH]; cbn [app]; intros H.
  - split; [constructor|]. split; [exact H|]. intros x y [].
  - inversion H as [|a' l' Hs Ha]; subst.
    destruct (IH Hs) as (H1 & H2 & H12). rewrite Forall_app in Ha. destruct Ha as [Ha1 Ha2].
    split; [now constructor|]. split; [exact H2|].
    intros x y [<-|Hx] Hy.
    + rewrite Forall_forall in Ha2. now apply Ha2.
    + now apply H12.
Qed.

(** A document stamped later than all the others comes last in every
    sorted rearrangement, whatever the rearrangement does with documents
    that bear equal stamps. *)
Lemma sorted_rearrangement_last {A} (key : A -> datetime) (l l' : list A) (x : A) :
  (forall y, In y l -> key y < key x) ->
  Permutation l' (l ++ [x]) ->
  StronglySorted (fun a b => key a <= key b) l' ->
  exists l'', l' = l'' ++ [x] /\ Permutation l'' l /\
              StronglySorted (fun a b => key a <= key b) l''.
Proof.
  intros Hlt Hperm Hs.
  assert (Hin : In x l').
  { apply (Permutation_in _ (Permutation_sym Hperm)). apply in_or_app. right. now left. }
  apply in_split in Hin as (l1 & l2 & ->).
  assert (Hrest : Permutation l (l1 ++ l2)).
  { apply Permutation_cons_app_inv with x.
    apply perm_trans with (l ++ [x]); [apply Permutation_cons_append|].
    now apply Permutation_sym. }
  destruct (StronglySorted_app_inv _ _ _ Hs) as (Hs1 & Hs2 & _).
  destruct l2 as [|z l2].
  - exists l1. split; [reflexivity|]. rewrite app_nil_r in Hrest.
    split; [now apply Permutation_sym|exact Hs1].
  - exfalso.
    assert (Hz : In z l).
    { apply (Permutation_in _ (Permutation_sym Hrest)). apply in_or_app. right. now left. }
    apply Hlt in Hz.
    inversion Hs2 as [|x' l' _ Hx]; subst. inversion Hx as [|z' l'' Hxz _]; subst.
    lia.
Qed.

(** Three documents stamped one later than the other, and all later than
    the documents of [old], close every sorted rearrangement, in the order
    of their stamps. *)
Lemma sorted_rearrangement_last_three {A} (key : A -> datetime) (old l' : list A)
  (x1 x2 x3 : A) :
  (forall y, In y old -> key y < key x1) ->
  key x1 < key x2 -> key x2 < key x3 ->
  Permutation l' (((old ++ [x1]) ++ [x2]) ++ [x3]) ->
  StronglySorted (fun a b => key a <= key b) l' ->
  exists before, l' = before ++ [x1; x2; x3] /\ Permutation before old /\
                 StronglySorted (fun a b => key a <= key b) before.
Proof.
  intros Hold H12 H23 Hperm Hs.
  destruct (sorted_rearrangement_last key ((old ++ [x1]) ++ [x2]) l' x3)
    as (l2 & -> & Hp2 & Hs2); [|exact Hperm|exact Hs|].
  { intros y Hy. apply in_app_or in Hy as [Hy|[<-|[]]]; [|lia].
    apply in_app_or in Hy as [Hy|[<-|[]]]; [|lia]. specialize (Hold y Hy). lia. }
  destruct (sorted_rearrangement_last key (old ++ [x1]) l2 x2)
    as (l1 & -> & Hp1 & Hs1); [|exact Hp2|exact Hs2|].
  { intros y Hy. apply in_app_or in Hy as [Hy|[<-|[]]]; [|lia].
    specialize (Hold y Hy). lia. }
  destruct (sorted_rearrangement_last key old l1 x1)
    as (l0 & -> & Hp0 & Hs0); [exact Hold|exact Hp1|exact Hs1|].
  exists l0. split; [now rewrite <- !app_assoc|]. now split.
Qed.

(** The listing: for a stored Match and a participant caller,
    [get_messages] returns the Message records whose [match_id] is the
    identifier asked for, each of them once and no other, in ascending
    order of [created_at]; an item shows the identifier, the sender, the
    text and the stamp of its record. *)
Lemma get_messages_listing (db : Database) (match_id : string) (user : User.t)
  (m : Match.t) :
  resolves_match db match_id m ->
  participant (str (User._id user)) m ->
  exists docs,
    get_messages match_id user db =
    (Ok (List.map (fun d => {| msg_id := str (Message._id d);
                               msg_sender_id := Message.sender_id d;
                               msg_text := Message.text d;
                               msg_created_at := Message.created_at d |}) docs), db) /\
    Permutation docs
      (List.filter (fun d => String.eqb (Message.match_id d) match_id) (coll_message db)) /\
    (forall d, In d docs <-> In d (coll_message db) /\ Message.match_id d = match_id) /\
    StronglySorted (fun x y => Message.created_at x <= Message.created_at y) docs.
Proof.
  intros Hm Hp.
  exists (sort (ascending Message.created_at) (find (in_match match_id) (coll_message db))).
  split; [now apply get_messages_participant with m|].
  assert (Hperm := sort_Permutation (ascending Message.created_at)
                     (find (in_match match_id) (coll_message db))).
  split; [exact Hperm|]. split.
  - intros d. split.
    + intros Hd. apply (Permutation_in _ Hperm) in Hd.
      apply filter_In in Hd as [Hin Hd]. now apply in_match_true in Hd.
    + intros [Hin Hd]. apply (Permutation_in _ (Permutation_sym Hperm)).
      apply filter_In. split; [exact Hin|]. now apply in_match_true.
  - apply sort_ascending.
Qed.

(** The order of appends: three messages posted to a match one after
    the other, each at a later reading of the clock than the one before
    and than every message the match already has, are listed after those,
    in the order they were posted. *)
Lemma three_messages_in_order
  (db : Database) (match_id : string) (m : Match.t)
  (u1 u2 u3 reader : User.t) (t1 t2 t3 : string) (e1 e2 e3 : Env) :
  let p1 := {| MessagePayload.match_id := match_id; MessagePayload.text := t1 |} in
  let p2 := {| MessagePayload.match_id := match_id; MessagePayload.text := t2 |} in
  let p3 := {| MessagePayload.match_id := match_id; MessagePayload.text := t3 |} in
  let stored := fun (u : User.t) (t : string) (e : Env) =>
    {| Message._id := new_id e 0;
       Message.match_id := match_id;
       Message.sender_id := str (User._id u);
       Message.text := t;
       Message.created_at := utcnow e 0 |} in
  let shown := fun (d : Message.t) =>
    {| msg_id := str (Message._id d);
       msg_sender_id := Message.sender_id d;
       msg_text := Message.text d;
       msg_created_at := Message.created_at d |} in
  let of_match := fun (d : Message.t) => String.eqb (Message.match_id d) match_id in
  resolves_match db match_id m ->
  participant (str (User._id u1)) m ->
  participant (str (User._id u2)) m ->
  participant (str (User._id u3)) m ->
  participant (str (User._id reader)) m ->
  Forall (fun d => Message.match_id d = match_id -> Message.created_at d < utcnow e1 0)
    (coll_message db) ->
  utcnow e1 0 < utcnow e2 0 ->
  utcnow e2 0 < utcnow e3 0 ->
  exists db1 db2 db3 before,
    send_message p1 u1 e1 db = (Ok {| send_ok := true |}, db1) /\
    send_message p2 u2 e2 db1 = (Ok {| send_ok := true |}, db2) /\
    send_message p3 u3 e3 db2 = (Ok {| send_ok := true |}, db3) /\
    Permutation before (List.filter of_match (coll_message db)) /\
    get_messages match_id reader db3 =
    (Ok (List.map shown before ++
         [ {| msg_id := str (new_id e1 0); msg_sender_id := str (User._id u1);
              msg_text := t1; msg_created_at := utcnow e1 0 |};
           {| msg_id := str (new_id e2 0); msg_sender_id := str (User._id u2);
              msg_text := t2; msg_created_at := utcnow e2 0 |};
           {| msg_id := str (new_id e3 0); msg_sender_id := str (User._id u3);
              msg_text := t3; msg_created_at := utcnow e3 0 |} ]), db3) /\
    (forall listing,
       Permutation listing (List.filter of_match (coll_message db3)) ->
       StronglySorted (fun x y => Message.created_at x <= Message.created_at y) listing ->
       exists earlier,
         listing = earlier ++ [stored u1 t1 e1; stored u2 t2 e2; stored u3 t3 e3] /\
         Permutation earlier (List.filter of_match (coll_message db))).
Proof.
  intros p1 p2 p3 stored shown of_match Hm H1 H2 H3 Hr Hold H12 H23.
  set (db1 := add_message (msg p1 u1 e1) db).
  set (db2 := add_message (msg p2 u2 e2) db1).
  set (db3 := add_message (msg p3 u3 e3) db2).
  assert (Hsend : forall p u e d, MessagePayload.match_id p = match_id ->
            resolves_match d match_id m -> participant (str (User._id u)) m ->
            send_message p u e d = (Ok {| send_ok := true |}, add_message (msg p u e) d)).
  { intros p u e d Hp (oid & Hoid & Hf) Hu. apply is_participant_true in Hu.
    now rewrite send_message_eq, Hp, Hoid, Hf, Hu. }
  set (old := List.filter of_match (coll_message db)).
  assert (Hnew : List.filter of_match (coll_message db3)
                 = ((old ++ [stored u1 t1 e1]) ++ [stored u2 t2 e2]) ++ [stored u3 t3 e3]).
  { cbn [db3 db2 db1 add_message coll_message]. unfold insert_one.
    rewrite !filter_app. unfold old. cbn [List.filter].
    unfold of_match, msg, p1, p2, p3; cbn. now rewrite String.eqb_refl. }
  assert (Hlow : forall y, In y old -> Message.created_at y < utcnow e1 0).
  { intros y Hy. apply filter_In in Hy as [Hin Hy]. apply String.eqb_eq in Hy.
    rewrite Forall_forall in Hold. now apply Hold. }
  assert (Hlast : forall listing,
            Permutation listing (List.filter of_match (coll_message db3)) ->
            StronglySorted (fun x y => Message.created_at x <= Message.created_at y)
              listing ->
            exists earlier,
              listing = earlier ++ [stored u1 t1 e1; stored u2 t2 e2; stored u3 t3 e3] /\
              Permutation earlier old).
  { intros listing Hperm Hs. rewrite Hnew in Hperm.
    destruct (sorted_rearrangement_last_three Message.created_at old listing
                (stored u1 t1 e1) (stored u2 t2 e2) (stored u3 t3 e3))
      as (earlier & Hl & Hp & _); try assumption.
    now exists earlier. }
  destruct (Hlast (sort (ascending Message.created_at)
                     (find (in_match match_id) (coll_message db3))))
    as (before & Hbefore & Hpb).
  { apply sort_Permutation. }
  { apply sort_ascending. }
  exists db1, db2, db3, before.
  split; [now apply Hsend|]. split; [now apply Hsend|]. split; [now apply Hsend|].
  split; [exact Hpb|]. split; [|exact Hlast].
  rewrite (get_messages_participant db3 match_id reader m Hm Hr), Hbefore.
  rewrite map_app. reflexivity.
Qed.

(** C7, as amended.  For every stored Match and participant caller,
    [get_messages] returns exactly the Message records whose [match_id] is
    the one asked for (a record of another match never appears), each
    shown with its identifier, sender, text and stamp, sorted by
    [created_at] ascending.  The order is that of the stamps, not of
    arrival: three messages appended in the order m1, m2, m3 come back in
    that order, after the messages the match already had, when each is
    stamped later than the one before and than every earlier message of
    the match (the stamps as the store keeps them); and then they close
    every listing that is sorted by stamp, whatever it does with records
    that bear equal stamps. *)
Theorem message_log_listing
  (db : Database) (match_id : string) (m : Match.t) (reader : User.t) :
  resolves_match db match_id m ->
  participant (str (User._id reader)) m ->
  (exists docs,
     get_messages match_id reader db =
     (Ok (List.map (fun d => {| msg_id := str (Message._id d);
                                msg_sender_id := Message.sender_id d;
                                msg_text := Message.text d;
                                msg_created_at := Message.created_at d |}) docs), db) /\
     Permutation docs
       (List.filter (fun d => String.eqb (Message.match_id d) match_id) (coll_message db)) /\
     (forall d, In d docs <-> In d (coll_message db) /\ Message.match_id d = match_id) /\
     StronglySorted (fun x y => Message.created_at x <= Message.created_at y) docs)
  /\
  (forall (u1 u2 u3 : User.t) (t1 t2 t3 : string) (e1 e2 e3 : Env),
     let p1 := {| MessagePayload.match_id := match_id; MessagePayload.text := t1 |} in
     let p2 := {| MessagePayload.match_id := match_id; MessagePayload.text := t2 |} in
     let p3 := {| MessagePayload.match_id := match_id; MessagePayload.text := t3 |} in
     let stored := fun (u : User.t) (t : string) (e : Env) =>
       {| Message._id := new_id e 0;
          Message.match_id := match_id;
          Message.sender_id := str (User._id u);
          Message.text := t;
          Message.created_at := utcnow e 0 |} in
     let shown := fun (d : Message.t) =>
       {| msg_id := str (Message._id d);
          msg_sender_id := Message.sender_id d;
          msg_text := Message.text d;
          msg_created_at := Message.created_at d |} in
     let of_match := fun (d : Message.t) => String.eqb (Message.match_id d) match_id in
     participant (str (User._id u1)) m ->
     participant (str (User._id u2)) m ->
     participant (str (User._id u3)) m ->
     Forall (fun d => Message.match_id d = match_id -> Message.created_at d < utcnow e1 0)
       (coll_message db) ->
     utcnow e1 0 < utcnow e2 0 ->
     utcnow e2 0 < utcnow e3 0 ->
     exists db1 db2 db3 before,
       send_message p1 u1 e1 db = (Ok {| send_ok := true |}, db1) /\
       send_message p2 u2 e2 db1 = (Ok {| send_ok := true |}, db2) /\
       send_message p3 u3 e3 db2 = (Ok {| send_ok := true |}, db3) /\
       Permutation before (List.filter of_match (coll_message db)) /\
       get_messages match_id reader db3 =
       (Ok (List.map shown before ++
            [ {| msg_id := str (new_id e1 0); msg_sender_id := str (User._id u1);
                 msg_text := t1; msg_created_at := utcnow e1 0 |};
              {| msg_id := str (new_id e2 0); msg_sender_id := str (User._id u2);
                 msg_text := t2; msg_created_at := utcnow e2 0 |};
              {| msg_id := str (new_id e3 0); msg_sender_id := str (User._id u3);
                 msg_text := t3; msg_created_at := utcnow e3 0 |} ]), db3) /\
       (forall listing,
          Permutation listing (List.filter of_match (coll_message db3)) ->
          StronglySorted (fun x y => Message.created_at x <= Message.created_at y)
            listing ->
          exists earlier,
            listing = earlier ++ [stored u1 t1 e1; stored u2 t2 e2; stored u3 t3 e3] /\
            Permutation earlier (List.filter of_match (coll_message db)))).
Proof.
  intros Hm Hr. split.
  - now apply get_messages_listing with m.
  - intros u1 u2 u3 t1 t2 t3 e1 e2 e3 p1 p2 p3 stored shown of_match H1 H2 H3 Hold H12 H23.
    now apply (three_messages_in_order db match_id m u1 u2 u3 reader t1 t2 t3 e1 e2 e3).
Qed.

(** [message_log_listing] at the conversation of Alice and Bob: Alice
    writes "m1" at 30, Bob "m2" at 40, Alice "m3" at 50, and Bob reads
    them back in that order. *)
Lemma message_log_listing_witness :
  let mid := Scenario.match_ab_id in
  let p1 := {| MessagePayload.match_id := mid; MessagePayload.text := "m1" |} in
  let p2 := {| MessagePayload.match_id := mid; MessagePayload.text := "m2" |} in
  let p3 := {| MessagePayload.match_id := mid; MessagePayload.text := "m3" |} in
  let stored := fun (u : User.t) (t : string) (e : Env) =>
    {| Message._id := new_id e 0;
       Message.match_id := mid;
       Message.sender_id := str (User._id u);
       Message.text := t;
       Message.created_at := utcnow e 0 |} in
  let shown := fun (d : Message.t) =>
    {| msg_id := str (Message._id d);
       msg_sender_id := Message.sender_id d;
       msg_text := Message.text d;
       msg_created_at := Message.created_at d |} in
  let of_match := fun (d : Message.t) => String.eqb (Message.match_id d) mid in
  exists db1 db2 db3 before,
    send_message p1 Scenario.alice (Scenario.env 3) Scenario.matched_db
    = (Ok {| send_ok := true |}, db1) /\
    send_message p2 Scenario.bob (Scenario.env 4) db1 = (Ok {| send_ok := true |}, db2) /\
    send_message p3 Scenario.alice (Scenario.env 5) db2 = (Ok {| send_ok := true |}, db3) /\
    Permutation before (List.filter of_match (coll_message Scenario.matched_db)) /\
    get_messages mid Scenario.bob db3 =
    (Ok (List.map shown before ++
         [ {| msg_id := "000000000000000000000030"; msg_sender_id := Scenario.alice_id;
              msg_text := "m1"; msg_created_at := 30 |};
           {| msg_id := "000000000000000000000040"; msg_sender_id := Scenario.bob_id;
              msg_text := "m2"; msg_created_at := 40 |};
           {| msg_id := "000000000000000000000050"; msg_sender_id := Scenario.alice_id;
              msg_text := "m3"; msg_created_at := 50 |} ]), db3) /\
    (forall listing,
       Permutation listing (List.filter of_match (coll_message db3)) ->
       StronglySorted (fun x y => Message.created_at x <= Message.created_at y) listing ->
       exists earlier,
         listing = earlier ++ [stored Scenario.alice "m1" (Scenario.env 3);
                               stored Scenario.bob "m2" (Scenario.env 4);
                               stored Scenario.alice "m3" (Scenario.env 5)] /\
         Permutation earlier (List.filter of_match (coll_message Scenario.matched_db))).
Proof.
  intros mid p1 p2 p3 stored shown of_match.
  assert (Hm : resolves_match Scenario.matched_db mid
                 {| Match._id := Scenario.oid Byte.x21;
                    Match.user_a := Scenario.bob_id;
                    Match.user_b := Scenario.alice_id;
                    Match.created_at := 21 |}).
  { eexists. split; reflexivity. }
  refine (proj2 (message_log_listing Scenario.matched_db mid _ Scenario.bob Hm _)
            Scenario.alice Scenario.bob Scenario.alice "m1" "m2" "m3"
            (Scenario.env 3) (Scenario.env 4) (Scenario.env 5) _ _ _ _ _ _).
  - left. reflexivity.
  - right. reflexivity.
  - left. reflexivity.
  - right. reflexivity.
  - constructor.
  - reflexivity.
  - reflexivity.
Defined.

(** C7 as first stated does not hold: the listing follows the stamps.
    Alice writes "m1" when the clock reads 50, Bob "m2" when it reads 40,
    Alice "m3" when it reads 30: the three appends succeed in that order,
    and Bob reads back "m3", "m2", "m1". *)
Lemma messages_listed_by_stamp_not_arrival :
  let mid := Scenario.match_ab_id in
  let post := fun t => {| MessagePayload.match_id := mid; MessagePayload.text := t |} in
  let r1 := send_message (post "m1") Scenario.alice (Scenario.env 5) Scenario.matched_db in
  let r2 := send_message (post "m2") Scenario.bob (Scenario.env 4) (snd r1) in
  let r3 := send_message (post "m3") Scenario.alice (Scenario.env 3) (snd r2) in
  fst r1 = Ok {| send_ok := true |} /\
  fst r2 = Ok {| send_ok := true |} /\
  fst r3 = Ok {| send_ok := true |} /\
  List.map Message.text (coll_message (snd r3)) = ["m1"; "m2"; "m3"] /\
  fst (get_messages mid Scenario.bob (snd r3))
  = Ok [ {| msg_id := "000000000000000000000030"; msg_sender_id := Scenario.alice_id;
            msg_text := "m3"; msg_created_at := 30 |};
         {| msg_id := "000000000000000000000040"; msg_sender_id := Scenario.bob_id;
            msg_text := "m2"; msg_created_at := 40 |};
         {| msg_id := "000000000000000000000050"; msg_sender_id := Scenario.alice_id;
            msg_text := "m1"; msg_created_at := 50 |} ].
Proof. repeat split. Qed.

(** ** The profile update *)

Lemma update_one_Forall2 {A} (filter : A -> bool) (set : A -> A) (l : list A) :
  Forall2 (fun d d' => d' = d \/ (filter d = true /\ d' = set d)) l (update_one filter set l).
Proof.
  induction l as [|x l IH]; cbn [update_one].
  - constructor.
  - destruct (filter x) eqn:E.
    + constructor; [now right|].
      clear. induction l; constructor; [now left|assumption].
    + constructor; [now left|exact IH].
Qed.

Lemma update_frame_refl (payload : ProfileUpdate.t) (user d : User.t) :
  update_frame payload user d d.
Proof. unfold update_frame. repeat split; reflexivity. Qed.

Lemma update_frame_apply (payload : ProfileUpdate.t) (user d : User.t) (now : datetime) :
  User._id d = User._id user ->
  update_frame payload user d (apply_updates payload now d).
Proof.
  intros Hid. unfold update_frame, apply_updates; cbn.
  repeat split; try congruence; intros ->; reflexivity.
Qed.

Lemma update_me_db (payload : ProfileUpdate.t) (user : User.t) (env : Env) (db : Database) :
  snd (update_me payload user env db) =
  mkDatabase
    (update_one (user_with_id (User._id user)) (apply_updates payload (utcnow env 0))
       (coll_user db))
    (coll_like db) (coll_match db) (coll_message db).
Proof.
  unfold update_me, bind, db_user_update_one, db_user_find_one, ret, raise; cbn.
  destruct (find_one _ _); reflexivity.
Qed.

(** C10. [update_me] writes to the user collection alone; there it leaves
    the document of every other user as it was, and in a document of the
    acting user it keeps [_id], [email], [password_hash], [created_at] and
    [verified] (and [full_name], [birthday], [location]), and every field
    of [ProfileUpdate] that the payload leaves at [None]; what can change
    is [updated_at] and the fields the payload supplies. *)
Theorem update_me_frame
  (payload : ProfileUpdate.t) (user : User.t) (env : Env) (db : Database) :
  let db' := snd (update_me payload user env db) in
  coll_like db' = coll_like db /\
  coll_match db' = coll_match db /\
  coll_message db' = coll_message db /\
  Forall2 (update_frame payload user) (coll_user db) (coll_user db').
Proof.
  cbv zeta. rewrite update_me_db. cbn [coll_user coll_like coll_match coll_message].
  repeat split.
  eapply Forall2_impl; [|apply update_one_Forall2].
  intros d d' [->|[Hid ->]].
  - apply update_frame_refl.
  - apply update_frame_apply. now apply oid_eqb_eq.
Qed.

(** The fields the payload supplies do reach the stored document of an
    authenticated user, and the response shows them. *)
Lemma update_me_applies (payload : ProfileUpdate.t) (user : User.t) (env : Env)
  (db : Database) (l1 l2 : list User.t) (stored : User.t) :
  coll_user db = l1 ++ stored :: l2 ->
  User._id stored = User._id user ->
  Forall (fun d => User._id d <> User._id user) l1 ->
  update_me payload user env db =
  (Ok (user_entity (apply_updates payload (utcnow env 0) stored)),
   mkDatabase (l1 ++ apply_updates payload (utcnow env 0) stored :: l2)
     (coll_like db) (coll_match db) (coll_message db)).
Proof.
  intros Hdb Hid Hl1.
  assert (Hupd : update_one (user_with_id (User._id user))
                   (apply_updates payload (utcnow env 0)) (coll_user db)
                 = l1 ++ apply_updates payload (utcnow env 0) stored :: l2).
  { rewrite Hdb. clear Hdb. induction Hl1 as [|x l1 Hx Hl1 IH]; cbn [update_one app].
    - unfold user_with_id at 1. now rewrite Hid, oid_eqb_refl.
    - unfold user_with_id at 1. apply oid_eqb_neq in Hx. now rewrite Hx, IH. }
  unfold update_me, bind, db_user_update_one, db_user_find_one, ret; cbn.
  rewrite Hupd.
  assert (Hf : find_one (user_with_id (User._id user))
                 (l1 ++ apply_updates payload (utcnow env 0) stored :: l2)
               = Some (apply_updates payload (utcnow env 0) stored)).
  { clear Hupd Hdb. unfold find_one.
    induction Hl1 as [|x l1 Hx Hl1 IH]; cbn [List.find app].
    - unfold user_with_id at 1; cbn. now rewrite Hid, oid_eqb_refl.
    - unfold user_with_id at 1. apply oid_eqb_neq in Hx. now rewrite Hx. }
  now rewrite Hf.
Qed.

(** ** The match directory *)

Lemma involves_true (uid : string) (m : Match.t) :
  involves uid m = true <-> Match.user_a m = uid \/ Match.user_b m = uid.
Proof. unfold involves. now rewrite orb_true_iff, !String.eqb_eq. Qed.

Lemma other_id_of_cases (uid : string) (m : Match.t) :
  other_id_of uid m = Match.user_a m \/ other_id_of uid m = Match.user_b m.
Proof. unfold other_id_of. destruct (String.eqb _ _); auto. Qed.

Lemma match_item_eq (db : Database) (uid : string) (m : Match.t) :
  ObjectId (other_id_of uid m) <> None ->
  match_item uid m db = (Ok (match_entry db uid m), db).
Proof.
  intros H. unfold match_item, bind. rewrite get_user_by_id_eq.
  unfold match_entry, counterpart.
  destruct (ObjectId (other_id_of uid m)); [reflexivity|congruence].
Qed.

Lemma for_each_match_item (db : Database) (uid : string) (ms : list Match.t) :
  Forall (fun m => ObjectId (other_id_of uid m) <> None) ms ->
  for_each (match_item uid) ms db = (Ok (List.map (match_entry db uid) ms), db).
Proof.
  induction 1 as [|m ms Hm Hms IH]; cbn [for_each List.map].
  - reflexivity.
  - unfold bind at 1. rewrite match_item_eq by exact Hm.
    unfold bind at 1. now rewrite IH.
Qed.

(** The loop of [matches] stops at the first Match whose other side is
    not an identifier. *)
Lemma for_each_match_item_invalid (db : Database) (uid : string) (m : Match.t)
  (ms : list Match.t) :
  ObjectId (other_id_of uid m) = None ->
  for_each (match_item uid) (m :: ms) db = (Raise InvalidId, db).
Proof.
  intros H. cbn [for_each]. unfold bind at 1, match_item, bind at 1.
  rewrite get_user_by_id_eq, H. reflexivity.
Qed.

(** The other participant of a Match that involves [uid] is the one
    the loop of [matches] looks up. *)
Lemma other_participant_looked_up (uid : string) (m : Match.t) (o : string) :
  other_participant uid m o -> o = other_id_of uid m.
Proof.
  unfold other_participant, other_id_of. intros [[Ha ->]|[Hb ->]].
  - apply String.eqb_eq in Ha. now rewrite Ha.
  - destruct (String.eqb (Match.user_a m) uid) eqn:E; [|reflexivity].
    apply String.eqb_eq in E. congruence.
Qed.

Lemma public_view_of_user_entity (d : User.t) : public_view_of d (user_entity d).
Proof. repeat split. Qed.

(** What the entry of a Match shows of the other participant: a stored
    user with the identifier the Match names, when there is one, and
    nothing when there is none. *)
Lemma match_entry_shows (db : Database) (uid : string) (m : Match.t) (o : string) :
  other_participant uid m o ->
  (forall d, In d (coll_user db) -> ObjectId o = Some (User._id d) ->
     exists d' p, In d' (coll_user db) /\ User._id d' = User._id d /\
                  item_other (match_entry db uid m) = Some p /\ public_view_of d' p) /\
  (resolves_to_nobody db o -> item_other (match_entry db uid m) = None).
Proof.
  intros Ho. apply other_participant_looked_up in Ho.
  unfold match_entry, counterpart; cbn [item_other]. rewrite <- Ho. split.
  - intros d Hd Hoid. rewrite Hoid.
    destruct (find_one (user_with_id (User._id d)) (coll_user db)) as [d'|] eqn:Hf.
    + apply find_one_Some in Hf as [Hin Hid]. apply oid_eqb_eq in Hid.
      exists d', (user_entity d'). split; [exact Hin|]. split; [exact Hid|].
      split; [reflexivity|apply public_view_of_user_entity].
    + exfalso. rewrite find_one_None in Hf. specialize (Hf d Hd).
      unfold user_with_id in Hf. now rewrite oid_eqb_refl in Hf.
  - intros Hnobody. destruct (ObjectId o) as [oid|] eqn:Hoid; [|reflexivity].
    destruct (find_one (user_with_id oid) (coll_user db)) as [d'|] eqn:Hf; [|reflexivity].
    exfalso. apply find_one_Some in Hf as [Hin Hid]. apply oid_eqb_eq in Hid.
    apply (Hnobody d' Hin). now rewrite Hid.
Qed.

(** C8. For every user, [matches] returns one entry per stored Match that
    has the user as [user_a] or [user_b], most recent first.  An entry
    carries the identifier and the date of its Match and, of the other
    participant (the one named in the field the user is not in), the
    public view of a stored user with that identifier; when no stored user
    has it, the entry is still there, with [other] set to [None].  (The
    participants of a stored Match are identifiers: [like] is the only
    writer of the collection and stores two identifiers, see
    [like_keeps_participants_ids].) *)
Theorem matches_listing (db : Database) (user : User.t) :
  participants_are_ids db ->
  let uid := str (User._id user) in
  exists ms items,
    matches user db = (Ok items, db) /\
    Permutation ms
      (List.filter (fun m => String.eqb (Match.user_a m) uid || String.eqb (Match.user_b m) uid)
         (coll_match db)) /\
    (forall m, In m ms <->
               In m (coll_match db) /\ (Match.user_a m = uid \/ Match.user_b m = uid)) /\
    StronglySorted (fun x y => Match.created_at x >= Match.created_at y) ms /\
    Forall2 (fun m e =>
               item_id e = str (Match._id m) /\
               item_created_at e = Match.created_at m /\
               forall o, other_participant uid m o ->
                 (forall d, In d (coll_user db) -> ObjectId o = Some (User._id d) ->
                    exists d' p, In d' (coll_user db) /\ User._id d' = User._id d /\
                                 item_other e = Some p /\ public_view_of d' p) /\
                 (resolves_to_nobody db o -> item_other e = None))
            ms items.
Proof.
  intros Hids uid.
  exists (sort (descending Match.created_at) (find (involves uid) (coll_match db))).
  exists (List.map (match_entry db uid)
            (sort (descending Match.created_at) (find (involves uid) (coll_match db)))).
  assert (Hperm := sort_Permutation (descending Match.created_at)
                     (find (involves uid) (coll_match db))).
  assert (Hin : forall m,
             In m (sort (descending Match.created_at) (find (involves uid) (coll_match db)))
             <-> In m (coll_match db) /\ (Match.user_a m = uid \/ Match.user_b m = uid)).
  { intros m. rewrite <- involves_true. split.
    - intros H. apply (Permutation_in _ Hperm) in H. now apply filter_In in H.
    - intros H. apply (Permutation_in _ (Permutation_sym Hperm)). now apply filter_In. }
  split; [|split; [exact Hperm|split; [exact Hin|split; [apply sort_descending|]]]].
  - unfold matches, bind, db_match_find. fold uid.
    apply for_each_match_item. apply Forall_forall. intros m Hm.
    apply Hin in Hm as [Hm _]. unfold participants_are_ids in Hids.
    rewrite Forall_forall in Hids. destruct (Hids m Hm) as [Ha Hb].
    destruct (other_id_of_cases uid m) as [-> | ->]; assumption.
  - clear Hperm Hin.
    induction (sort (descending Match.created_at) (find (involves uid) (coll_match db)))
      as [|m ms IH]; cbn [List.map]; [constructor|].
    constructor; [|exact IH].
    split; [reflexivity|]. split; [reflexivity|].
    intros o Ho. now apply match_entry_shows.
Qed.

(** [matches_listing] at Alice, matched with Bob and then with Carol, once
    the account of Bob is gone. *)
Lemma matches_listing_witness :
  let db := Scenario.bob_gone in
  let uid := Scenario.alice_id in
  exists ms items,
    matches Scenario.alice db = (Ok items, db) /\
    Permutation ms
      (List.filter (fun m => String.eqb (Match.user_a m) uid || String.eqb (Match.user_b m) uid)
         (coll_match db)) /\
    (forall m, In m ms <->
               In m (coll_match db) /\ (Match.user_a m = uid \/ Match.user_b m = uid)) /\
    StronglySorted (fun x y => Match.created_at x >= Match.created_at y) ms /\
    Forall2 (fun m e =>
               item_id e = str (Match._id m) /\
               item_created_at e = Match.created_at m /\
               forall o, other_participant uid m o ->
                 (forall d, In d (coll_user db) -> ObjectId o = Some (User._id d) ->
                    exists d' p, In d' (coll_user db) /\ User._id d' = User._id d /\
                                 item_other e = Some p /\ public_view_of d' p) /\
                 (resolves_to_nobody db o -> item_other e = None))
            ms items.
Proof.
  apply (matches_listing Scenario.bob_gone Scenario.alice).
  unfold participants_are_ids.
  repeat constructor; vm_compute; discriminate.
Defined.

(** The same request, evaluated: the later Match comes first, and the
    entry of the Match with Bob is there with no counterpart. *)
Example matches_of_alice :
  matches Scenario.alice Scenario.bob_gone
  = (Ok [ {| item_id := "000000000000000000000041";
             item_other := Some (user_entity Scenario.carol);
             item_created_at := 41 |};
          {| item_id := "000000000000000000000021";
             item_other := None;
             item_created_at := 21 |} ],
     Scenario.bob_gone).
Proof. reflexivity. Qed.

(** ** What the requests leave in the store *)

Lemma get_current_user_db (sub : option string) (db : Database) :
  snd (get_current_user sub db) = db.
Proof.
  unfold get_current_user. destruct sub as [user_id|]; [|reflexivity].
  unfold bind. rewrite get_user_by_id_eq.
  destruct (ObjectId user_id); [|reflexivity].
  destruct (find_one _ _); reflexivity.
Qed.

Lemma discover_db (user : User.t) (db : Database) : snd (discover user db) = db.
Proof. reflexivity. Qed.

Lemma for_each_db {A B} (body : A -> M B) (cur : list A) (db : Database) :
  (forall x d, snd (body x d) = d) -> snd (for_each body cur db) = db.
Proof.
  intros Hbody. induction cur as [|x cur IH]; cbn [for_each].
  - reflexivity.
  - unfold bind. specialize (Hbody x db).
    destruct (body x db) as [[y|e] db1]; cbn in Hbody; subst db1; [|reflexivity].
    destruct (for_each body cur db) as [[ys|e] db2]; cbn in IH; subst db2; reflexivity.
Qed.

Lemma match_item_db (uid : string) (m : Match.t) (db : Database) :
  snd (match_item uid m db) = db.
Proof.
  unfold match_item, bind. rewrite get_user_by_id_eq.
  destruct (ObjectId (other_id_of uid m)); reflexivity.
Qed.

Lemma for_each_match_item_db (uid : string) (ms : list Match.t) (db : Database) :
  snd (for_each (match_item uid) ms db) = db.
Proof. apply for_each_db. apply match_item_db. Qed.

Lemma matches_db (user : User.t) (db : Database) : snd (matches user db) = db.
Proof. unfold matches, bind, db_match_find. apply for_each_match_item_db. Qed.

Lemma get_messages_db (match_id : string) (user : User.t) (db : Database) :
  snd (get_messages match_id user db) = db.
Proof.
  rewrite get_messages_eq.
  destruct (ObjectId match_id); [|reflexivity].
  destruct (find_one _ _); [|reflexivity].
  destruct (is_participant _ _); reflexivity.
Qed.

(** [send_message] either leaves the store alone or appends its [msg],
    and the latter only past the guard. *)
Lemma send_message_db (payload : MessagePayload.t) (user : User.t) (env : Env)
  (db : Database) :
  snd (send_message payload user env db) = db \/
  (exists m, resolves_match db (MessagePayload.match_id payload) m /\
             participant (str (User._id user)) m /\
             send_message payload user env db
             = (Ok {| send_ok := true |}, add_message (msg payload user env) db)).
Proof.
  rewrite send_message_eq.
  destruct (ObjectId (MessagePayload.match_id payload)) as [oid|] eqn:Hoid; [|now left].
  destruct (find_one (match_with_id oid) (coll_match db)) as [m|] eqn:Hm; [|now left].
  destruct (is_participant (str (User._id user)) m) eqn:Hp; [|now left].
  right. exists m. split; [now exists oid|]. split; [now apply is_participant_true|].
  reflexivity.
Qed.

(** [like] leaves the store alone, or appends its [like_doc], or appends
    [like_doc] and [match_doc]; the latter two only for a target that is an
    identifier. *)
Lemma like_db (payload : LikePayload) (user : User.t) (env : Env) (db : Database) :
  snd (like payload user env db) = db \/
  (ObjectId (target_user_id payload) <> None /\
   (snd (like payload user env db) = add_like (like_doc payload user env) db \/
    snd (like payload user env db)
    = add_match (match_doc payload user env) (add_like (like_doc payload user env) db))).
Proof.
  pose proof (like_eq payload user env db) as E. cbv zeta in E. rewrite E. clear E.
  destruct (ObjectId (target_user_id payload)) as [oid|]; [|now left].
  destruct (find_one (user_with_id oid) (coll_user db)); [|now left].
  right. split; [discriminate|].
  destruct (find_one _ (coll_like _)); [|now left].
  destruct (find_one _ (coll_match db)); [now left|now right].
Qed.

Lemma participants_are_ids_add_match (m : Match.t) (db : Database) :
  ObjectId (Match.user_a m) <> None -> ObjectId (Match.user_b m) <> None ->
  participants_are_ids db -> participants_are_ids (add_match m db).
Proof.
  unfold participants_are_ids, add_match, insert_one; cbn [coll_match].
  intros Ha Hb H. apply Forall_app. split; [exact H|]. now repeat constructor.
Qed.

(** [like] stores two identifiers in a Match: the acting user's own and a
    target that [ObjectId] has accepted. *)
Lemma like_keeps_participants_ids (payload : LikePayload) (user : User.t) (env : Env)
  (db : Database) :
  participants_are_ids db -> participants_are_ids (snd (like payload user env db)).
Proof.
  intros H. destruct (like_db payload user env db) as [->|[Hid [->| ->]]].
  - exact H.
  - exact H.
  - apply participants_are_ids_add_match; [| |exact H].
    + cbn. rewrite ObjectId_str. discriminate.
    + exact Hid.
Qed.

(** No request breaks [participants_are_ids], and a store without matches
    has it. *)
Lemma serve_keeps_participants_ids (sub : option string) (req : Request) (env : Env)
  (db : Database) :
  participants_are_ids db -> participants_are_ids (serve sub req env db).
Proof.
  intros H. unfold serve.
  pose proof (get_current_user_db sub db) as Hdb.
  destruct (get_current_user sub db) as [[user|e] db1]; cbn in Hdb; subst db1;
    [|exact H].
  destruct req as [p| |p| |p|mid].
  - rewrite update_me_db. exact H.
  - exact H.
  - now apply like_keeps_participants_ids.
  - now rewrite matches_db.
  - destruct (send_message_db p user env db) as [->|(m & _ & _ & ->)]; exact H.
  - now rewrite get_messages_db.
Qed.

Lemma participants_are_ids_no_match (db : Database) :
  coll_match db = [] -> participants_are_ids db.
Proof. unfold participants_are_ids. intros ->. constructor. Qed.

(** ** Senders are participants *)

Lemma resolves_match_more (db db' : Database) (more : list Match.t) (match_id : string)
  (m : Match.t) :
  coll_match db' = coll_match db ++ more ->
  resolves_match db match_id m -> resolves_match db' match_id m.
Proof.
  intros Hdb (oid & Hoid & Hm). exists oid. split; [exact Hoid|].
  now rewrite Hdb, find_one_app, Hm.
Qed.

Lemma sender_is_participant_more (db db' : Database) (more : list Match.t) (d : Message.t) :
  coll_match db' = coll_match db ++ more ->
  sender_is_participant db d -> sender_is_participant db' d.
Proof.
  intros Hdb (m & Hm & Hp). exists m. split; [|exact Hp].
  now apply resolves_match_more with db more.
Qed.

Lemma messages_from_participants_more (db db' : Database) (more : list Match.t) :
  coll_match db' = coll_match db ++ more ->
  coll_message db' = coll_message db ->
  messages_from_participants db -> messages_from_participants db'.
Proof.
  unfold messages_from_participants. intros Hm -> H.
  eapply Forall_impl; [|exact H]. intros d. now apply sender_is_participant_more with more.
Qed.

(** What [send_message] writes satisfies the guard it has just passed. *)
Lemma send_message_sender (payload : MessagePayload.t) (user : User.t) (env : Env)
  (db db' : Database) (r : SendResponse) :
  send_message payload user env db = (Ok r, db') ->
  coll_message db' = coll_message db ++ [msg payload user env] /\
  coll_match db' = coll_match db /\
  sender_is_participant db' (msg payload user env).
Proof.
  intros Hsend. rewrite send_message_eq in Hsend.
  destruct (ObjectId (MessagePayload.match_id payload)) as [oid|] eqn:Hoid;
    [|discriminate].
  destruct (find_one (match_with_id oid) (coll_match db)) as [m|] eqn:Hm; [|discriminate].
  destruct (is_participant (str (User._id user)) m) eqn:Hp; [|discriminate].
  injection Hsend as _ <-.
  split; [reflexivity|]. split; [reflexivity|].
  exists m. split; [now exists oid|]. now apply is_participant_true.
Qed.

Lemma serve_keeps_senders (sub : option string) (req : Request) (env : Env)
  (db : Database) :
  messages_from_participants db -> messages_from_participants (serve sub req env db).
Proof.
  intros H. unfold serve.
  pose proof (get_current_user_db sub db) as Hdb.
  destruct (get_current_user sub db) as [[user|e] db1]; cbn in Hdb; subst db1;
    [|exact H].
  destruct req as [p| |p| |p|mid].
  - rewrite update_me_db. exact H.
  - exact H.
  - destruct (like_db p user env db) as [->|[_ [->| ->]]].
    + exact H.
    + exact H.
    + apply messages_from_participants_more with db [match_doc p user env];
        [reflexivity|reflexivity|exact H].
  - now rewrite matches_db.
  - destruct (send_message p user env db) as [[r|e] db'] eqn:E; cbn [snd].
    + apply send_message_sender in E as (Hmsg & Hmatch & Hnew).
      unfold messages_from_participants. rewrite Hmsg. apply Forall_app. split.
      * eapply Forall_impl; [|exact H]. intros d.
        apply sender_is_participant_more with []. now rewrite app_nil_r.
      * now constructor.
    + destruct (send_message_db p user env db) as [Hsame|(m & _ & _ & E')].
      * rewrite E in Hsame. cbn in Hsame. now subst db'.
      * rewrite E in E'. discriminate.
  - now rewrite get_messages_db.
Qed.



(** Starting from a store without messages, whatever requests are served,
    every stored message has a participant of its match as sender. *)
Lemma serve_all_senders (reqs : list (option string * Request * Env)) (db : Database) :
  messages_from_participants db -> messages_from_participants (serve_all reqs db).
Proof.
  revert db. induction reqs as [|[[sub req] env] reqs IH]; intros db H; cbn [serve_all].
  - exact H.
  - apply IH. now apply serve_keeps_senders.
Qed.

Lemma serve_all_participants_ids (reqs : list (option string * Request * Env))
  (db : Database) :
  participants_are_ids db -> participants_are_ids (serve_all reqs db).
Proof.
  revert db. induction reqs as [|[[sub req] env] reqs IH]; intros db H; cbn [serve_all].
  - exact H.
  - apply IH. now apply serve_keeps_participants_ids.
Qed.

(** ** Two likes at once *)

(** Left alone, a request reaches in five steps what [like] returns. *)
Lemma like_steps_alone (payload : LikePayload) (user : User.t) (env : Env) (db : Database) :
  like_steps 5 payload user env AtGetUser db =
  (Returned (fst (like payload user env db)), snd (like payload user env db)).
Proof.
  pose proof (like_eq payload user env db) as E. cbv zeta in E. rewrite E. clear E.
  cbn [like_steps like_step]. rewrite get_user_by_id_eq.
  destruct (ObjectId (target_user_id payload)) as [oid|]; [|reflexivity].
  destruct (find_one (user_with_id oid) (coll_user db)); [|reflexivity].
  cbn [like_step db_like_insert_one snd].
  destruct (find_one _ (coll_like _)); [|reflexivity].
  cbn [like_step add_like coll_match].
  destruct (find_one _ (coll_match db)); reflexivity.
Qed.

Lemma advance_eq (r : LikeRequest) (db : Database) :
  advance r db =
  (mkLikeRequest (req_payload r) (req_user r) (req_env r)
     (fst (like_step (req_payload r) (req_user r) (req_env r) (req_at r) db)),
   snd (like_step (req_payload r) (req_user r) (req_env r) (req_at r) db)).
Proof. unfold advance. now destruct (like_step _ _ _ _ _). Qed.

Lemma likes_add_like (d : Like.t) (db : Database) (x y : string) :
  likes db x y -> likes (add_like d db) x y.
Proof.
  intros (d' & Hin & H). exists d'. split; [|exact H].
  cbn. unfold insert_one. apply in_or_app. now left.
Qed.

Lemma likes_add_match (m : Match.t) (db : Database) (x y : string) :
  likes db x y -> likes (add_match m db) x y.
Proof. intros H. exact H. Qed.

Lemma matched_add_match (m : Match.t) (db : Database) (x y : string) :
  matched db x y -> matched (add_match m db) x y.
Proof.
  intros (m' & Hin & H). exists m'. split; [|exact H].
  cbn. unfold insert_one. apply in_or_app. now left.
Qed.

Lemma matched_sym (db : Database) (x y : string) : matched db x y -> matched db y x.
Proof. intros (m & Hin & [H|H]); exists m; (split; [exact Hin|]); [right|left]; exact H. Qed.

Lemma opposite_likes_inv_sym (a b : string) (r1 r2 : LikeRequest) (db : Database) :
  opposite_likes_inv a b r1 r2 db -> opposite_likes_inv b a r2 r1 db.
Proof.
  intros (H1 & H2 & H3). repeat split; try assumption.
  intros Hr2 Hr1. apply matched_sym. now apply H3.
Qed.

(** A step of the first request keeps the invariant. *)
Lemma advance_keeps_inv (r1 r2 : LikeRequest) (db : Database) :
  let a := str (User._id (req_user r1)) in
  let b := target_user_id (req_payload r1) in
  opposite_likes_inv a b r1 r2 db ->
  opposite_likes_inv a b (fst (advance r1 db)) r2 (snd (advance r1 db)).
Proof.
  intros a b (H1 & H2 & H3). rewrite advance_eq. cbn [fst snd].
  destruct r1 as [payload user env at1]. cbn [req_payload req_user req_env req_at] in *.
  unfold opposite_likes_inv; cbn [req_at].
  destruct at1 as [| | | | |r]; cbn [like_step].
  - rewrite get_user_by_id_eq.
    destruct (ObjectId (target_user_id payload)) as [oid|]; cbn [fst snd];
      [|now repeat split].
    destruct (find_one (user_with_id oid) (coll_user db)); cbn [fst snd];
      now repeat split.
  - cbn [db_like_insert_one fst snd past_insert returned_ok]. repeat split.
    + exists (like_doc payload user env). split; [|now split].
      cbn. unfold insert_one. apply in_or_app. right. now left.
    + intros Hp. apply likes_add_like. now apply H2.
    + intros [].
  - destruct (find_one (is_like (target_user_id payload) (str (User._id user)))
                (coll_like db)) as [d|] eqn:Ef; cbn [fst snd past_insert returned_ok].
    + repeat split; [intros _; now apply H1|exact H2|intros []].
    + repeat split; [intros _; now apply H1|exact H2|].
      intros _ Hr2. exfalso.
      assert (Hp2 : past_insert (req_at r2)).
      { destruct (req_at r2) as [| | | | |[?|?]]; cbn in Hr2 |- *; tauto. }
      apply H2 in Hp2. apply likes_find_one in Hp2 as [d Hd].
      fold b a in Ef. congruence.
  - destruct (find_one (is_match_between (str (User._id user)) (target_user_id payload))
                (coll_match db)) as [m|] eqn:Ef; cbn [fst snd past_insert returned_ok].
    + repeat split; [intros _; now apply H1|exact H2|].
      intros _ _. apply matched_find_one. now exists m.
    + repeat split; [intros _; now apply H1|exact H2|intros []].
  - cbn [db_match_insert_one fst snd past_insert returned_ok]. repeat split.
    + intros _. apply likes_add_match. now apply H1.
    + intros Hp. apply likes_add_match. now apply H2.
    + intros _ _. exists (match_doc payload user env). split.
      * cbn. unfold insert_one. apply in_or_app. right. now left.
      * left. now split.
  - cbn [fst snd]. now repeat split.
Qed.

Lemma advance_request (r : LikeRequest) (db : Database) :
  req_payload (fst (advance r db)) = req_payload r /\
  req_user (fst (advance r db)) = req_user r.
Proof. rewrite advance_eq. now split. Qed.

(** Two opposite likes, however their steps alternate: once both have
    answered without raising, the store holds a Match of the pair. *)
Lemma opposite_likes_matched (schedule : list bool) (r1 r2 : LikeRequest) (db : Database) :
  let a := str (User._id (req_user r1)) in
  let b := str (User._id (req_user r2)) in
  target_user_id (req_payload r1) = b ->
  target_user_id (req_payload r2) = a ->
  opposite_likes_inv a b r1 r2 db ->
  let '(r1', r2', db') := interleave schedule r1 r2 db in
  opposite_likes_inv a b r1' r2' db'.
Proof.
  revert r1 r2 db. induction schedule as [|[|] rest IH]; intros r1 r2 db a b Ht1 Ht2 Hinv.
  - exact Hinv.
  - cbn [interleave].
    pose proof (advance_keeps_inv r1 r2 db) as Hstep. cbv zeta in Hstep.
    rewrite Ht1 in Hstep. specialize (Hstep Hinv).
    destruct (advance_request r1 db) as [Hp Hu].
    destruct (advance r1 db) as [r1' db']. cbn [fst snd] in *.
    specialize (IH r1' r2 db'). cbv zeta in IH. rewrite Hp, Hu in IH.
    now apply IH.
  - cbn [interleave].
    pose proof (advance_keeps_inv r2 r1 db) as Hstep. cbv zeta in Hstep.
    rewrite Ht2 in Hstep. specialize (Hstep (opposite_likes_inv_sym _ _ _ _ _ Hinv)).
    apply opposite_likes_inv_sym in Hstep.
    destruct (advance_request r2 db) as [Hp Hu].
    destruct (advance r2 db) as [r2' db']. cbn [fst snd] in *.
    specialize (IH r1 r2' db'). cbv zeta in IH. rewrite Hp, Hu in IH.
    now apply IH.
Qed.

Lemma matched_count (db : Database) (x y : string) :
  matched db x y -> (1 <= count_matches x y db)%nat.
Proof.
  intros (m & Hin & Hm). unfold count_matches.
  assert (H : In m (List.filter (is_match_between x y) (coll_match db))).
  { apply filter_In. split; [exact Hin|]. now apply is_match_between_true. }
  destruct (List.filter (is_match_between x y) (coll_match db)); [destruct H|cbn; lia].
Qed.

(** Never zero: two opposite likes that both answer without raising leave
    at least one Match of the pair, whatever the schedule. *)
Lemma opposite_likes_never_zero (schedule : list bool) (u1 u2 : User.t) (e1 e2 : Env)
  (db : Database) :
  let a := str (User._id u1) in
  let b := str (User._id u2) in
  let '(r1, r2, db') :=
    interleave schedule (start {| target_user_id := b |} u1 e1)
      (start {| target_user_id := a |} u2 e2) db in
  returned_ok (req_at r1) -> returned_ok (req_at r2) -> (1 <= count_matches a b db')%nat.
Proof.
  intros a b.
  pose proof (opposite_likes_matched schedule
                (start {| target_user_id := b |} u1 e1)
                (start {| target_user_id := a |} u2 e2) db) as H.
  cbv zeta in H. cbn [start req_user req_payload target_user_id req_at] in H.
  specialize (H eq_refl eq_refl).
  destruct (interleave schedule _ _ db) as [[r1 r2] db'].
  intros Hr1 Hr2. apply matched_count.
  destruct H as (_ & _ & H); [|now apply H].
  unfold opposite_likes_inv; cbn. repeat split; intros [].
Qed.

(** C3 (the handler departs from it).  Alice likes Bob while Bob likes
    Alice, the two requests taking their steps in turn: each stores its
    like, each finds the like of the other, each looks for a Match of the
    pair and finds none, each inserts one.  Both answer [match: true], and
    the store holds two Match records of the pair. *)
Theorem concurrent_likes_two_matches :
  let alternate := [true; false; true; false; true; false; true; false; true; false] in
  let '(r1, r2, db) :=
    interleave alternate
      (start {| target_user_id := Scenario.bob_id |} Scenario.alice (Scenario.env 1))
      (start {| target_user_id := Scenario.alice_id |} Scenario.bob (Scenario.env 2))
      Scenario.users_only in
  req_at r1 = Returned (Ok {| like_ok := true; like_match := true |}) /\
  req_at r2 = Returned (Ok {| like_ok := true; like_match := true |}) /\
  coll_match db =
    [ {| Match._id := Scenario.oid Byte.x11;
         Match.user_a := Scenario.alice_id;
         Match.user_b := Scenario.bob_id;
         Match.created_at := 11 |};
      {| Match._id := Scenario.oid Byte.x21;
         Match.user_a := Scenario.bob_id;
         Match.user_b := Scenario.alice_id;
         Match.created_at := 21 |} ] /\
  count_matches Scenario.alice_id Scenario.bob_id db = 2%nat.
Proof. vm_compute. repeat split. Qed.

(** Over all the ways the five steps of the one request and the five of
    the other can alternate, the store ends with one Match of the pair or
    with two; one request after the other, it ends with one. *)
Lemma concurrent_likes_all_schedules :
  let run := fun schedule =>
    count_matches Scenario.alice_id Scenario.bob_id
      (snd (interleave schedule
              (start {| target_user_id := Scenario.bob_id |} Scenario.alice (Scenario.env 1))
              (start {| target_user_id := Scenario.alice_id |} Scenario.bob (Scenario.env 2))
              Scenario.users_only)) in
  List.length (schedules 5 5) = 252%nat /\
  forallb (fun s => Nat.eqb (run s) 1 || Nat.eqb (run s) 2) (schedules 5 5) = true /\
  existsb (fun s => Nat.eqb (run s) 2) (schedules 5 5) = true /\
  run (List.repeat true 5 ++ List.repeat false 5) = 1%nat /\
  run (List.repeat false 5 ++ List.repeat true 5) = 1%nat.
Proof. vm_compute. repeat split. Qed.

(** * Further properties of the handlers *)

(** ** Authentication *)

(** What [ObjectId] accepts is a string of 24 characters, all of
    them hexadecimal digits. *)
Lemma parse_hex_Some (n : nat) (s : string) (bs : bytes_n n) :
  parse_hex n s = Some bs ->
  String.length s = (2 * n)%nat /\
  forall c, In c (chars s) -> hex_value c <> None.
Proof.
  revert s bs. induction n as [|n IH]; intros s bs; cbn [parse_hex].
  - destruct s; [|discriminate]. intros _. split; [reflexivity|]. intros c [].
  - destruct s as [|hi [|lo rest]]; try discriminate.
    unfold byte_of_hex.
    destruct (hex_value hi) as [h|] eqn:Hhi; [|discriminate].
    destruct (hex_value lo) as [l|] eqn:Hlo; [|discriminate].
    destruct (Byte.of_N (16 * h + l)) as [b|]; [|discriminate].
    destruct (parse_hex n rest) as [bs'|] eqn:Hrest; [|discriminate].
    intros _. destruct (IH rest bs' Hrest) as [Hlen Hall].
    split.
    + cbn [String.length]. rewrite Hlen. lia.
    + cbn [chars]. intros c [<-|[<-|Hc]]; [congruence|congruence|now apply Hall].
Qed.

Lemma surely_invalid_ObjectId (s : string) : surely_invalid s -> ObjectId s = None.
Proof.
  intros H. destruct (ObjectId s) as [oid|] eqn:E; [|reflexivity].
  exfalso. unfold ObjectId in E. apply parse_hex_Some in E as [Hlen Hall].
  destruct H as [H|(c & Hc & Hv & _)].
  - apply H. exact Hlen.
  - now apply (Hall c Hc).
Qed.

(** X1. [get_current_user] writes nothing.  The user it returns is a
    stored user whose [_id] is what the subject of the token spells.  A
    token without a subject, and a subject that is a well-formed
    identifier of no stored user, get the 401 of [credentials_exception];
    a subject that is not 24 characters long, or has a character in it
    that is neither a hexadecimal digit nor a blank, raises [InvalidId].
    Nothing else is raised: [InvalidId] only for a subject that is not 24
    hexadecimal digits, the 401 only when there is no subject or no stored
    user has the identifier it spells. *)
Theorem get_current_user_outcomes (subject : option string) (db : Database) :
  snd (get_current_user subject db) = db /\
  (forall u, fst (get_current_user subject db) = Ok u ->
     In u (coll_user db) /\
     exists s, subject = Some s /\ ObjectId s = Some (User._id u)) /\
  (subject = None ->
     fst (get_current_user subject db) = Raise credentials_exception) /\
  (forall s oid, subject = Some s -> ObjectId s = Some oid ->
     (forall d, In d (coll_user db) -> User._id d <> oid) ->
     fst (get_current_user subject db) = Raise credentials_exception) /\
  (forall s, subject = Some s -> surely_invalid s ->
     fst (get_current_user subject db) = Raise InvalidId) /\
  (forall e, fst (get_current_user subject db) = Raise e ->
     (e = InvalidId /\ exists s, subject = Some s /\ ObjectId s = None) \/
     (e = credentials_exception /\
      (subject = None \/ exists s, subject = Some s /\ resolves_to_nobody db s))).
Proof.
  split; [apply get_current_user_db|].
  unfold get_current_user. destruct subject as [s|]; cbn [fst].
  - unfold bind. rewrite get_user_by_id_eq.
    destruct (ObjectId s) as [oid|] eqn:Hoid; cbn [fst].
    + destruct (find_one (user_with_id oid) (coll_user db)) as [u|] eqn:Hu; cbn [fst].
      * apply find_one_Some in Hu as [Hin Hid]. apply oid_eqb_eq in Hid.
        split; [|split; [discriminate|split; [|split; [|discriminate]]]].
        -- intros u' [= <-]. split; [exact Hin|]. exists s. split; [reflexivity|congruence].
        -- intros s' oid' [= <-] Hoid' Hnone. exfalso.
           assert (Heq : oid' = oid) by congruence. subst oid'. now apply (Hnone u Hin).
        -- intros s' [= <-] Hs. apply surely_invalid_ObjectId in Hs. congruence.
      * split; [discriminate|]. split; [discriminate|]. split; [reflexivity|].
        split.
        -- intros s' [= <-] Hs. apply surely_invalid_ObjectId in Hs. congruence.
        -- intros e [= <-]. right. split; [reflexivity|].
           right. exists s. split; [reflexivity|].
           intros d Hd Heq. assert (Hd' : oid = User._id d) by congruence. subst oid.
           rewrite find_one_None in Hu. specialize (Hu d Hd).
           unfold user_with_id in Hu. now rewrite oid_eqb_refl in Hu.
    + split; [discriminate|]. split; [discriminate|].
      split; [intros s' oid' [= <-] Hoid'; congruence|].
      split; [reflexivity|].
      intros e [= <-]. left. split; [reflexivity|]. now exists s.
  - split; [discriminate|]. split; [reflexivity|]. split; [discriminate|].
    split; [discriminate|].
    intros e [= <-]. right. split; [reflexivity|]. now left.
Qed.

(** [get_current_user_outcomes] at the token of Alice, at a token with no
    subject, at the identifier of nobody and at a subject that is no
    identifier. *)
Lemma get_current_user_outcomes_witness :
  (In Scenario.alice (coll_user Scenario.users_only) /\
   exists s, Some Scenario.alice_id = Some s /\ ObjectId s = Some (User._id Scenario.alice))
  /\
  fst (get_current_user None Scenario.users_only) = Raise credentials_exception
  /\
  fst (get_current_user (Some Accounts.dave_id) Scenario.users_only)
  = Raise credentials_exception
  /\
  fst (get_current_user (Some "alice") Scenario.users_only) = Raise InvalidId.
Proof.
  split; [|split; [|split]].
  - apply (proj1 (proj2 (get_current_user_outcomes (Some Scenario.alice_id)
                           Scenario.users_only))).
    reflexivity.
  - apply (proj1 (proj2 (proj2 (get_current_user_outcomes None Scenario.users_only)))).
    reflexivity.
  - apply (proj1 (proj2 (proj2 (proj2
             (get_current_user_outcomes (Some Accounts.dave_id) Scenario.users_only))))
             Accounts.dave_id (Scenario.oid Byte.x70)); [reflexivity|reflexivity|].
    intros d Hd. cbn in Hd.
    repeat (destruct Hd as [<-|Hd]; [vm_compute; discriminate|]). destruct Hd.
  - apply (proj1 (proj2 (proj2 (proj2 (proj2
             (get_current_user_outcomes (Some "alice") Scenario.users_only)))))
             "alice"); [reflexivity|].
    left. cbn. lia.
Defined.

(** ** Registration and login *)

Lemma with_email_true (email : string) (d : User.t) :
  with_email email d = true <-> User.email d = email.
Proof. unfold with_email. apply String.eqb_eq. Qed.

Lemma get_user_by_email_Some (email : string) (db : Database) (u : User.t) :
  get_user_by_email email (Some db) = Some u -> In u (coll_user db) /\ User.email u = email.
Proof.
  cbn. intros H. apply find_one_Some in H as [Hin Hu]. split; [exact Hin|].
  now apply with_email_true.
Qed.

Lemma get_user_by_email_None (email : string) (db : Database) :
  get_user_by_email email (Some db) = None <-> ~ In email (List.map User.email (coll_user db)).
Proof.
  cbn. rewrite find_one_None. split.
  - intros H Hin. apply in_map_iff in Hin as (d & Hd & Hin).
    specialize (H d Hin). apply with_email_true in Hd. congruence.
  - intros H d Hd. destruct (with_email email d) eqn:E; [|reflexivity].
    exfalso. apply H. apply in_map_iff. exists d. split; [|exact Hd].
    now apply with_email_true.
Qed.

Lemma find_one_fresh_snoc {A} (filter : A -> bool) (l : list A) (d : A) :
  Forall (fun x => filter x = false) l -> filter d = true ->
  find_one filter (l ++ [d]) = Some d.
Proof.
  intros Hl Hd. rewrite find_one_app.
  replace (find_one filter l) with (@None A).
  - unfold find_one; cbn. now rewrite Hd.
  - symmetry. apply find_one_None. now apply Forall_forall.
Qed.

Lemma fresh_user_id_filter (oid : ObjectIdT) (db : Database) :
  fresh_user_id oid db -> Forall (fun x => user_with_id oid x = false) (coll_user db).
Proof.
  unfold fresh_user_id. intros H. eapply Forall_impl; [|exact H].
  intros d Hd. unfold user_with_id. now apply oid_eqb_neq.
Qed.

(** X2. An email that a stored user already has cannot be registered
    again: [register] answers 400 "Email already registered" and leaves the
    store as it was. *)
Theorem register_taken_email
  (pwd_context : CryptContext) (user : UserCreate.t) (salt : string) (env : Env)
  (db : Database) :
  In (UserCreate.email user) (List.map User.email (coll_user db)) ->
  register pwd_context user salt env (Some db)
  = (Raise (HTTPException 400 "Email already registered"), Some db).
Proof.
  intros Hin. unfold register.
  destruct (get_user_by_email (UserCreate.email user) (Some db)) as [u|] eqn:E;
    [reflexivity|].
  apply get_user_by_email_None in E. contradiction.
Qed.

(** [register_taken_email] at somebody registering with the email of
    Alice. *)
Lemma register_taken_email_witness :
  register Accounts.plain_context
    {| UserCreate.email := "alice@example.com";
       UserCreate.password := "x";
       UserCreate.full_name := None |}
    "salt" (Scenario.env 7) (Some Scenario.users_only)
  = (Raise (HTTPException 400 "Email already registered"), Some Scenario.users_only).
Proof.
  apply (register_taken_email Accounts.plain_context
           {| UserCreate.email := "alice@example.com";
              UserCreate.password := "x";
              UserCreate.full_name := None |}
           "salt" (Scenario.env 7) Scenario.users_only).
  left. reflexivity.
Defined.

(** X3. With an email that no stored user has, [register] appends one
    user document and touches nothing else.  The document carries the
    email and the name as given, the hash of the password and not the
    password, the two readings of the clock, and the defaults of the
    schema: nothing to show but [show_me = "everyone"], ages 18 to 35,
    50 km, unverified.  The answer is the public view of that document,
    under the identifier the store has just handed out. *)
Theorem register_creates_account
  (pwd_context : CryptContext) (user : UserCreate.t) (salt : string) (env : Env)
  (db : Database) :
  ~ In (UserCreate.email user) (List.map User.email (coll_user db)) ->
  fresh_user_id (new_id env 0) db ->
  exists created db',
    register pwd_context user salt env (Some db) = (Ok (user_entity created), Some db') /\
    coll_user db' = coll_user db ++ [created] /\
    coll_like db' = coll_like db /\
    coll_match db' = coll_match db /\
    coll_message db' = coll_message db /\
    User._id created = new_id env 0 /\
    User.email created = UserCreate.email user /\
    User.full_name created = UserCreate.full_name user /\
    User.password_hash created = pwd_hash pwd_context salt (UserCreate.password user) /\
    User.created_at created = Some (utcnow env 0) /\
    User.updated_at created = Some (utcnow env 1) /\
    User.show_me created = Some "everyone" /\
    User.age_range created = [18; 35] /\
    User.distance_km created = 50 /\
    User.verified created = false /\
    User.photos created = [] /\
    User.interests created = [] /\
    pub_id (user_entity created) = str (new_id env 0).
Proof.
  intros Hfree Hfresh.
  exists (user_doc pwd_context user salt env),
         (add_user (user_doc pwd_context user salt env) db).
  unfold register. apply get_user_by_email_None in Hfree. rewrite Hfree.
  cbn [add_user coll_user]. unfold insert_one.
  rewrite find_one_fresh_snoc.
  - repeat split.
  - now apply fresh_user_id_filter.
  - unfold user_with_id, user_doc; cbn. apply oid_eqb_refl.
Qed.

(** [register_creates_account] at Dave joining Alice, Bob and Carol. *)
Lemma register_creates_account_witness :
  exists created db',
    register Accounts.plain_context Accounts.dave "salt" (Scenario.env 7)
      (Some Scenario.users_only)
    = (Ok (user_entity created), Some db') /\
    coll_user db' = coll_user Scenario.users_only ++ [created] /\
    coll_like db' = coll_like Scenario.users_only /\
    coll_match db' = coll_match Scenario.users_only /\
    coll_message db' = coll_message Scenario.users_only /\
    User._id created = new_id (Scenario.env 7) 0 /\
    User.email created = UserCreate.email Accounts.dave /\
    User.full_name created = UserCreate.full_name Accounts.dave /\
    User.password_hash created
    = pwd_hash Accounts.plain_context "salt" (UserCreate.password Accounts.dave) /\
    User.created_at created = Some (utcnow (Scenario.env 7) 0) /\
    User.updated_at created = Some (utcnow (Scenario.env 7) 1) /\
    User.show_me created = Some "everyone" /\
    User.age_range created = [18; 35] /\
    User.distance_km created = 50 /\
    User.verified created = false /\
    User.photos created = [] /\
    User.interests created = [] /\
    pub_id (user_entity created) = str (new_id (Scenario.env 7) 0).
Proof.
  apply (register_creates_account Accounts.plain_context Accounts.dave "salt"
           (Scenario.env 7) Scenario.users_only).
  - intros [H|[H|[H|[]]]]; discriminate H.
  - repeat constructor; intros H; discriminate H.
Defined.

(** X4. With no database configured, [register] answers 500 "Database not
    configured"; [login] finds nobody and answers the 400 of a wrong
    password; and [get_current_user] answers 401 for every token, also for
    one whose subject is no identifier, since the lookup gives up before
    [ObjectId] is tried. *)
Theorem unconfigured_database
  (pwd_context : CryptContext) (jwt : Jwt) (SECRET_KEY : string) :
  (forall user salt env,
     register pwd_context user salt env None
     = (Raise (HTTPException 500 "Database not configured"), None)) /\
  (forall payload now,
     login pwd_context jwt SECRET_KEY payload now None
     = Raise (HTTPException 400 "Incorrect email or password")) /\
  (forall token now,
     get_current_user_on jwt SECRET_KEY token now None = Raise credentials_exception).
Proof.
  repeat split.
  intros token now. unfold get_current_user_on.
  destruct (token_sub jwt SECRET_KEY token now); reflexivity.
Qed.

(** On a configured database [get_current_user_on] is [get_current_user]
    applied to the subject of the token. *)
Lemma get_current_user_on_configured (jwt : Jwt) (SECRET_KEY token : string)
  (now : datetime) (db : Database) :
  get_current_user_on jwt SECRET_KEY token now (Some db)
  = fst (get_current_user (token_sub jwt SECRET_KEY token now) db).
Proof.
  unfold get_current_user_on, get_current_user, get_user_by_id_on.
  destruct (token_sub jwt SECRET_KEY token now) as [s|]; [|reflexivity].
  unfold bind. destruct (get_user_by_id s db) as [[[u|]|e] db']; reflexivity.
Qed.

(** X5. [login] issues a token only for a stored user with the email of
    the payload whose stored hash verifies the password of the payload; the
    token is a bearer token that names that user and expires fourteen days
    after the call.  Every refusal is the same 400 "Incorrect email or
    password", whether the email is unknown or the password wrong. *)
Theorem login_outcomes
  (pwd_context : CryptContext) (jwt : Jwt) (SECRET_KEY : string)
  (payload : LoginPayload.t) (now : datetime) (db : Database) :
  (forall token,
     login pwd_context jwt SECRET_KEY payload now (Some db) = Ok token ->
     exists u,
       In u (coll_user db) /\
       User.email u = LoginPayload.email payload /\
       pwd_verify pwd_context (LoginPayload.password payload) (User.password_hash u) = true /\
       token_type token = "bearer" /\
       access_token token
       = jwt_encode jwt {| sub := Some (str (User._id u));
                           exp := Some (now + 14 * 24 * 60 * 60 * 1000000) |} SECRET_KEY) /\
  (forall e,
     login pwd_context jwt SECRET_KEY payload now (Some db) = Raise e ->
     e = HTTPException 400 "Incorrect email or password") /\
  (~ In (LoginPayload.email payload) (List.map User.email (coll_user db)) ->
   login pwd_context jwt SECRET_KEY payload now (Some db)
   = Raise (HTTPException 400 "Incorrect email or password")).
Proof.
  unfold login.
  destruct (get_user_by_email (LoginPayload.email payload) (Some db)) as [u|] eqn:Eu.
  - apply get_user_by_email_Some in Eu as [Hin Hmail].
    unfold verify_password.
    destruct (pwd_verify pwd_context (LoginPayload.password payload)
                (User.password_hash u)) eqn:Ev; cbn [negb].
    + split; [|split].
      * intros token [= <-]. exists u. repeat split; try assumption.
      * discriminate.
      * intros Hno. exfalso. apply Hno. apply in_map_iff. now exists u.
    + split; [discriminate|]. split; [now intros e [= <-]|reflexivity].
  - split; [discriminate|]. split; [now intros e [= <-]|reflexivity].
Qed.

(** [login_outcomes] at Dave with his password, and at an email nobody
    has. *)
Lemma login_outcomes_witness :
  (exists u,
     In u (coll_user Accounts.with_dave) /\
     User.email u = "dave@example.com" /\
     pwd_verify Accounts.plain_context "correct horse" (User.password_hash u) = true /\
     token_type {| access_token := Accounts.dave_id; token_type := "bearer" |} = "bearer" /\
     access_token {| access_token := Accounts.dave_id; token_type := "bearer" |}
     = jwt_encode Accounts.plain_jwt
         {| sub := Some (str (User._id u));
            exp := Some (100 + 14 * 24 * 60 * 60 * 1000000) |} "key") /\
  login Accounts.plain_context Accounts.plain_jwt "key"
    {| LoginPayload.email := "erin@example.com"; LoginPayload.password := "x" |}
    100 (Some Accounts.with_dave)
  = Raise (HTTPException 400 "Incorrect email or password").
Proof.
  split.
  - apply (proj1 (login_outcomes Accounts.plain_context Accounts.plain_jwt "key"
                    {| LoginPayload.email := "dave@example.com";
                       LoginPayload.password := "correct horse" |}
                    100 Accounts.with_dave)).
    reflexivity.
  - apply (proj2 (proj2 (login_outcomes Accounts.plain_context Accounts.plain_jwt "key"
                           {| LoginPayload.email := "erin@example.com";
                              LoginPayload.password := "x" |}
                           100 Accounts.with_dave))).
    intros [H|[H|[H|[H|[]]]]]; discriminate H.
Defined.

(** X6. Registration, login and authentication fit together.  Given a
    password context whose hashes verify and a codec that decodes its own
    tokens until they expire: after [register] has accepted an email and a
    password, [login] with the two issues a token, and until fourteen days
    have passed [get_current_user] takes that token to the user just
    registered, whose [me] is what [register] answered. *)
Theorem register_login_me
  (pwd_context : CryptContext) (jwt : Jwt) (SECRET_KEY : string)
  (user : UserCreate.t) (salt : string) (env : Env) (db : Database)
  (t_login t_call : datetime) :
  hash_verifies pwd_context ->
  decodes_own_tokens jwt ->
  ~ In (UserCreate.email user) (List.map User.email (coll_user db)) ->
  fresh_user_id (new_id env 0) db ->
  t_call <= t_login + minutes ACCESS_TOKEN_EXPIRE_MINUTES ->
  exists created db' token,
    register pwd_context user salt env (Some db) = (Ok (user_entity created), Some db') /\
    login pwd_context jwt SECRET_KEY
      {| LoginPayload.email := UserCreate.email user;
         LoginPayload.password := UserCreate.password user |} t_login (Some db')
    = Ok token /\
    get_current_user_on jwt SECRET_KEY (access_token token) t_call (Some db') = Ok created /\
    me created = user_entity created.
Proof.
  intros Hhash Hjwt Hfree Hfresh Hlive.
  set (created := user_doc pwd_context user salt env).
  set (db' := add_user created db).
  assert (Hreg : register pwd_context user salt env (Some db)
                 = (Ok (user_entity created), Some db')).
  { unfold register. apply get_user_by_email_None in Hfree. rewrite Hfree.
    cbn [add_user coll_user]. unfold insert_one. rewrite find_one_fresh_snoc.
    - reflexivity.
    - now apply fresh_user_id_filter.
    - unfold user_with_id, user_doc; cbn. apply oid_eqb_refl. }
  assert (Hmail : get_user_by_email (UserCreate.email user) (Some db') = Some created).
  { cbn. unfold insert_one. apply find_one_fresh_snoc.
    - apply Forall_forall. intros d Hd.
      destruct (with_email (UserCreate.email user) d) eqn:E; [|reflexivity].
      exfalso. apply Hfree. apply in_map_iff. exists d. split; [|exact Hd].
      now apply with_email_true.
    - apply with_email_true. reflexivity. }
  destruct (Hjwt (str (new_id env 0)) SECRET_KEY
              (t_login + minutes ACCESS_TOKEN_EXPIRE_MINUTES) t_call Hlive)
    as (c & Hdec & Hsub).
  exists created, db'.
  eexists. split; [exact Hreg|]. split.
  - unfold login. cbn [LoginPayload.email LoginPayload.password]. rewrite Hmail.
    unfold verify_password. cbn [created user_doc User.password_hash].
    unfold get_password_hash. rewrite Hhash. cbn [negb]. reflexivity.
  - split; [|reflexivity].
    cbn [access_token]. unfold create_access_token. cbn [sub].
    unfold get_current_user_on, token_sub.
    cbn [created user_doc User._id].
    unfold datetime in *. rewrite Hdec, Hsub.
    unfold get_user_by_id_on. rewrite get_user_by_id_eq, ObjectId_str. cbn [fst].
    cbn [db' add_user coll_user]. unfold insert_one. rewrite find_one_fresh_snoc.
    + reflexivity.
    + now apply fresh_user_id_filter.
    + unfold user_with_id; cbn. apply oid_eqb_refl.
Qed.

Lemma plain_context_verifies : hash_verifies Accounts.plain_context.
Proof. intros salt password. apply String.eqb_refl. Qed.

Lemma plain_jwt_decodes : decodes_own_tokens Accounts.plain_jwt.
Proof. intros s key e now _. eexists. split; reflexivity. Qed.

(** [register_login_me] at Dave, who registers, logs in at time 100 and
    calls a day later. *)
Lemma register_login_me_witness :
  exists created db' token,
    register Accounts.plain_context Accounts.dave "salt" (Scenario.env 7)
      (Some Scenario.users_only)
    = (Ok (user_entity created), Some db') /\
    login Accounts.plain_context Accounts.plain_jwt "key"
      {| LoginPayload.email := UserCreate.email Accounts.dave;
         LoginPayload.password := UserCreate.password Accounts.dave |} 100 (Some db')
    = Ok token /\
    get_current_user_on Accounts.plain_jwt "key" (access_token token) 86400000100 (Some db')
    = Ok created /\
    me created = user_entity created.
Proof.
  apply (register_login_me Accounts.plain_context Accounts.plain_jwt "key"
           Accounts.dave "salt" (Scenario.env 7) Scenario.users_only 100 86400000100).
  - exact plain_context_verifies.
  - exact plain_jwt_decodes.
  - intros [H|[H|[H|[]]]]; discriminate H.
  - repeat constructor; intros H; discriminate H.
  - vm_compute. discriminate.
Defined.

(** ** What every request keeps *)

Lemma update_one_map {A B} (filter : A -> bool) (set : A -> A) (f : A -> B) (l : list A) :
  (forall d, f (set d) = f d) ->
  List.map f (update_one filter set l) = List.map f l.
Proof.
  intros Hset. induction l as [|x l IH]; cbn [update_one List.map].
  - reflexivity.
  - destruct (filter x); cbn [List.map]; [now rewrite Hset|now rewrite IH].
Qed.

(** What a request made under a token can do to the store: append at
    most one like, one Match and one message, and rewrite user documents
    in place without touching [_id] or [email]. *)
Lemma serve_effect (subject : option string) (req : Request) (env : Env) (db : Database) :
  let db' := serve subject req env db in
  (exists more, coll_like db' = coll_like db ++ more /\ (List.length more <= 1)%nat) /\
  (exists more, coll_match db' = coll_match db ++ more /\ (List.length more <= 1)%nat) /\
  (exists more, coll_message db' = coll_message db ++ more /\ (List.length more <= 1)%nat) /\
  List.map User._id (coll_user db') = List.map User._id (coll_user db) /\
  List.map User.email (coll_user db') = List.map User.email (coll_user db).
Proof.
  cbv zeta. unfold serve.
  pose proof (get_current_user_db subject db) as Hdb.
  assert (Hsame : forall d : Database,
            (exists more, coll_like d = coll_like d ++ more /\ (List.length more <= 1)%nat) /\
            (exists more, coll_match d = coll_match d ++ more /\ (List.length more <= 1)%nat) /\
            (exists more, coll_message d = coll_message d ++ more
                          /\ (List.length more <= 1)%nat) /\
            List.map User._id (coll_user d) = List.map User._id (coll_user d) /\
            List.map User.email (coll_user d) = List.map User.email (coll_user d)).
  { intros d. repeat split; exists []; (split; [now rewrite app_nil_r|cbn; lia]). }
  destruct (get_current_user subject db) as [[user|e] db1]; cbn in Hdb; subst db1;
    [|apply Hsame].
  destruct req as [p| |p| |p|mid].
  - rewrite update_me_db. cbn [coll_user coll_like coll_match coll_message].
    split; [exists []; split; [now rewrite app_nil_r|cbn; lia]|].
    split; [exists []; split; [now rewrite app_nil_r|cbn; lia]|].
    split; [exists []; split; [now rewrite app_nil_r|cbn; lia]|].
    split; apply update_one_map; reflexivity.
  - apply Hsame.
  - destruct (like_db p user env db) as [->|[_ [->| ->]]]; [apply Hsame| |].
    + cbn [add_like coll_user coll_like coll_match coll_message]. unfold insert_one.
      split; [exists [like_doc p user env]; split; [reflexivity|cbn; lia]|].
      split; [exists []; split; [now rewrite app_nil_r|cbn; lia]|].
      split; [exists []; split; [now rewrite app_nil_r|cbn; lia]|].
      split; reflexivity.
    + cbn [add_like add_match coll_user coll_like coll_match coll_message].
      unfold insert_one.
      split; [exists [like_doc p user env]; split; [reflexivity|cbn; lia]|].
      split; [exists [match_doc p user env]; split; [reflexivity|cbn; lia]|].
      split; [exists []; split; [now rewrite app_nil_r|cbn; lia]|].
      split; reflexivity.
  - rewrite matches_db. apply Hsame.
  - destruct (send_message_db p user env db) as [->|(m & _ & _ & ->)]; [apply Hsame|].
    cbn [snd add_message coll_user coll_like coll_match coll_message]. unfold insert_one.
    split; [exists []; split; [now rewrite app_nil_r|cbn; lia]|].
    split; [exists []; split; [now rewrite app_nil_r|cbn; lia]|].
    split; [exists [msg p user env]; split; [reflexivity|cbn; lia]|].
    split; reflexivity.
  - rewrite get_messages_db. apply Hsame.
Qed.

(** What [register] can do to the store: append one user. *)
Lemma register_effect (pwd_context : CryptContext) (user : UserCreate.t) (salt : string)
  (env : Env) (db : Database) :
  serve_public pwd_context (PostRegister user salt) env db = db \/
  (~ In (UserCreate.email user) (List.map User.email (coll_user db)) /\
   serve_public pwd_context (PostRegister user salt) env db
   = add_user (user_doc pwd_context user salt env) db).
Proof.
  unfold serve_public, register.
  destruct (get_user_by_email (UserCreate.email user) (Some db)) eqn:E; [now left|].
  right. split; [now apply get_user_by_email_None|].
  destruct (find_one _ _); reflexivity.
Qed.

Lemma serve_public_unique_emails (pwd_context : CryptContext) (r : PublicRequest)
  (env : Env) (db : Database) :
  unique_emails db -> unique_emails (serve_public pwd_context r env db).
Proof.
  intros H. destruct r as [user salt|subject req].
  - destruct (register_effect pwd_context user salt env db) as [->|[Hfree ->]];
      [exact H|].
    unfold unique_emails, add_user, insert_one; cbn [coll_user].
    rewrite map_app. cbn [List.map].
    apply NoDup_app; [exact H|repeat constructor; intros []|].
    intros e He [<-|[]]. contradiction.
  - unfold unique_emails, serve_public.
    destruct (serve_effect subject req env db) as (_ & _ & _ & _ & Hmail).
    cbv zeta in Hmail. now rewrite Hmail.
Qed.

(** X7. No two accounts share an email: whatever registrations and
    requests under a token are served one after the other, a store in
    which the emails of the users are pairwise different stays so; a store
    without users is one. *)
Theorem emails_stay_unique
  (pwd_context : CryptContext) (reqs : list (PublicRequest * Env)) (db : Database) :
  unique_emails db -> unique_emails (serve_public_all pwd_context reqs db).
Proof.
  revert db. induction reqs as [|[r env] reqs IH]; intros db H; cbn [serve_public_all].
  - exact H.
  - apply IH. now apply serve_public_unique_emails.
Qed.

(** [emails_stay_unique] at two registrations with the email of Dave, one
    after the other, and a profile update by him in between. *)
Lemma emails_stay_unique_witness :
  unique_emails
    (serve_public_all Accounts.plain_context
       [ (PostRegister Accounts.dave "salt", Scenario.env 7);
         (WithSub (Some Accounts.dave_id)
            (PutMe {| ProfileUpdate.photos := None;
                      ProfileUpdate.bio := Some "hello";
                      ProfileUpdate.gender := None;
                      ProfileUpdate.show_me := None;
                      ProfileUpdate.age_range := None;
                      ProfileUpdate.distance_km := None;
                      ProfileUpdate.interests := None |}), Scenario.env 8);
         (PostRegister Accounts.dave "pepper", Scenario.env 9) ]
       Scenario.users_only).
Proof.
  apply (emails_stay_unique Accounts.plain_context).
  unfold unique_emails.
  repeat constructor; cbn; intuition discriminate.
Defined.

Lemma extends_refl {A} (l : list A) : extends l l.
Proof. exists []. now rewrite app_nil_r. Qed.

Lemma extends_trans {A} (l1 l2 l3 : list A) : extends l1 l2 -> extends l2 l3 -> extends l1 l3.
Proof. intros [m1 ->] [m2 ->]. exists (m1 ++ m2). now rewrite app_assoc. Qed.

Lemma serve_public_extends (pwd_context : CryptContext) (r : PublicRequest) (env : Env)
  (db : Database) :
  let db' := serve_public pwd_context r env db in
  extends (coll_like db) (coll_like db') /\
  extends (coll_match db) (coll_match db') /\
  extends (coll_message db) (coll_message db') /\
  extends (List.map User._id (coll_user db)) (List.map User._id (coll_user db')) /\
  extends (List.map User.email (coll_user db)) (List.map User.email (coll_user db')).
Proof.
  cbv zeta. destruct r as [user salt|subject req].
  - destruct (register_effect pwd_context user salt env db) as [->|[_ ->]].
    + repeat split; apply extends_refl.
    + cbn [add_user coll_user coll_like coll_match coll_message]. unfold insert_one.
      rewrite !map_app.
      repeat split; try apply extends_refl; eexists; reflexivity.
  - unfold serve_public.
    destruct (serve_effect subject req env db)
      as ((l & Hl & _) & (m & Hm & _) & (g & Hg & _) & Hid & Hmail).
    cbv zeta in Hid, Hmail. rewrite Hl, Hm, Hg, Hid, Hmail.
    repeat split; try apply extends_refl; eexists; reflexivity.
Qed.

(** X8. The store only grows: whatever registrations and requests under a
    token are served, every like, Match and message that was stored is
    still there afterwards, unchanged and in the same place, with at most
    new ones after it; and the users that were stored are still there, in
    the same order, each with the [_id] and the email it had. *)
Theorem requests_only_append
  (pwd_context : CryptContext) (reqs : list (PublicRequest * Env)) (db : Database) :
  let db' := serve_public_all pwd_context reqs db in
  extends (coll_like db) (coll_like db') /\
  extends (coll_match db) (coll_match db') /\
  extends (coll_message db) (coll_message db') /\
  extends (List.map User._id (coll_user db)) (List.map User._id (coll_user db')) /\
  extends (List.map User.email (coll_user db)) (List.map User.email (coll_user db')).
Proof.
  cbv zeta. revert db. induction reqs as [|[r env] reqs IH]; intros db;
    cbn [serve_public_all].
  - repeat split; apply extends_refl.
  - destruct (serve_public_extends pwd_context r env db) as (H1 & H2 & H3 & H4 & H5).
    destruct (IH (serve_public pwd_context r env db)) as (I1 & I2 & I3 & I4 & I5).
    cbv zeta in *.
    repeat split; eapply extends_trans; eassumption.
Qed.

(** ** One Match per pair, when requests come one after the other *)

Lemma is_match_between_sym (x y : string) (m : Match.t) :
  is_match_between x y m = is_match_between y x m.
Proof. unfold is_match_between. apply orb_comm. Qed.

Lemma count_matches_snoc (x y : string) (m : Match.t) (db : Database) :
  count_matches x y (add_match m db)
  = (count_matches x y db + (if is_match_between x y m then 1 else 0))%nat.
Proof.
  unfold count_matches, add_match, insert_one; cbn [coll_match].
  rewrite filter_app, length_app. cbn [List.filter].
  now destruct (is_match_between x y m).
Qed.

Lemma count_matches_none (x y : string) (db : Database) :
  find_one (is_match_between x y) (coll_match db) = None -> count_matches x y db = 0%nat.
Proof.
  intros H. unfold count_matches. rewrite find_one_None in H.
  induction (coll_match db) as [|m l IH]; [reflexivity|].
  cbn [List.filter]. rewrite (H m (or_introl eq_refl)). apply IH.
  intros d Hd. apply H. now right.
Qed.

(** [like] inserts a Match only when it has found none of the pair. *)
Lemma like_db_match (payload : LikePayload) (user : User.t) (env : Env) (db : Database) :
  snd (like payload user env db) = db \/
  snd (like payload user env db) = add_like (like_doc payload user env) db \/
  (find_one (is_match_between (str (User._id user)) (target_user_id payload))
     (coll_match db) = None /\
   snd (like payload user env db)
   = add_match (match_doc payload user env) (add_like (like_doc payload user env) db)).
Proof.
  pose proof (like_eq payload user env db) as E. cbv zeta in E. rewrite E. clear E.
  destruct (ObjectId (target_user_id payload)) as [oid|]; [|now left].
  destruct (find_one (user_with_id oid) (coll_user db)); [|now left].
  right. destruct (find_one _ (coll_like _)); [|now left].
  destruct (find_one _ (coll_match db)) eqn:E; [now left|right].
  now split.
Qed.

Lemma like_keeps_unique_matches (payload : LikePayload) (user : User.t) (env : Env)
  (db : Database) :
  unique_matches db -> unique_matches (snd (like payload user env db)).
Proof.
  intros H. destruct (like_db_match payload user env db) as [->|[->|[Hnone ->]]];
    [exact H|exact H|].
  intros x y. rewrite count_matches_snoc.
  destruct (is_match_between x y (match_doc payload user env)) eqn:E.
  - assert (Hzero : count_matches x y (add_like (like_doc payload user env) db) = 0%nat).
    { apply is_match_between_true in E. unfold pairs, match_doc in E; cbn in E.
      destruct E as [[<- <-]|[<- <-]].
      - now apply count_matches_none.
      - apply count_matches_none. cbn [add_like coll_match].
        apply find_one_None. intros d Hd. rewrite is_match_between_sym.
        revert d Hd. now apply find_one_None. }
    rewrite Hzero. lia.
  - specialize (H x y). unfold count_matches in *. cbn [add_like coll_match]. lia.
Qed.

Lemma serve_keeps_unique_matches (subject : option string) (req : Request) (env : Env)
  (db : Database) :
  unique_matches db -> unique_matches (serve subject req env db).
Proof.
  intros H. unfold serve.
  pose proof (get_current_user_db subject db) as Hdb.
  destruct (get_current_user subject db) as [[user|e] db1]; cbn in Hdb; subst db1;
    [|exact H].
  destruct req as [p| |p| |p|mid].
  - rewrite update_me_db. exact H.
  - exact H.
  - now apply like_keeps_unique_matches.
  - now rewrite matches_db.
  - destruct (send_message_db p user env db) as [->|(m & _ & _ & ->)]; exact H.
  - now rewrite get_messages_db.
Qed.

Lemma serve_public_keeps_unique_matches (pwd_context : CryptContext) (r : PublicRequest)
  (env : Env) (db : Database) :
  unique_matches db -> unique_matches (serve_public pwd_context r env db).
Proof.
  intros H. destruct r as [user salt|subject req].
  - destruct (register_effect pwd_context user salt env db) as [->|[_ ->]]; exact H.
  - now apply serve_keeps_unique_matches.
Qed.

(** X9. Served one after the other, requests never leave two Match
    records of one unordered pair: [like] inserts a Match only after it
    has looked for one of the pair, in either order, and found none.  A
    store in which no pair has two Match records stays so under any
    sequence of registrations and requests under a token. *)
Theorem one_match_per_pair_in_sequence
  (pwd_context : CryptContext) (reqs : list (PublicRequest * Env)) (db : Database) :
  unique_matches db ->
  forall x y, (count_matches x y (serve_public_all pwd_context reqs db) <= 1)%nat.
Proof.
  revert db. induction reqs as [|[r env] reqs IH]; intros db H; cbn [serve_public_all].
  - exact H.
  - apply IH. now apply serve_public_keeps_unique_matches.
Qed.

(** [one_match_per_pair_in_sequence] at Alice and Bob liking each other
    twice over, one request after the other. *)
Lemma one_match_per_pair_in_sequence_witness :
  (count_matches Scenario.alice_id Scenario.bob_id
     (serve_public_all Accounts.plain_context
        [ (WithSub (Some Scenario.alice_id)
             (PostLike {| target_user_id := Scenario.bob_id |}), Scenario.env 1);
          (WithSub (Some Scenario.bob_id)
             (PostLike {| target_user_id := Scenario.alice_id |}), Scenario.env 2);
          (WithSub (Some Scenario.alice_id)
             (PostLike {| target_user_id := Scenario.bob_id |}), Scenario.env 3);
          (WithSub (Some Scenario.bob_id)
             (PostLike {| target_user_id := Scenario.alice_id |}), Scenario.env 4) ]
        Scenario.users_only) <= 1)%nat.
Proof.
  apply (one_match_per_pair_in_sequence Accounts.plain_context).
  intros x y. cbn. lia.
Defined.

(** The same four requests, evaluated: the pair ends with exactly one
    Match. *)
Example four_likes_one_match :
  count_matches Scenario.alice_id Scenario.bob_id
    (serve_public_all Accounts.plain_context
       [ (WithSub (Some Scenario.alice_id)
            (PostLike {| target_user_id := Scenario.bob_id |}), Scenario.env 1);
         (WithSub (Some Scenario.bob_id)
            (PostLike {| target_user_id := Scenario.alice_id |}), Scenario.env 2);
         (WithSub (Some Scenario.alice_id)
            (PostLike {| target_user_id := Scenario.bob_id |}), Scenario.env 3);
         (WithSub (Some Scenario.bob_id)
            (PostLike {| target_user_id := Scenario.alice_id |}), Scenario.env 4) ]
       Scenario.users_only) = 1%nat.
Proof. reflexivity. Qed.

(** ** The like handler, further *)

(** X10. What [like] answers is what it has done.  When it answers, the
    answer is [ok: true], exactly one like has been appended to the ledger
    (a like that is already there is stored again), users and messages are
    untouched, and [match] is [true] exactly when this call has inserted a
    Match, which it does only if the pair had none.  A target that is a
    well-formed identifier of no stored user gets [NotFound]; a target
    that is not 24 characters long, or has a character in it that is
    neither a hexadecimal digit nor a blank, raises [InvalidId].  Nothing
    else is raised, [InvalidId] only for a target that is not 24
    hexadecimal digits and [NotFound] only when no stored user has the
    identifier the target spells; and when [like] raises, nothing has been
    stored. *)
Theorem like_answer_reports_effect
  (payload : LikePayload) (user : User.t) (env : Env) (db : Database) :
  let a := str (User._id user) in
  let t := target_user_id payload in
  (forall r db',
     like payload user env db = (Ok r, db') ->
     like_ok r = true /\
     coll_like db' = coll_like db ++
       [ {| Like._id := new_id env 0; Like.liker_id := a;
            Like.liked_id := t; Like.created_at := utcnow env 0 |} ] /\
     coll_user db' = coll_user db /\
     coll_message db' = coll_message db /\
     ((like_match r = true /\
       coll_match db' = coll_match db ++
         [ {| Match._id := new_id env 1; Match.user_a := a;
              Match.user_b := t; Match.created_at := utcnow env 1 |} ] /\
       ~ matched db a t)
      \/
      (like_match r = false /\ coll_match db' = coll_match db))) /\
  (forall oid, ObjectId t = Some oid ->
     (forall d, In d (coll_user db) -> User._id d <> oid) ->
     like payload user env db = (Raise (NotFound "User not found"), db)) /\
  (surely_invalid t -> like payload user env db = (Raise InvalidId, db)) /\
  (forall e db',
     like payload user env db = (Raise e, db') ->
     db' = db /\
     ((e = NotFound "User not found" /\ resolves_to_nobody db t)
      \/ (e = InvalidId /\ ObjectId t = None))).
Proof.
  intros a t.
  pose proof (like_eq payload user env db) as E. cbv zeta in E. rewrite E. clear E.
  fold a t.
  destruct (ObjectId t) as [oid|] eqn:Hoid.
  - destruct (find_one (user_with_id oid) (coll_user db)) as [target|] eqn:Ht.
    + assert (Hstored : In target (coll_user db) /\ User._id target = oid).
      { apply find_one_Some in Ht as [Hin Hid]. apply oid_eqb_eq in Hid. now split. }
      assert (Hnf : forall X : Prop,
                (forall oid', Some oid = Some oid' ->
                   (forall d, In d (coll_user db) -> User._id d <> oid') -> X)).
      { intros X oid' [= <-] Hnone. exfalso. now apply (Hnone target). }
      assert (Hinv : forall X : Prop, surely_invalid t -> X).
      { intros X Hs. apply surely_invalid_ObjectId in Hs. congruence. }
      destruct (find_one (is_like t a) (coll_like _)) as [mutual|].
      * destruct (find_one (is_match_between a t) (coll_match db)) as [m|] eqn:Em.
        -- split; [|split; [apply Hnf|split; [apply Hinv|discriminate]]].
           intros r db' [= <- <-].
           repeat split. right. now split.
        -- split; [|split; [apply Hnf|split; [apply Hinv|discriminate]]].
           intros r db' [= <- <-].
           repeat split. left. repeat split.
           intros Hm. apply matched_find_one in Hm as [m Hm]. congruence.
      * split; [|split; [apply Hnf|split; [apply Hinv|discriminate]]].
        intros r db' [= <- <-].
        repeat split. right. now split.
    + split; [discriminate|]. split; [reflexivity|]. split.
      * intros Hs. apply surely_invalid_ObjectId in Hs. congruence.
      * intros e db' [= <- <-]. split; [reflexivity|].
        left. split; [reflexivity|].
        intros d Hd Heq. assert (Hd' : oid = User._id d) by congruence. subst oid.
        rewrite find_one_None in Ht. specialize (Ht d Hd).
        unfold user_with_id in Ht. now rewrite oid_eqb_refl in Ht.
  - split; [discriminate|]. split; [discriminate|]. split; [reflexivity|].
    intros e db' [= <- <-]. split; [reflexivity|].
    right. now split.
Qed.

(** [like_answer_reports_effect] at Bob liking Alice back, at Alice liking
    the identifier of nobody, and at Alice liking a name. *)
Lemma like_answer_reports_effect_witness :
  (like_ok {| like_ok := true; like_match := true |} = true /\
   coll_like Scenario.matched_db
   = coll_like Scenario.one_like ++
       [ {| Like._id := Scenario.oid Byte.x20; Like.liker_id := Scenario.bob_id;
            Like.liked_id := Scenario.alice_id; Like.created_at := 20 |} ] /\
   coll_user Scenario.matched_db = coll_user Scenario.one_like /\
   coll_message Scenario.matched_db = coll_message Scenario.one_like /\
   ((like_match {| like_ok := true; like_match := true |} = true /\
     coll_match Scenario.matched_db
     = coll_match Scenario.one_like ++
         [ {| Match._id := Scenario.oid Byte.x21; Match.user_a := Scenario.bob_id;
              Match.user_b := Scenario.alice_id; Match.created_at := 21 |} ] /\
     ~ matched Scenario.one_like Scenario.bob_id Scenario.alice_id)
    \/
    (like_match {| like_ok := true; like_match := true |} = false /\
     coll_match Scenario.matched_db = coll_match Scenario.one_like)))
  /\
  like {| target_user_id := Accounts.dave_id |} Scenario.alice (Scenario.env 1)
    Scenario.users_only
  = (Raise (NotFound "User not found"), Scenario.users_only)
  /\
  like {| target_user_id := "bob" |} Scenario.alice (Scenario.env 1) Scenario.users_only
  = (Raise InvalidId, Scenario.users_only).
Proof.
  split; [|split].
  - apply (proj1 (like_answer_reports_effect {| target_user_id := Scenario.alice_id |}
                    Scenario.bob (Scenario.env 2) Scenario.one_like)).
    reflexivity.
  - apply (proj1 (proj2 (like_answer_reports_effect
                           {| target_user_id := Accounts.dave_id |}
                           Scenario.alice (Scenario.env 1) Scenario.users_only))
             (Scenario.oid Byte.x70)); [reflexivity|].
    intros d Hd. cbn in Hd.
    repeat (destruct Hd as [<-|Hd]; [vm_compute; discriminate|]). destruct Hd.
  - apply (proj1 (proj2 (proj2 (like_answer_reports_effect
                                  {| target_user_id := "bob" |}
                                  Scenario.alice (Scenario.env 1) Scenario.users_only)))).
    left. cbn. lia.
Defined.

Lemma stored_user_found (db : Database) (oid : ObjectIdT) :
  In oid (List.map User._id (coll_user db)) ->
  exists d, find_one (user_with_id oid) (coll_user db) = Some d.
Proof.
  intros Hin. apply in_map_iff in Hin as (d & Hd & Hin).
  destruct (find_one (user_with_id oid) (coll_user db)) as [d'|] eqn:E; [eauto|].
  rewrite find_one_None in E. specialize (E d Hin).
  unfold user_with_id in E. apply oid_eqb_neq in E. contradiction.
Qed.

(** The two calls of a mutual like, one after the other. *)
Lemma mutual_likes_steps (db : Database) (ua ub : User.t) (e1 e2 : Env) :
  let a := str (User._id ua) in
  let b := str (User._id ub) in
  let p1 := {| target_user_id := b |} in
  let p2 := {| target_user_id := a |} in
  let db1 := add_like (like_doc p1 ua e1) db in
  let db2 := add_match (match_doc p2 ub e2) (add_like (like_doc p2 ub e2) db1) in
  In (User._id ua) (List.map User._id (coll_user db)) ->
  In (User._id ub) (List.map User._id (coll_user db)) ->
  User._id ua <> User._id ub ->
  ~ likes db b a ->
  ~ matched db a b ->
  like p1 ua e1 db = (Ok {| like_ok := true; like_match := false |}, db1) /\
  like p2 ub e2 db1 = (Ok {| like_ok := true; like_match := true |}, db2) /\
  find_one (is_match_between b a) (coll_match db) = None.
Proof.
  intros a b p1 p2 db1 db2 Ha Hb Hne Hno Hnm.
  assert (Hab : a <> b) by (intros H; apply Hne; now apply str_inj).
  apply stored_user_found in Ha as [da Hda]. apply stored_user_found in Hb as [db_ Hdb].
  assert (Hnone : find_one (is_match_between b a) (coll_match db) = None).
  { destruct (find_one (is_match_between b a) (coll_match db)) as [m|] eqn:E;
      [|reflexivity].
    exfalso. apply Hnm. apply matched_sym. apply matched_find_one. eauto. }
  split; [|split; [|exact Hnone]].
  - pose proof (like_eq p1 ua e1 db) as E. cbv zeta in E. rewrite E. clear E.
    cbn [p1 target_user_id]. fold a b. unfold b at 1. rewrite ObjectId_str, Hdb.
    replace (find_one (is_like b a) (coll_like (add_like (like_doc p1 ua e1) db)))
      with (@None Like.t); [reflexivity|].
    symmetry. cbn [add_like coll_like]. unfold insert_one.
    rewrite find_one_app. apply not_likes_find_one in Hno. rewrite Hno.
    unfold find_one, is_like, like_doc; cbn.
    destruct (String.eqb_spec (str (User._id ua)) b) as [H|H]; [contradiction|reflexivity].
  - pose proof (like_eq p2 ub e2 db1) as E. cbv zeta in E. rewrite E. clear E.
    cbn [p2 target_user_id]. fold a b. unfold a at 1. rewrite ObjectId_str.
    cbn [db1 add_like coll_user]. rewrite Hda.
    assert (Hmut : exists d, find_one (is_like a b)
                     (coll_like (add_like (like_doc p2 ub e2)
                                   (add_like (like_doc p1 ua e1) db))) = Some d).
    { apply likes_find_one. apply likes_add_like. exists (like_doc p1 ua e1). split.
      - cbn. unfold insert_one. apply in_or_app. right. now left.
      - now split. }
    destruct Hmut as [d Hmut]. unfold db1. rewrite Hmut.
    cbn [add_like coll_match]. rewrite Hnone. reflexivity.
Qed.

(** X11. Two stored users A and B, B not having liked A and the pair not
    being matched: when A likes B and then B likes A, the first call
    answers [match: false] and the second [match: true]; the ledger gains
    the two likes, and the store gains exactly one Match, made by the
    second call, with B, the later liker, as [user_a] and A as
    [user_b]. *)
Theorem mutual_likes_in_sequence
  (db : Database) (ua ub : User.t) (e1 e2 : Env) :
  let a := str (User._id ua) in
  let b := str (User._id ub) in
  In (User._id ua) (List.map User._id (coll_user db)) ->
  In (User._id ub) (List.map User._id (coll_user db)) ->
  User._id ua <> User._id ub ->
  ~ likes db b a ->
  ~ matched db a b ->
  exists db1 db2,
    like {| target_user_id := b |} ua e1 db
    = (Ok {| like_ok := true; like_match := false |}, db1) /\
    like {| target_user_id := a |} ub e2 db1
    = (Ok {| like_ok := true; like_match := true |}, db2) /\
    coll_like db2 =
      coll_like db ++
      [ {| Like._id := new_id e1 0; Like.liker_id := a; Like.liked_id := b;
           Like.created_at := utcnow e1 0 |};
        {| Like._id := new_id e2 0; Like.liker_id := b; Like.liked_id := a;
           Like.created_at := utcnow e2 0 |} ] /\
    coll_match db2 =
      coll_match db ++
      [ {| Match._id := new_id e2 1; Match.user_a := b; Match.user_b := a;
           Match.created_at := utcnow e2 1 |} ] /\
    count_matches a b db2 = 1%nat.
Proof.
  intros a b Ha Hb Hne Hno Hnm.
  destruct (mutual_likes_steps db ua ub e1 e2 Ha Hb Hne Hno Hnm)
    as (Hfirst & Hsecond & Hnone).
  fold a b in Hfirst, Hsecond, Hnone.
  set (p1 := {| target_user_id := b |}) in *. set (p2 := {| target_user_id := a |}) in *.
  set (db1 := add_like (like_doc p1 ua e1) db) in *.
  set (db2 := add_match (match_doc p2 ub e2) (add_like (like_doc p2 ub e2) db1)) in *.
  exists db1, db2. split; [exact Hfirst|]. split; [exact Hsecond|].
  split; [|split].
  - cbn [db2 db1 add_match add_like coll_like]. unfold insert_one.
    rewrite <- app_assoc. reflexivity.
  - reflexivity.
  - unfold db2. rewrite count_matches_snoc.
    assert (Hzero : count_matches a b (add_like (like_doc p2 ub e2) db1) = 0%nat).
    { apply count_matches_none. cbn [db1 add_like coll_match].
      apply find_one_None. intros d Hd. rewrite is_match_between_sym.
      revert d Hd. now apply find_one_None. }
    rewrite Hzero.
    replace (is_match_between a b (match_doc p2 ub e2)) with true; [reflexivity|].
    symmetry. apply is_match_between_true. right. now split.
Qed.

(** [mutual_likes_in_sequence] at Alice and Bob. *)
Lemma mutual_likes_in_sequence_witness :
  let a := str (User._id Scenario.alice) in
  let b := str (User._id Scenario.bob) in
  exists db1 db2,
    like {| target_user_id := b |} Scenario.alice (Scenario.env 1) Scenario.users_only
    = (Ok {| like_ok := true; like_match := false |}, db1) /\
    like {| target_user_id := a |} Scenario.bob (Scenario.env 2) db1
    = (Ok {| like_ok := true; like_match := true |}, db2) /\
    coll_like db2 =
      coll_like Scenario.users_only ++
      [ {| Like._id := new_id (Scenario.env 1) 0; Like.liker_id := a; Like.liked_id := b;
           Like.created_at := utcnow (Scenario.env 1) 0 |};
        {| Like._id := new_id (Scenario.env 2) 0; Like.liker_id := b; Like.liked_id := a;
           Like.created_at := utcnow (Scenario.env 2) 0 |} ] /\
    coll_match db2 =
      coll_match Scenario.users_only ++
      [ {| Match._id := new_id (Scenario.env 2) 1; Match.user_a := b; Match.user_b := a;
           Match.created_at := utcnow (Scenario.env 2) 1 |} ] /\
    count_matches a b db2 = 1%nat.
Proof.
  apply (mutual_likes_in_sequence Scenario.users_only Scenario.alice Scenario.bob
           (Scenario.env 1) (Scenario.env 2)).
  - left. reflexivity.
  - right. left. reflexivity.
  - intros H. discriminate H.
  - intros (d & Hin & _). exact Hin.
  - intros (m & Hin & _). exact Hin.
Defined.

(** ** The message log, further *)

(** X12. What is posted is listed: after a participant has posted a
    message to a match, every participant who lists the match under the
    same identifier finds that message in the listing, with the sender, the
    text and the timestamp it was stored with, and the listing is one
    longer than before. *)
Theorem posted_message_is_listed
  (db : Database) (payload : MessagePayload.t) (sender reader : User.t) (env : Env)
  (m : Match.t) :
  resolves_match db (MessagePayload.match_id payload) m ->
  participant (str (User._id sender)) m ->
  participant (str (User._id reader)) m ->
  exists db' before after,
    send_message payload sender env db = (Ok {| send_ok := true |}, db') /\
    get_messages (MessagePayload.match_id payload) reader db = (Ok before, db) /\
    get_messages (MessagePayload.match_id payload) reader db' = (Ok after, db') /\
    In {| msg_id := str (new_id env 0);
          msg_sender_id := str (User._id sender);
          msg_text := MessagePayload.text payload;
          msg_created_at := utcnow env 0 |} after /\
    List.length after = S (List.length before).
Proof.
  intros Hm Hs Hr.
  set (mid := MessagePayload.match_id payload).
  set (db' := add_message (msg payload sender env) db).
  exists db'.
  exists (List.map message_item
            (sort (ascending Message.created_at) (find (in_match mid) (coll_message db)))).
  exists (List.map message_item
            (sort (ascending Message.created_at) (find (in_match mid) (coll_message db')))).
  assert (Hsend : send_message payload sender env db = (Ok {| send_ok := true |}, db')).
  { destruct Hm as (oid & Hoid & Hf). apply is_participant_true in Hs.
    now rewrite send_message_eq, Hoid, Hf, Hs. }
  assert (Hfind : find (in_match mid) (coll_message db')
                  = find (in_match mid) (coll_message db) ++ [msg payload sender env]).
  { cbn [db' add_message coll_message]. unfold insert_one. rewrite find_app. f_equal.
    unfold find; cbn [List.filter].
    replace (in_match mid (msg payload sender env)) with true; [reflexivity|].
    symmetry. now apply in_match_true. }
  assert (Hperm := sort_Permutation (ascending Message.created_at)
                     (find (in_match mid) (coll_message db'))).
  split; [exact Hsend|].
  split; [now apply get_messages_participant with m|].
  split; [now apply get_messages_participant with m|].
  split.
  - change {| msg_id := str (new_id env 0);
              msg_sender_id := str (User._id sender);
              msg_text := MessagePayload.text payload;
              msg_created_at := utcnow env 0 |}
      with (message_item (msg payload sender env)).
    apply in_map. apply (Permutation_in _ (Permutation_sym Hperm)).
    rewrite Hfind. apply in_or_app. right. now left.
  - rewrite !length_map.
    rewrite (Permutation_length Hperm), Hfind, length_app.
    rewrite (Permutation_length
               (sort_Permutation (ascending Message.created_at)
                  (find (in_match mid) (coll_message db)))).
    cbn. lia.
Qed.

(** [posted_message_is_listed] at Alice writing "hi" and Bob reading. *)
Lemma posted_message_is_listed_witness :
  exists db' before after,
    send_message {| MessagePayload.match_id := Scenario.match_ab_id;
                    MessagePayload.text := "hi" |}
      Scenario.alice (Scenario.env 3) Scenario.matched_db
    = (Ok {| send_ok := true |}, db') /\
    get_messages Scenario.match_ab_id Scenario.bob Scenario.matched_db
    = (Ok before, Scenario.matched_db) /\
    get_messages Scenario.match_ab_id Scenario.bob db' = (Ok after, db') /\
    In {| msg_id := str (new_id (Scenario.env 3) 0);
          msg_sender_id := str (User._id Scenario.alice);
          msg_text := "hi";
          msg_created_at := utcnow (Scenario.env 3) 0 |} after /\
    List.length after = S (List.length before).
Proof.
  apply (posted_message_is_listed Scenario.matched_db
           {| MessagePayload.match_id := Scenario.match_ab_id;
              MessagePayload.text := "hi" |}
           Scenario.alice Scenario.bob (Scenario.env 3)
           {| Match._id := Scenario.oid Byte.x21;
              Match.user_a := Scenario.bob_id;
              Match.user_b := Scenario.alice_id;
              Match.created_at := 21 |}).
  - eexists. split; reflexivity.
  - right. reflexivity.
  - left. reflexivity.
Defined.

(** X13. The log is kept under the identifier as the sender spelled it.
    [ObjectId] reads hexadecimal digits in either case, so two spellings
    can name one Match; a message posted under one of them is stored with
    that spelling and is not listed under the other: there the listing is
    what it was before the message was posted. *)
Theorem messages_kept_by_spelling
  (db : Database) (payload : MessagePayload.t) (other : string)
  (sender reader : User.t) (env : Env) (m : Match.t) :
  resolves_match db (MessagePayload.match_id payload) m ->
  ObjectId other = ObjectId (MessagePayload.match_id payload) ->
  other <> MessagePayload.match_id payload ->
  participant (str (User._id sender)) m ->
  participant (str (User._id reader)) m ->
  exists db' items,
    send_message payload sender env db = (Ok {| send_ok := true |}, db') /\
    get_messages other reader db = (Ok items, db) /\
    get_messages other reader db' = (Ok items, db').
Proof.
  intros Hm Hsame Hdiff Hs Hr.
  set (db' := add_message (msg payload sender env) db).
  exists db'.
  exists (List.map message_item
            (sort (ascending Message.created_at) (find (in_match other) (coll_message db)))).
  assert (Hother : resolves_match db other m).
  { destruct Hm as (oid & Hoid & Hf). exists oid. split; [congruence|exact Hf]. }
  split.
  - destruct Hm as (oid & Hoid & Hf). apply is_participant_true in Hs.
    now rewrite send_message_eq, Hoid, Hf, Hs.
  - split; [now apply get_messages_participant with m|].
    rewrite (get_messages_participant db' other reader m Hother Hr).
    do 3 f_equal. cbn [db' add_message coll_message]. unfold insert_one.
    rewrite find_app. unfold find at 2; cbn [List.filter].
    replace (in_match other (msg payload sender env)) with false.
    + now rewrite app_nil_r.
    + symmetry. unfold in_match, msg; cbn. apply String.eqb_neq. congruence.
Qed.

(** [messages_kept_by_spelling] at the Match [...2a] of Alice and Bob:
    Alice posts under [...2a], Bob lists under [...2A]. *)
Lemma messages_kept_by_spelling_witness :
  exists db' items,
    send_message {| MessagePayload.match_id := "00000000000000000000002a";
                    MessagePayload.text := "hi" |}
      Scenario.alice (Scenario.env 3) Accounts.lettered
    = (Ok {| send_ok := true |}, db') /\
    get_messages "00000000000000000000002A" Scenario.bob Accounts.lettered
    = (Ok items, Accounts.lettered) /\
    get_messages "00000000000000000000002A" Scenario.bob db' = (Ok items, db').
Proof.
  apply (messages_kept_by_spelling Accounts.lettered
           {| MessagePayload.match_id := "00000000000000000000002a";
              MessagePayload.text := "hi" |}
           "00000000000000000000002A" Scenario.alice Scenario.bob (Scenario.env 3)
           Accounts.match_2a).
  - eexists. split; reflexivity.
  - reflexivity.
  - intros H. discriminate H.
  - right. reflexivity.
  - left. reflexivity.
Defined.

(** The same, evaluated: Bob lists nothing under [...2A] and the message
    under [...2a]. *)
Example spelling_of_match_id :
  let db' := snd (send_message {| MessagePayload.match_id := "00000000000000000000002a";
                                  MessagePayload.text := "hi" |}
                    Scenario.alice (Scenario.env 3) Accounts.lettered) in
  fst (get_messages "00000000000000000000002A" Scenario.bob db') = Ok [] /\
  fst (get_messages "00000000000000000000002a" Scenario.bob db')
  = Ok [ {| msg_id := "000000000000000000000030";
            msg_sender_id := Scenario.alice_id;
            msg_text := "hi";
            msg_created_at := 30 |} ].
Proof. split; reflexivity. Qed.

(** ** Likes under another spelling of the target *)

Lemma like_keeps_likers_as_written (payload : LikePayload) (user : User.t) (env : Env)
  (db : Database) :
  likers_as_written db -> likers_as_written (snd (like payload user env db)).
Proof.
  intros H. unfold likers_as_written.
  destruct (like_db payload user env db) as [->|[_ [->| ->]]]; [exact H| |];
    cbn [add_match add_like coll_like]; unfold insert_one;
    (apply Forall_app; split; [exact H|]);
    repeat constructor; now exists (User._id user).
Qed.

(** No request writes a liker otherwise than [str] does. *)
Lemma serve_public_all_likers (pwd_context : CryptContext)
  (reqs : list (PublicRequest * Env)) (db : Database) :
  likers_as_written db -> likers_as_written (serve_public_all pwd_context reqs db).
Proof.
  revert db. induction reqs as [|[r env] reqs IH]; intros db H; cbn [serve_public_all].
  - exact H.
  - apply IH. destruct r as [user salt|subject req].
    + destruct (register_effect pwd_context user salt env db) as [->|[_ ->]]; exact H.
    + unfold serve_public, serve.
      pose proof (get_current_user_db subject db) as Hdb.
      destruct (get_current_user subject db) as [[user|e] db1]; cbn in Hdb; subst db1;
        [|exact H].
      destruct req as [p| |p| |p|mid].
      * rewrite update_me_db. exact H.
      * exact H.
      * now apply like_keeps_likers_as_written.
      * now rewrite matches_db.
      * destruct (send_message_db p user env db) as [->|(m & _ & _ & ->)]; exact H.
      * now rewrite get_messages_db.
Qed.

(** X14. A like is matched against the ledger by the spelling of the
    target.  The ledger names every liker in the lower-case digits of
    [str]; a target written otherwise (an upper-case digit in it) still
    resolves to its user, so the like is accepted and stored, but the
    reverse-direction lookup then finds nothing: the answer is
    [match: false] and no Match is made, whatever likes the ledger holds. *)
Theorem like_under_other_spelling
  (db : Database) (payload : LikePayload) (user : User.t) (env : Env) :
  likers_as_written db ->
  (forall oid, ObjectId (target_user_id payload) = Some oid ->
               str oid <> target_user_id payload) ->
  forall r db',
    like payload user env db = (Ok r, db') ->
    like_match r = false /\
    coll_match db' = coll_match db /\
    coll_like db' = coll_like db ++ [like_doc payload user env].
Proof.
  intros Hlikers Hspell r db'.
  pose proof (like_eq payload user env db) as E. cbv zeta in E. rewrite E. clear E.
  destruct (ObjectId (target_user_id payload)) as [oid|] eqn:Hoid; [|discriminate].
  destruct (find_one (user_with_id oid) (coll_user db)); [|discriminate].
  replace (find_one (is_like (target_user_id payload) (str (User._id user)))
             (coll_like (add_like (like_doc payload user env) db)))
    with (@None Like.t).
  - intros [= <- <-]. repeat split.
  - symmetry. apply find_one_None. intros d Hd.
    cbn [add_like coll_like] in Hd. unfold insert_one in Hd.
    apply in_app_or in Hd.
    assert (Hd' : exists o, Like.liker_id d = str o).
    { destruct Hd as [Hd|[<-|[]]].
      - unfold likers_as_written in Hlikers. rewrite Forall_forall in Hlikers.
        now apply Hlikers.
      - now exists (User._id user). }
    destruct Hd' as [o Ho]. unfold is_like. rewrite Ho.
    destruct (String.eqb_spec (str o) (target_user_id payload)) as [H|H]; [|reflexivity].
    exfalso. apply (Hspell o); [|exact H].
    rewrite <- H, ObjectId_str in Hoid. now symmetry.
Qed.

(** [like_under_other_spelling] at Bob liking Alice back under the
    spelling [...0A] of her identifier. *)
Lemma like_under_other_spelling_witness :
  let back := {| target_user_id := "00000000000000000000000A" |} in
  let db' := add_like (like_doc back Scenario.bob (Scenario.env 2)) Scenario.one_like in
  like_match {| like_ok := true; like_match := false |} = false /\
  coll_match db' = coll_match Scenario.one_like /\
  coll_like db' = coll_like Scenario.one_like
                  ++ [like_doc back Scenario.bob (Scenario.env 2)].
Proof.
  intros back db'.
  apply (like_under_other_spelling Scenario.one_like back Scenario.bob (Scenario.env 2)).
  - repeat constructor. exists (User._id Scenario.alice). reflexivity.
  - intros oid H. vm_compute in H. injection H as <-. vm_compute. discriminate.
  - reflexivity.
Defined.

(** The same, evaluated: Alice has liked Bob, Bob likes Alice under
    [...0A]; the like is stored and the two are not matched. *)
Example like_back_in_upper_case :
  like {| target_user_id := "00000000000000000000000A" |} Scenario.bob (Scenario.env 2)
    Scenario.one_like
  = (Ok {| like_ok := true; like_match := false |},
     add_like {| Like._id := Scenario.oid Byte.x20;
                 Like.liker_id := Scenario.bob_id;
                 Like.liked_id := "00000000000000000000000A";
                 Like.created_at := 20 |} Scenario.one_like).
Proof. reflexivity. Qed.

(** ** The discovery feed *)

Lemma In_of_firstn {A} (n : nat) (l : list A) (x : A) : In x (List.firstn n l) -> In x l.
Proof. intros H. rewrite <- (firstn_skipn n l). apply in_or_app. now left. Qed.

Lemma filter_length_lt {A} (f : A -> bool) (l : list A) (x : A) :
  In x l -> f x = false -> (List.length (List.filter f l) < List.length l)%nat.
Proof.
  intros Hin Hx. induction l as [|y l IH]; [destruct Hin|].
  cbn [List.filter]. pose proof (filter_length_le f l) as Hle.
  destruct Hin as [->|Hin].
  - rewrite Hx. cbn. lia.
  - specialize (IH Hin). destruct (f y); cbn; lia.
Qed.

(** X15. [discover] writes nothing and offers at most fifty users; every
    user it offers is a stored user other than the caller; when the caller
    asks to be shown "male" or "female", every user offered has that
    gender; with any other preference, or none, gender plays no part. *)
Theorem discover_feed (user : User.t) (db : Database) :
  exists shown,
    discover user db = (Ok (List.map user_entity shown), db) /\
    (List.length shown <= 50)%nat /\
    (forall d, In d shown ->
       In d (coll_user db) /\
       User._id d <> User._id user /\
       (forall pref, User.show_me user = Some pref ->
                     pref = "male" \/ pref = "female" ->
                     User.gender d = Some pref)) /\
    (User.show_me user <> Some "male" -> User.show_me user <> Some "female" ->
     forall d, In d (List.firstn 50 (coll_user db)) ->
               User._id d <> User._id user -> In d shown).
Proof.
  unfold discover, bind, db_user_find, ret.
  eexists. split; [reflexivity|].
  set (query := match User.show_me user with
                | Some pref =>
                    if String.eqb pref "male" || String.eqb pref "female"
                    then fun d => option_string_eqb (User.gender d) pref
                    else fun _ => true
                | None => fun _ => true
                end).
  split; [|split].
  - eapply Nat.le_trans; [apply filter_length_le|]. apply firstn_le_length.
  - intros d Hd. apply filter_In in Hd as [Hd Hself].
    apply In_of_firstn in Hd. apply filter_In in Hd as [Hin Hq].
    split; [exact Hin|]. split.
    + apply negb_true_iff, String.eqb_neq in Hself. congruence.
    + intros pref Hpref Hmf. unfold query in Hq. rewrite Hpref in Hq.
      replace (String.eqb pref "male" || String.eqb pref "female") with true in Hq.
      * unfold option_string_eqb in Hq.
        destruct (User.gender d) as [g|]; [|discriminate].
        apply String.eqb_eq in Hq. now subst.
      * destruct Hmf as [-> | ->]; reflexivity.
  - intros Hm Hf d Hd Hne.
    assert (Hq : forall l : list User.t, find query l = l).
    { intros l. unfold find. induction l as [|x l IH]; [reflexivity|].
      cbn [List.filter]. rewrite IH.
      replace (query x) with true; [reflexivity|].
      unfold query. destruct (User.show_me user) as [pref|] eqn:Es; [|reflexivity].
      destruct (String.eqb_spec pref "male") as [E|_]; [exfalso; apply Hm; now rewrite E|].
      destruct (String.eqb_spec pref "female") as [E|_];
        [exfalso; apply Hf; now rewrite E|reflexivity]. }
    rewrite Hq. apply filter_In. split; [exact Hd|].
    apply negb_true_iff, String.eqb_neq. intros H. apply Hne. now apply str_inj.
Qed.

(** X16. The limit of fifty is taken before the caller is left out: with
    no preference for a gender, a caller who is among the first fifty
    stored users is offered at most forty-nine, drawn from those fifty;
    users stored after them are not considered. *)
Theorem discover_counts_the_caller (user : User.t) (db : Database) :
  User.show_me user <> Some "male" ->
  User.show_me user <> Some "female" ->
  In (User._id user) (List.map User._id (List.firstn 50 (coll_user db))) ->
  exists shown,
    discover user db = (Ok (List.map user_entity shown), db) /\
    (List.length shown <= 49)%nat /\
    (forall d, In d shown -> In d (List.firstn 50 (coll_user db))).
Proof.
  intros Hm Hf Hin.
  unfold discover, bind, db_user_find, ret.
  eexists. split; [reflexivity|].
  set (query := match User.show_me user with
                | Some pref =>
                    if String.eqb pref "male" || String.eqb pref "female"
                    then fun d => option_string_eqb (User.gender d) pref
                    else fun _ => true
                | None => fun _ => true
                end).
  assert (Hq : forall l : list User.t, find query l = l).
  { intros l. unfold find. induction l as [|x l IH]; [reflexivity|].
    cbn [List.filter]. rewrite IH.
    replace (query x) with true; [reflexivity|].
    unfold query. destruct (User.show_me user) as [pref|] eqn:Es; [|reflexivity].
    destruct (String.eqb_spec pref "male") as [E|_]; [exfalso; apply Hm; now rewrite E|].
    destruct (String.eqb_spec pref "female") as [E|_];
      [exfalso; apply Hf; now rewrite E|reflexivity]. }
  rewrite Hq. split.
  - apply in_map_iff in Hin as (d & Hid & Hd).
    assert (Hlt := filter_length_lt
                     (fun d => negb (String.eqb (str (User._id d)) (str (User._id user))))
                     (List.firstn 50 (coll_user db)) d Hd).
    cbv beta in Hlt. rewrite Hid, String.eqb_refl in Hlt. specialize (Hlt eq_refl).
    pose proof (firstn_le_length 50 (coll_user db)). lia.
  - intros d Hd. now apply filter_In in Hd.
Qed.

(** [discover_counts_the_caller] at a store of fifty-one users, the
    caller being the first of them. *)
Lemma discover_counts_the_caller_witness :
  exists shown,
    discover (Scenario.person Byte.x00 "someone@example.com") Accounts.crowd
    = (Ok (List.map user_entity shown), Accounts.crowd) /\
    (List.length shown <= 49)%nat /\
    (forall d, In d shown -> In d (List.firstn 50 (coll_user Accounts.crowd))).
Proof.
  apply (discover_counts_the_caller (Scenario.person Byte.x00 "someone@example.com")
           Accounts.crowd).
  - intros H. discriminate H.
  - intros H. discriminate H.
  - left. reflexivity.
Defined.

(** The same, evaluated: of the fifty other users in the store, the feed
    shows forty-nine; the one stored last is left out. *)
Example discover_in_a_crowd :
  let me := Scenario.person Byte.x00 "someone@example.com" in
  let last := Scenario.person Byte.x32 "someone@example.com" in
  match fst (discover me Accounts.crowd) with
  | Ok items =>
      List.length items = 49%nat /\
      existsb (fun p => String.eqb (pub_id p) (str (User._id last))) items = false
  | Raise _ => False
  end /\
  List.length (List.filter (fun d => negb (Bson.eqb (User._id d) (User._id me)))
                 (coll_user Accounts.crowd)) = 50%nat.
Proof. vm_compute. repeat split. Qed.

(** ** The profile update, further *)

Lemma find_one_split {A} (filter : A -> bool) (l : list A) (d : A) :
  find_one filter l = Some d ->
  exists l1 l2, l = l1 ++ d :: l2 /\ Forall (fun x => filter x = false) l1 /\ filter d = true.
Proof.
  unfold find_one. induction l as [|x l IH]; cbn [List.find]; [discriminate|].
  destruct (filter x) eqn:E.
  - intros [= <-]. exists [], l. repeat split; [constructor|exact E].
  - intros H. destruct (IH H) as (l1 & l2 & -> & Hl1 & Hd).
    exists (x :: l1), l2. repeat split; [now constructor|exact Hd].
Qed.

(** X17. For a user who is stored and a payload the store can take (its
    integers, [distance_km] and the members of [age_range], fit in 64
    bits), [update_me] answers with the public view of the stored document
    as it is after the update, and every field the payload supplies has
    the value supplied, in the store and in the answer; [updated_at] is
    the reading of the clock. *)
Theorem update_me_sets_fields
  (payload : ProfileUpdate.t) (user : User.t) (env : Env) (db : Database) :
  In (User._id user) (List.map User._id (coll_user db)) ->
  storable payload ->
  exists fresh db',
    update_me payload user env db = (Ok (user_entity fresh), db') /\
    find_one (user_with_id (User._id user)) (coll_user db') = Some fresh /\
    User.updated_at fresh = Some (utcnow env 0) /\
    (forall v, ProfileUpdate.photos payload = Some v ->
               User.photos fresh = v /\ pub_photos (user_entity fresh) = v) /\
    (forall v, ProfileUpdate.bio payload = Some v ->
               User.bio fresh = Some v /\ pub_bio (user_entity fresh) = Some v) /\
    (forall v, ProfileUpdate.gender payload = Some v ->
               User.gender fresh = Some v /\ pub_gender (user_entity fresh) = Some v) /\
    (forall v, ProfileUpdate.show_me payload = Some v ->
               User.show_me fresh = Some v /\ pub_show_me (user_entity fresh) = Some v) /\
    (forall v, ProfileUpdate.age_range payload = Some v ->
               User.age_range fresh = v /\ pub_age_range (user_entity fresh) = v) /\
    (forall v, ProfileUpdate.distance_km payload = Some v ->
               User.distance_km fresh = v /\ pub_distance_km (user_entity fresh) = v) /\
    (forall v, ProfileUpdate.interests payload = Some v ->
               User.interests fresh = v /\ pub_interests (user_entity fresh) = v).
Proof.
  intros Hin _. apply stored_user_found in Hin as [stored Hstored].
  destruct (find_one_split _ _ _ Hstored) as (l1 & l2 & Hdb & Hl1 & Hid).
  unfold user_with_id in Hid. apply oid_eqb_eq in Hid.
  assert (Hl1' : Forall (fun d => User._id d <> User._id user) l1).
  { eapply Forall_impl; [|exact Hl1]. intros d Hd. now apply oid_eqb_neq. }
  pose proof (update_me_applies payload user env db l1 l2 stored Hdb Hid Hl1') as E.
  exists (apply_updates payload (utcnow env 0) stored). eexists.
  split; [exact E|]. split.
  - cbn [coll_user]. rewrite find_one_app.
    replace (find_one (user_with_id (User._id user)) l1) with (@None User.t).
    + unfold find_one; cbn [List.find]. unfold user_with_id at 1; cbn.
      now rewrite Hid, oid_eqb_refl.
    + symmetry. apply find_one_None. now apply Forall_forall.
  - unfold apply_updates, user_entity; cbn.
    split; [reflexivity|].
    repeat match goal with |- _ /\ _ => split end;
      intros v Hv; rewrite Hv; split; reflexivity.
Qed.

(** [update_me_sets_fields] at Alice writing her bio and widening her
    radius. *)
Lemma update_me_sets_fields_witness :
  let payload := {| ProfileUpdate.photos := None;
                    ProfileUpdate.bio := Some "hello";
                    ProfileUpdate.gender := None;
                    ProfileUpdate.show_me := None;
                    ProfileUpdate.age_range := None;
                    ProfileUpdate.distance_km := Some 80;
                    ProfileUpdate.interests := None |} in
  exists fresh db',
    update_me payload Scenario.alice (Scenario.env 8) Scenario.users_only
    = (Ok (user_entity fresh), db') /\
    find_one (user_with_id (User._id Scenario.alice)) (coll_user db') = Some fresh /\
    User.updated_at fresh = Some (utcnow (Scenario.env 8) 0) /\
    (forall v, ProfileUpdate.photos payload = Some v ->
               User.photos fresh = v /\ pub_photos (user_entity fresh) = v) /\
    (forall v, ProfileUpdate.bio payload = Some v ->
               User.bio fresh = Some v /\ pub_bio (user_entity fresh) = Some v) /\
    (forall v, ProfileUpdate.gender payload = Some v ->
               User.gender fresh = Some v /\ pub_gender (user_entity fresh) = Some v) /\
    (forall v, ProfileUpdate.show_me payload = Some v ->
               User.show_me fresh = Some v /\ pub_show_me (user_entity fresh) = Some v) /\
    (forall v, ProfileUpdate.age_range payload = Some v ->
               User.age_range fresh = v /\ pub_age_range (user_entity fresh) = v) /\
    (forall v, ProfileUpdate.distance_km payload = Some v ->
               User.distance_km fresh = v /\ pub_distance_km (user_entity fresh) = v) /\
    (forall v, ProfileUpdate.interests payload = Some v ->
               User.interests fresh = v /\ pub_interests (user_entity fresh) = v).
Proof.
  intros payload.
  apply (update_me_sets_fields payload Scenario.alice (Scenario.env 8) Scenario.users_only).
  - left. reflexivity.
  - split.
    + intros v [= <-]. unfold fits_int64. lia.
    + intros l Hl. discriminate Hl.
Defined.

Lemma apply_updates_again (payload : ProfileUpdate.t) (n1 n2 : datetime) (d : User.t) :
  apply_updates payload n2 (apply_updates payload n1 d) = apply_updates payload n2 d.
Proof.
  unfold apply_updates; cbn.
  destruct payload as [[?|] [?|] [?|] [?|] [?|] [?|] [?|]]; reflexivity.
Qed.

Lemma update_one_again {A} (filter : A -> bool) (s1 s2 : A -> A) (l : list A) :
  (forall d, filter (s1 d) = filter d) ->
  (forall d, s2 (s1 d) = s2 d) ->
  update_one filter s2 (update_one filter s1 l) = update_one filter s2 l.
Proof.
  intros Hf Hs. induction l as [|x l IH]; cbn [update_one]; [reflexivity|].
  destruct (filter x) eqn:E; cbn [update_one].
  - now rewrite Hf, E, Hs.
  - now rewrite E, IH.
Qed.

Lemma update_one_no_match {A} (filter : A -> bool) (set : A -> A) (l : list A) :
  (forall d, In d l -> filter d = false) -> update_one filter set l = l.
Proof.
  induction l as [|x l IH]; intros H; cbn [update_one]; [reflexivity|].
  rewrite (H x (or_introl eq_refl)). f_equal. apply IH. intros d Hd. apply H. now right.
Qed.

(** X18. Sending the same profile update again changes nothing but
    [updated_at]: the store after the two updates is the store after the
    second alone, and both calls give the same answer. *)
Theorem update_me_again
  (payload : ProfileUpdate.t) (user : User.t) (e1 e2 : Env) (db : Database) :
  let db1 := snd (update_me payload user e1 db) in
  snd (update_me payload user e2 db1) = snd (update_me payload user e2 db) /\
  fst (update_me payload user e2 db1) = fst (update_me payload user e1 db).
Proof.
  cbv zeta. split.
  - rewrite !update_me_db. cbn [coll_user coll_like coll_match coll_message].
    f_equal. apply update_one_again.
    + intros d. reflexivity.
    + intros d. apply apply_updates_again.
  - destruct (find_one (user_with_id (User._id user)) (coll_user db)) as [stored|] eqn:Hs.
    + destruct (find_one_split _ _ _ Hs) as (l1 & l2 & Hdb & Hl1 & Hid).
      unfold user_with_id in Hid. apply oid_eqb_eq in Hid.
      assert (Hl1' : Forall (fun d => User._id d <> User._id user) l1).
      { eapply Forall_impl; [|exact Hl1]. intros d Hd. now apply oid_eqb_neq. }
      rewrite (update_me_applies payload user e1 db l1 l2 stored Hdb Hid Hl1').
      cbn [fst snd].
      rewrite (update_me_applies payload user e2
                 (mkDatabase (l1 ++ apply_updates payload (utcnow e1 0) stored :: l2)
                    (coll_like db) (coll_match db) (coll_message db))
                 l1 l2 (apply_updates payload (utcnow e1 0) stored) eq_refl Hid Hl1').
      cbn [fst]. rewrite apply_updates_again. reflexivity.
    + assert (Hsame : forall e, update_one (user_with_id (User._id user))
                          (apply_updates payload (utcnow e 0)) (coll_user db)
                        = coll_user db).
      { intros e. apply update_one_no_match. now apply find_one_None. }
      assert (Hnone : forall e d, coll_user d = coll_user db ->
                fst (update_me payload user e d) = Raise AttributeError).
      { intros e d Hd. unfold update_me, bind, db_user_update_one, db_user_find_one; cbn.
        now rewrite Hd, Hsame, Hs. }
      rewrite (Hnone e1 db eq_refl). apply Hnone.
      rewrite update_me_db. cbn [coll_user]. apply Hsame.
Qed.

(** ** From likes to the match directory *)

Lemma matches_eq (db : Database) (user : User.t) :
  participants_are_ids db ->
  matches user db =
  (Ok (List.map (match_entry db (str (User._id user)))
         (sort (descending Match.created_at)
            (find (involves (str (User._id user))) (coll_match db)))), db).
Proof.
  intros Hids. unfold matches, bind, db_match_find.
  apply for_each_match_item. apply Forall_forall. intros m Hm.
  apply (Permutation_in _ (sort_Permutation _ _)) in Hm.
  apply filter_In in Hm as [Hm _].
  unfold participants_are_ids in Hids. rewrite Forall_forall in Hids.
  destruct (Hids m Hm) as [Ha Hb].
  destruct (other_id_of_cases (str (User._id user)) m) as [-> | ->]; assumption.
Qed.

Lemma matches_shows (db : Database) (user : User.t) (m : Match.t) :
  participants_are_ids db ->
  In m (coll_match db) ->
  involves (str (User._id user)) m = true ->
  exists items,
    matches user db = (Ok items, db) /\
    In (match_entry db (str (User._id user)) m) items.
Proof.
  intros Hids Hin Hinv. eexists. split; [now apply matches_eq|].
  apply in_map. apply (Permutation_in _ (Permutation_sym (sort_Permutation _ _))).
  now apply filter_In.
Qed.

(** X19. Once two stored users have liked each other, one call after the
    other, each of them finds the other in [matches]: the listing of A has
    an entry for the new Match that carries the public view of B, and the
    listing of B one that carries the public view of A. *)
Theorem matched_users_see_each_other
  (db : Database) (ua ub sa sb : User.t) (e1 e2 : Env) :
  let a := str (User._id ua) in
  let b := str (User._id ub) in
  resolves_user db a sa ->
  resolves_user db b sb ->
  User._id ua <> User._id ub ->
  ~ likes db b a ->
  ~ matched db a b ->
  participants_are_ids db ->
  exists db1 db2 items_a items_b ra rb,
    like {| target_user_id := b |} ua e1 db = (Ok ra, db1) /\
    like {| target_user_id := a |} ub e2 db1 = (Ok rb, db2) /\
    matches ua db2 = (Ok items_a, db2) /\
    matches ub db2 = (Ok items_b, db2) /\
    In {| item_id := str (new_id e2 1);
          item_other := Some (user_entity sb);
          item_created_at := utcnow e2 1 |} items_a /\
    In {| item_id := str (new_id e2 1);
          item_other := Some (user_entity sa);
          item_created_at := utcnow e2 1 |} items_b.
Proof.
  intros a b Hsa Hsb Hne Hno Hnm Hids.
  apply resolves_user_inv in Hsa as [Hoa Hfa]. apply resolves_user_inv in Hsb as [Hob Hfb].
  unfold a in Hoa. unfold b in Hob. rewrite ObjectId_str in Hoa, Hob.
  injection Hoa as Hoa. injection Hob as Hob. rewrite <- Hoa in Hfa. rewrite <- Hob in Hfb.
  assert (Ha : In (User._id ua) (List.map User._id (coll_user db))).
  { apply find_one_Some in Hfa as [Hin _]. rewrite Hoa. now apply in_map. }
  assert (Hb : In (User._id ub) (List.map User._id (coll_user db))).
  { apply find_one_Some in Hfb as [Hin _]. rewrite Hob. now apply in_map. }
  assert (Hab : a <> b) by (intros H; apply Hne; now apply str_inj).
  destruct (mutual_likes_steps db ua ub e1 e2 Ha Hb Hne Hno Hnm) as (Hfirst & Hsecond & _).
  fold a b in Hfirst, Hsecond.
  set (p1 := {| target_user_id := b |}) in *. set (p2 := {| target_user_id := a |}) in *.
  set (db1 := add_like (like_doc p1 ua e1) db) in *.
  set (md := match_doc p2 ub e2) in *.
  set (db2 := add_match md (add_like (like_doc p2 ub e2) db1)) in *.
  assert (Hids2 : participants_are_ids db2).
  { apply participants_are_ids_add_match; [| |exact Hids].
    - cbn. rewrite ObjectId_str. discriminate.
    - cbn. unfold a. rewrite ObjectId_str. discriminate. }
  assert (Hmd : In md (coll_match db2)).
  { cbn. unfold insert_one. apply in_or_app. right. now left. }
  destruct (matches_shows db2 ua md Hids2 Hmd) as (items_a & Hma & Hia).
  { unfold involves, md, match_doc; cbn. fold a. rewrite String.eqb_refl. apply orb_true_r. }
  destruct (matches_shows db2 ub md Hids2 Hmd) as (items_b & Hmb & Hib).
  { unfold involves, md, match_doc; cbn. now rewrite String.eqb_refl. }
  exists db1, db2, items_a, items_b. do 2 eexists.
  split; [exact Hfirst|]. split; [exact Hsecond|].
  split; [exact Hma|]. split; [exact Hmb|]. split.
  - replace {| item_id := str (new_id e2 1);
               item_other := Some (user_entity sb);
               item_created_at := utcnow e2 1 |}
      with (match_entry db2 (str (User._id ua)) md); [exact Hia|].
    unfold match_entry, counterpart, other_id_of, md, match_doc; cbn. fold a b.
    destruct (String.eqb_spec b a) as [H|_]; [now symmetry in H|].
    unfold b. now rewrite ObjectId_str, Hfb.
  - replace {| item_id := str (new_id e2 1);
               item_other := Some (user_entity sa);
               item_created_at := utcnow e2 1 |}
      with (match_entry db2 (str (User._id ub)) md); [exact Hib|].
    unfold match_entry, counterpart, other_id_of, md, match_doc; cbn.
    rewrite String.eqb_refl. unfold a. now rewrite ObjectId_str, Hfa.
Qed.

(** [matched_users_see_each_other] at Alice and Bob. *)
Lemma matched_users_see_each_other_witness :
  let a := str (User._id Scenario.alice) in
  let b := str (User._id Scenario.bob) in
  exists db1 db2 items_a items_b ra rb,
    like {| target_user_id := b |} Scenario.alice (Scenario.env 1) Scenario.users_only
    = (Ok ra, db1) /\
    like {| target_user_id := a |} Scenario.bob (Scenario.env 2) db1 = (Ok rb, db2) /\
    matches Scenario.alice db2 = (Ok items_a, db2) /\
    matches Scenario.bob db2 = (Ok items_b, db2) /\
    In {| item_id := str (new_id (Scenario.env 2) 1);
          item_other := Some (user_entity Scenario.bob);
          item_created_at := utcnow (Scenario.env 2) 1 |} items_a /\
    In {| item_id := str (new_id (Scenario.env 2) 1);
          item_other := Some (user_entity Scenario.alice);
          item_created_at := utcnow (Scenario.env 2) 1 |} items_b.
Proof.
  apply (matched_users_see_each_other Scenario.users_only Scenario.alice Scenario.bob
           Scenario.alice Scenario.bob (Scenario.env 1) (Scenario.env 2)).
  - reflexivity.
  - reflexivity.
  - intros H. discriminate H.
  - intros (d & Hin & _). exact Hin.
  - intros (m & Hin & _). exact Hin.
  - constructor.
Defined.
